(** * Monitor110 decision pipeline: retrieval, credibility, deduplication,
      relevance guardrail and the /analyze orchestrator.

    A shallow embedding of the backend services.  Conventions:
    - a JavaScript string is a [string]; the text functions below act on the
      ASCII range ([toLowerCase] folds A-Z, [\w] is [A-Za-z0-9_], [\s] is the
      ASCII white space);
    - a JavaScript number that the services compute with is an exact rational
      ([Q]) or [NaN]: sums and quotients are exact where the source rounds to
      a double.  The comparisons of a similarity with the threshold and of a
      term length with 80% of a variation length agree with the exact ones on
      every size a request can reach; a sum of scores that lands on or next
      to a threshold can compare differently from the double ([0.95 + -0.05]
      is 9/10 here and 0.8999999999999999 in the source), so what is proved
      of scores relates the fields of a result to one another and does not
      rest on the value of such a sum;
    - a number given as the bound of [slice] is read as [slice] reads it,
      with its fraction dropped;
    - an object literal used as a table is an association list; reading a
      property also finds what every object inherits from [Object.prototype];
    - an exception is an explicit [Throws] outcome carrying the error's
      [name] and [message]. *)

From Stdlib Require Import Ascii String List Sorted ZArith QArith Qminmax Lia Lqa.
From stdpp Require Import gmap strings list.

Local Open Scope string_scope.
Local Open Scope list_scope.

(** ** JavaScript strings *)

Module JsString.

Definition code (c : ascii) : N := N_of_ascii c.

Definition is_upper (c : ascii) : bool := (65 <=? code c)%N && (code c <=? 90)%N.
Definition is_lower (c : ascii) : bool := (97 <=? code c)%N && (code c <=? 122)%N.
Definition is_digit (c : ascii) : bool := (48 <=? code c)%N && (code c <=? 57)%N.

(** [\w] *)
Definition is_word (c : ascii) : bool :=
  is_upper c || is_lower c || is_digit c || (code c =? 95)%N.

(** [\s]: tab, line feed, vertical tab, form feed, carriage return, space *)
Definition is_space (c : ascii) : bool :=
  ((9 <=? code c)%N && (code c <=? 13)%N) || (code c =? 32)%N.

Definition lower_char (c : ascii) : ascii :=
  if is_upper c then ascii_of_N (code c + 32) else c.

Definition upper_char (c : ascii) : ascii :=
  if is_lower c then ascii_of_N (code c - 32) else c.

Fixpoint map_chars (f : ascii -> ascii) (s : string) : string :=
  match s with
  | EmptyString => EmptyString
  | String c r => String (f c) (map_chars f r)
  end.

Definition toLowerCase : string -> string := map_chars lower_char.
Definition toUpperCase : string -> string := map_chars upper_char.

(** [s.replace(/[^\w\s]/g, '')] *)
Fixpoint strip_punct (s : string) : string :=
  match s with
  | EmptyString => EmptyString
  | String c r =>
      if is_word c || is_space c then String c (strip_punct r) else strip_punct r
  end.

(** [s.replace(/[^\w\s]/g, ' ')] *)
Definition blank_punct : string -> string :=
  map_chars (fun c => if is_word c || is_space c then c else " "%char).

Definition starts_with_space (s : string) : bool :=
  match s with
  | EmptyString => false
  | String c _ => is_space c
  end.

(** [s.split(/\s+/)]: the pieces between the maximal runs of white space; a
    run at either end leaves an empty piece there, and the empty string
    splits into one empty piece. *)
Fixpoint split_ws (s : string) : list string :=
  match s with
  | EmptyString => [EmptyString]
  | String c r =>
      let rest := split_ws r in
      if is_space c then
        if starts_with_space r then rest else EmptyString :: rest
      else
        match rest with
        | h :: t => String c h :: t
        | [] => [String c EmptyString]
        end
  end.

(** [s.startsWith(p)] *)
Fixpoint startsWith (s p : string) : bool :=
  match p, s with
  | EmptyString, _ => true
  | String _ _, EmptyString => false
  | String a p', String b s' => if Ascii.eqb a b then startsWith s' p' else false
  end.

(** [s.includes(p)] *)
Fixpoint includes (s p : string) : bool :=
  startsWith s p ||
  match s with
  | EmptyString => false
  | String _ r => includes r p
  end.

(** [l.join(sep)] *)
Fixpoint join (sep : string) (l : list string) : string :=
  match l with
  | [] => EmptyString
  | [x] => x
  | x :: r => x +:+ sep +:+ join sep r
  end.

Definition has_space (s : string) : bool := includes s " ".

(** [s.trim().length === 0] *)
Fixpoint all_space (s : string) : bool :=
  match s with
  | EmptyString => true
  | String c r => is_space c && all_space r
  end.

End JsString.

(** ** JavaScript numbers and object literals *)

Module Js.

Inductive number := NaN | Num (q : Q).

(** [x >= y]; false as soon as [x] is [NaN] *)
Definition ge (x : number) (y : Q) : bool :=
  match x with
  | NaN => false
  | Num q => Qle_bool y q
  end.

(** [x || 0] on a number: [NaN] and [0] are falsy *)
Definition or_zero (x : number) : Q :=
  match x with
  | NaN => 0
  | Num q => q
  end.

(** What reading [obj[key]] on an object literal finds. *)
Inductive property (V : Type) :=
| Own (v : V)        (* a property of the literal itself *)
| Inherited          (* a member of Object.prototype: a function or object *)
| Undefined.
Arguments Own {V} v.
Arguments Inherited {V}.
Arguments Undefined {V}.

(** The property names every object literal inherits. *)
Definition object_prototype : list string :=
  [ "constructor"; "__defineGetter__"; "__defineSetter__"; "hasOwnProperty";
    "__lookupGetter__"; "__lookupSetter__"; "isPrototypeOf";
    "propertyIsEnumerable"; "toString"; "valueOf"; "__proto__";
    "toLocaleString" ].

Fixpoint own {V} (obj : list (string * V)) (key : string) : option V :=
  match obj with
  | [] => None
  | (k, v) :: r => if String.eqb k key then Some v else own r key
  end.

Definition inherited (key : string) : bool :=
  existsb (String.eqb key) object_prototype.

Definition get {V} (obj : list (string * V)) (key : string) : property V :=
  match own obj key with
  | Some v => Own v
  | None => if inherited key then Inherited else Undefined
  end.

(** How [slice] reads a number given as its bound: the fraction is dropped
    (ToIntegerOrInfinity truncates towards zero). *)
Definition toInteger (x : Q) : Z := Z.quot (Qnum x) (Z.pos (Qden x)).

(** [l.slice(0, n)] for a bound read as the integer [n]: a negative [n]
    counts from the end. *)
Definition slice0 {A} (l : list A) (n : Z) : list A :=
  if (n <? 0)%Z then firstn (Z.to_nat (Z.of_nat (length l) + n)) l
  else firstn (Z.to_nat n) l.

(** An [Error] object: [error.name] and [error.message]. *)
Record error := { name : string; message : string }.

Definition SyntaxError (msg : string) : error :=
  {| name := "SyntaxError"; message := msg |}.

Definition TypeError (msg : string) : error :=
  {| name := "TypeError"; message := msg |}.

(** Outcome of a call that may throw. *)
Inductive outcome (A : Type) :=
| Returns (a : A)
| Throws (e : error).
Arguments Returns {A} a.
Arguments Throws {A} e.

Definition bind {A B} (x : outcome A) (f : A -> outcome B) : outcome B :=
  match x with
  | Returns a => f a
  | Throws m => Throws m
  end.

Fixpoint mapM {A B} (f : A -> outcome B) (l : list A) : outcome (list B) :=
  match l with
  | [] => Returns []
  | x :: r => bind (f x) (fun y => bind (mapM f r) (fun ys => Returns (y :: ys)))
  end.

End Js.

(** ** Articles *)

Inductive Tier := HIGH | MEDIUM | LOW | UNVERIFIED.

Record Credibility := {
  score : Js.number;
  tier : Tier;
  credSourceType : string;
  explanation : string
}.

Inductive DedupStatus := StatusUnique | StatusDuplicate (reason : string).

(** A corpus record, with the fields the pipeline stages attach to it on the
    way ([relevanceScore], [credibility], [deduplication]). *)
Record Article := {
  id : string;
  headline : string;
  content : string;
  source : string;
  sourceType : string;
  companies : list string;
  sector : option string;
  timestamp : string;
  relevanceScore : option nat;
  credibility : option Credibility;
  deduplication : option DedupStatus
}.

Definition with_relevanceScore (a : Article) (s : nat) : Article :=
  {| id := id a; headline := headline a; content := content a;
     source := source a; sourceType := sourceType a; companies := companies a;
     sector := sector a; timestamp := timestamp a;
     relevanceScore := Some s; credibility := credibility a;
     deduplication := deduplication a |}.

Definition with_credibility (a : Article) (c : Credibility) : Article :=
  {| id := id a; headline := headline a; content := content a;
     source := source a; sourceType := sourceType a; companies := companies a;
     sector := sector a; timestamp := timestamp a;
     relevanceScore := relevanceScore a; credibility := Some c;
     deduplication := deduplication a |}.

Definition with_deduplication (a : Article) (d : DedupStatus) : Article :=
  {| id := id a; headline := headline a; content := content a;
     source := source a; sourceType := sourceType a; companies := companies a;
     sector := sector a; timestamp := timestamp a;
     relevanceScore := relevanceScore a; credibility := credibility a;
     deduplication := Some d |}.

(** [a.credibility?.score || 0] *)
Definition credScore (a : Article) : Q :=
  match credibility a with
  | Some c => Js.or_zero (score c)
  | None => 0
  end.

(** ** Credibility scorer *)

Module CredibilityService.

Definition CREDIBILITY_SCORES : list (string * Q) :=
  [ ("official", 0.95); ("major_publication", 0.85); ("analyst", 0.75);
    ("social_media", 0.40); ("unknown", 0.30) ]%Q.

Definition SOURCE_ADJUSTMENTS : list (string * Q) :=
  [ ("Bloomberg", 0.05); ("Reuters", 0.05); ("Financial Times", 0.05);
    ("Apple Investor Relations", 0.05); ("Microsoft Blog", 0.03);
    ("NVIDIA Investor Relations", 0.05); ("Tesla IR", 0.05);
    ("TechCrunch", -0.10); ("DigiTimes", -0.15); ("Electrek", -0.05);
    ("@elonmusk", 0.10); ("@mingchikuo", 0.05);
    ("Reddit r/teslamotors", -0.10) ]%Q.

(** A value an expression of [assignCredibility] can hold: a finite number,
    or an inherited function or object. *)
Inductive value := VNum (q : Q) | VObject.

(** [CREDIBILITY_SCORES.unknown] *)
Definition unknown_score : Q := 0.30%Q.

(** [table[key] || dflt]: a missing property and the number 0 are falsy, a
    function or object is truthy. *)
Definition get_or (table : list (string * Q)) (key : string) (dflt : Q) : value :=
  match Js.get table key with
  | Js.Own q => if Qeq_bool q 0 then VNum dflt else VNum q
  | Js.Inherited => VObject
  | Js.Undefined => VNum dflt
  end.

(** [Math.min(1.0, Math.max(0.1, x + y))]: [+] on a function or object
    concatenates strings, and that string converts to [NaN]. *)
Definition clamp_sum (x y : value) : Js.number :=
  match x, y with
  | VNum a, VNum b => Js.Num (Qmin 1.0 (Qmax 0.1 (a + b)))
  | _, _ => Js.NaN
  end.

Definition tier_of (finalScore : Js.number) : Tier :=
  if Js.ge finalScore 0.90 then HIGH
  else if Js.ge finalScore 0.70 then MEDIUM
  else if Js.ge finalScore 0.50 then LOW
  else UNVERIFIED.

Definition explanations (src : string) : list (string * string) :=
  [ ("official", "Official company source (" +:+ src +:+ ") - highest reliability");
    ("major_publication", "Major financial publication (" +:+ src +:+ ") - professionally verified");
    ("analyst", "Professional analyst research (" +:+ src +:+ ") - expert opinion");
    ("social_media", "Social media source (" +:+ src +:+ ") - requires verification");
    ("unknown", "Unclassified source - credibility uncertain") ].

(** The rationale string; an inherited member is rendered as one marker text. *)
Definition generateCredibilityExplanation (a : Article) : string :=
  match Js.get (explanations (source a)) (sourceType a) with
  | Js.Own s => if String.eqb s "" then "Unclassified source - credibility uncertain" else s
  | Js.Inherited => "[inherited member]"
  | Js.Undefined => "Unclassified source - credibility uncertain"
  end.

Definition baseScore (a : Article) : value :=
  get_or CREDIBILITY_SCORES (sourceType a) unknown_score.

Definition adjustment (a : Article) : value :=
  get_or SOURCE_ADJUSTMENTS (source a) 0.

Definition finalScore (a : Article) : Js.number :=
  clamp_sum (baseScore a) (adjustment a).

Definition assignCredibility (a : Article) : Article :=
  with_credibility a
    {| score := finalScore a;
       tier := tier_of (finalScore a);
       credSourceType := sourceType a;
       explanation := generateCredibilityExplanation a |}.

Definition passes (minScore : Q) (a : Article) : bool :=
  match credibility a with
  | Some c => Js.ge (score c) minScore
  | None => false
  end.

Definition filterByCredibility (articles : list Article) (minScore : Q) : list Article :=
  List.filter (passes minScore) (map assignCredibility articles).

End CredibilityService.

(** [[...l].sort((a, b) => key(b) - key(a))]: the sort is stable, so the result
    is the one stable arrangement by descending key.  [leb x y] reads
    "the key of [x] is at most the key of [y]"; an element goes in front of
    the first one whose key is not larger, so equal keys keep their order. *)
Module Sorting.

Section Stable.
Context {A : Type} (leb : A -> A -> bool).

Fixpoint insert_desc (x : A) (l : list A) : list A :=
  match l with
  | [] => [x]
  | y :: r => if leb y x then x :: l else y :: insert_desc x r
  end.

Definition sort_desc (l : list A) : list A := foldr insert_desc [] l.

(** [x] may stand before [y] in descending order. *)
Definition before (x y : A) : Prop := leb y x = true.
End Stable.

Definition cred_leb (a b : Article) : bool := Qle_bool (credScore a) (credScore b).

Definition sortByCredibility : list Article -> list Article := sort_desc cred_leb.

End Sorting.

(** ** Deduplicator *)

Module DeduplicationService.

(** The word set of a text: lower-cased, punctuation removed, split on white
    space, words of at most two characters dropped. *)
Definition words (text : string) : gset string :=
  list_to_set
    (List.filter (fun w => Nat.ltb 2 (String.length w))
       (JsString.split_ws (JsString.strip_punct (JsString.toLowerCase text)))).

Definition ratio (inter union : nat) : Q :=
  if Nat.eqb union 0 then 0
  else Z.of_nat inter # Pos.of_nat union.

Definition jaccardSimilarity (text1 text2 : string) : Q :=
  let words1 := words text1 in
  let words2 := words text2 in
  ratio (size (words1 ∩ words2)) (size (words1 ∪ words2)).

(** [`${article.headline} ${article.content}`] *)
Definition articleText (a : Article) : string :=
  headline a +:+ " " +:+ content a.

Definition similar (threshold : Q) (a kept : Article) : bool :=
  Qle_bool threshold (jaccardSimilarity (articleText a) (articleText kept)).

Record Outcome := { unique : list Article; duplicates : list Article }.

Definition duplicate_reason : string := "Similar content already included".

(** One turn of the loop over the sorted articles. *)
Definition step (threshold : Q) (acc : Outcome) (article : Article) : Outcome :=
  if existsb (similar threshold article) (unique acc) then
    {| unique := unique acc;
       duplicates := duplicates acc ++
         [with_deduplication article (StatusDuplicate duplicate_reason)] |}
  else
    {| unique := unique acc ++ [with_deduplication article StatusUnique];
       duplicates := duplicates acc |}.

Definition deduplicateArticles (articles : list Article) (threshold : Q) : Outcome :=
  match articles with
  | [] => {| unique := []; duplicates := [] |}
  | _ => fold_left (step threshold) (Sorting.sortByCredibility articles)
           {| unique := []; duplicates := [] |}
  end.

(** The default [threshold = 0.6]. *)
Definition default_threshold : Q := 0.6%Q.

(** [l] would be kept whole by the loop that has already kept [kept]: no
    member is similar to a member before it or to one of [kept], and each
    carries the mark of a unique article. *)
Fixpoint fresh (threshold : Q) (kept l : list Article) : Prop :=
  match l with
  | [] => True
  | x :: r =>
      existsb (similar threshold x) kept = false /\
      deduplication x = Some StatusUnique /\
      fresh threshold (kept ++ [x]) r
  end.

(** Two articles are not near-duplicates under the threshold. *)
Definition distinct (threshold : Q) (a b : Article) : Prop :=
  (jaccardSimilarity (articleText a) (articleText b) < threshold)%Q.

(** [calculateSimilarityMatrix(articles)]: entry [i][j] is 1.0 on the
    diagonal and the similarity of the two texts elsewhere. *)
Definition calculateSimilarityMatrix (articles : list Article) : list (list Q) :=
  imap (fun i a =>
          imap (fun j b =>
                  if Nat.eqb i j then 1.0%Q
                  else jaccardSimilarity (articleText a) (articleText b))
               articles)
       articles.

(** [matrix[i][j]] *)
Definition entry (matrix : list (list Q)) (i j : nat) : option Q :=
  match matrix !! i with
  | Some row => row !! j
  | None => None
  end.

(** [d] was dropped for a kept article of [kept]: it carries the duplicate
    mark, and it is similar to a kept article that is at least as credible. *)
Definition dropped_for (t : Q) (kept : list Article) (d : Article) : Prop :=
  deduplication d = Some (StatusDuplicate duplicate_reason) /\
  exists k, In k kept /\ similar t d k = true /\ (credScore d <= credScore k)%Q.

(** An article as it is apart from the deduplication mark. *)
Definition unmarked (a : Article) : Article :=
  {| id := id a; headline := headline a; content := content a;
     source := source a; sourceType := sourceType a; companies := companies a;
     sector := sector a; timestamp := timestamp a;
     relevanceScore := relevanceScore a; credibility := credibility a;
     deduplication := None |}.

End DeduplicationService.

(** ** Regular expressions built from query terms

    [new RegExp(term, 'gi')] reads the term as a pattern.  Two kinds of
    pattern are decided here: a pattern without syntax characters, which
    matches its own text, and a pattern of plain characters and the
    quantifier signs [*], [+], [?], where a quantifier sign with nothing to
    repeat before it is a SyntaxError.  Every other pattern (classes, groups,
    escapes, braces, anchors, alternation, the dot) is left to the hosting
    engine, a parameter of the model. *)

Module RegExp.

Record Host := {
  compiled : Type;
  compile : string -> Js.outcome compiled;    (* [Throws]: the engine's SyntaxError *)
  match_count : compiled -> string -> nat     (* [text.match(re)], 0 for null *)
}.

Definition syntax_chars : list ascii :=
  [ "^"; "$"; "\"; "."; "*"; "+"; "?"; "("; ")"; "["; "]"; "{"; "}"; "|" ]%char.

Definition is_syntax_char (c : ascii) : bool := existsb (Ascii.eqb c) syntax_chars.

Definition is_quantifier (c : ascii) : bool :=
  existsb (Ascii.eqb c) [ "*"; "+"; "?" ]%char.

Fixpoint all_chars (P : ascii -> bool) (s : string) : bool :=
  match s with
  | EmptyString => true
  | String c r => P c && all_chars P r
  end.

(** No syntax character at all. *)
Definition plain : string -> bool := all_chars (fun c => negb (is_syntax_char c)).

(** Plain characters and quantifier signs only. *)
Definition quantified_plain : string -> bool :=
  all_chars (fun c => negb (is_syntax_char c) || is_quantifier c).

(** Where the scan of [Term ::= Atom Quantifier?], with
    [Quantifier ::= ( * | + | ? ) ??], stands. *)
Inductive position :=
| NoAtom        (* at the start, or after a complete lazy quantifier *)
| AfterAtom
| AfterQuantifier.

Fixpoint nothing_to_repeat (st : position) (p : string) : bool :=
  match p with
  | EmptyString => false
  | String c r =>
      if is_quantifier c then
        match st with
        | AfterAtom => nothing_to_repeat AfterQuantifier r
        | AfterQuantifier =>
            if Ascii.eqb c "?" then nothing_to_repeat NoAtom r else true
        | NoAtom => true
        end
      else nothing_to_repeat AfterAtom r
  end.

Inductive regexp (h : Host) :=
| Literal (p : string)
| Hosted (r : compiled h).
Arguments Literal {h} p.
Arguments Hosted {h} r.

(** The SyntaxError of [new RegExp(pattern, 'gi')] for a quantifier sign
    with nothing before it to repeat. *)
Definition nothing_to_repeat_error (pattern : string) : Js.error :=
  Js.SyntaxError
    ("Invalid regular expression: /" +:+ pattern +:+ "/gi: Nothing to repeat").

Definition create (h : Host) (pattern : string) : Js.outcome (regexp h) :=
  if plain pattern then Js.Returns (Literal pattern)
  else if quantified_plain pattern && nothing_to_repeat NoAtom pattern then
    Js.Throws (nothing_to_repeat_error pattern)
  else
    match compile h pattern with
    | Js.Returns r => Js.Returns (Hosted r)
    | Js.Throws e => Js.Throws e
    end.

(** Under the [i] flag two characters match when they agree after case
    folding. *)
Definition char_eq_ci (a b : ascii) : bool :=
  Ascii.eqb (JsString.upper_char a) (JsString.upper_char b).

Fixpoint matches_at (p text : string) : bool :=
  match p, text with
  | EmptyString, _ => true
  | String _ _, EmptyString => false
  | String a p', String b t' => char_eq_ci a b && matches_at p' t'
  end.

(** The matches of a non-empty literal under the [g] flag: scan from the
    left, and after a match resume behind it ([skip] characters remain to be
    passed over). *)
Fixpoint occurrences_from (p : string) (skip : nat) (text : string) : nat :=
  match text with
  | EmptyString => 0
  | String _ r =>
      match skip with
      | S k => occurrences_from p k r
      | O =>
          if matches_at p text
          then S (occurrences_from p (String.length p - 1) r)
          else occurrences_from p 0 r
      end
  end.

(** The empty pattern matches once at every index, the end included. *)
Definition occurrences (p text : string) : nat :=
  match p with
  | EmptyString => S (String.length text)
  | _ => occurrences_from p 0 text
  end.

Definition count {h : Host} (re : regexp h) (text : string) : nat :=
  match re with
  | Literal p => occurrences p text
  | Hosted r => match_count h r text
  end.

(** A host that compiles nothing; the literal patterns and the quantifier
    signs with nothing to repeat never reach it. *)
Definition no_host : Host :=
  {| compiled := unit;
     compile := fun pattern =>
       Js.Throws (Js.SyntaxError
                    ("Invalid regular expression: /" +:+ pattern +:+ "/gi"));
     match_count := fun _ _ => 0 |}.

End RegExp.

(** ** Retriever *)

Module RetrievalService.

Definition companyAliases : list (string * string) :=
  [ ("apple", "AAPL"); ("microsoft", "MSFT"); ("tesla", "TSLA");
    ("nvidia", "NVDA"); ("google", "GOOGL"); ("amazon", "AMZN");
    ("meta", "META"); ("reliance", "RELIANCE"); ("tata", "TATA");
    ("tcs", "TCS"); ("infosys", "INFY"); ("hdfc", "HDFC"); ("icici", "ICICI");
    ("byd", "BYD"); ("nio", "NIO"); ("rivian", "RIVN"); ("ola", "OLA");
    ("ather", "ATHER"); ("bitcoin", "BTC"); ("ethereum", "ETH");
    ("crypto", "CRYPTO"); ("blockchain", "BLOCKCHAIN"); ("rbi", "RBI");
    ("sbi", "SBI"); ("bank", "BANKS"); ("banking", "BANKS");
    ("interest", "BANKS"); ("repo", "RBI"); ("inflation", "BANKS");
    ("fed", "FED"); ("credit", "BANKS"); ("loan", "BANKS");
    ("jpmorgan", "JPM"); ("oil", "OIL"); ("crude", "CRUDE"); ("gold", "GOLD");
    ("silver", "SILVER"); ("copper", "COPPER"); ("commodity", "COMMODITIES");
    ("commodities", "COMMODITIES"); ("opec", "OIL"); ("gas", "GAS");
    ("power", "POWER"); ("solar", "SOLAR"); ("renewable", "RENEWABLE");
    ("wind", "WIND"); ("energy", "ENERGY"); ("hydrogen", "HYDROGEN");
    ("battery", "BATTERY"); ("grid", "ENERGY"); ("adani", "ADANI");
    ("pharma", "PHARMA"); ("healthcare", "HEALTHCARE"); ("drug", "PHARMA");
    ("fda", "PHARMA"); ("biocon", "BIOCON"); ("sunpharma", "SUNPHARMA");
    ("apollo", "APOLLO"); ("hospital", "HEALTHCARE"); ("ev", "EV");
    ("automobile", "AUTO"); ("semiconductor", "CHIPS"); ("msft", "MSFT");
    ("aapl", "AAPL"); ("tsla", "TSLA"); ("nvda", "NVDA"); ("googl", "GOOGL");
    ("amzn", "AMZN"); ("btc", "BTC"); ("eth", "ETH") ].

(** [query.toLowerCase().split(/\s+/).filter(term => term.length > 2)] *)
Definition queryTerms (query : string) : list string :=
  List.filter (fun term => Nat.ltb 2 (String.length term))
    (JsString.split_ws (JsString.toLowerCase query)).

(** [ticker ? [term, ticker.toLowerCase()] : [term]]; an inherited member is
    truthy and has no [toLowerCase]. *)
Definition expandTerm (term : string) : Js.outcome (list string) :=
  match Js.get companyAliases term with
  | Js.Own ticker =>
      if String.eqb ticker "" then Js.Returns [term]
      else Js.Returns [term; JsString.toLowerCase ticker]
  | Js.Inherited => Js.Throws (Js.TypeError "ticker.toLowerCase is not a function")
  | Js.Undefined => Js.Returns [term]
  end.

Definition expandedTerms (query : string) : Js.outcome (list string) :=
  Js.bind (Js.mapM expandTerm (queryTerms query)) (fun l => Js.Returns (concat l)).

Definition sum_nat (l : list nat) : nat := foldr Nat.add 0 l.

Section WithEngine.
Variable host : RegExp.Host.

(** [`${article.headline} ${article.content}`.toLowerCase()] *)
Definition searchText (article : Article) : string :=
  JsString.toLowerCase (headline article +:+ " " +:+ content article).

(** What one expanded term adds to the score of one article. *)
Definition termScore (article : Article) (term : string) : Js.outcome nat :=
  Js.bind (RegExp.create host term) (fun regex =>
    let matches := RegExp.count regex (searchText article) in
    if Nat.eqb matches 0 then Js.Returns 0
    else
      let headlineMatches :=
        RegExp.count regex (JsString.toLowerCase (headline article)) in
      Js.Returns (matches * 1 + headlineMatches * 2)).

Definition termsScore (article : Article) (terms : list string) : Js.outcome nat :=
  Js.bind (Js.mapM (termScore article) terms) (fun l => Js.Returns (sum_nat l)).

(** [article.companies.some(c => companies.map(x => x.toUpperCase()).includes(c))] *)
Definition hasCompany (filter : list string) (article : Article) : bool :=
  existsb (fun c => existsb (String.eqb c) (map JsString.toUpperCase filter))
    (companies article).

Definition scoreArticle (terms filter : list string) (article : Article)
  : Js.outcome Article :=
  Js.bind (termsScore article terms) (fun score =>
    let score :=
      match filter with
      | [] => score
      | _ => if hasCompany filter article then score else 0
      end in
    Js.Returns (with_relevanceScore article score)).

Definition relevance (a : Article) : nat :=
  match relevanceScore a with Some n => n | None => 0 end.

Definition relevance_leb (a b : Article) : bool := Nat.leb (relevance a) (relevance b).

(** [retrieveRelevantContent(query, { maxResults, companies })] over the
    corpus [articles] (the [financialData.articles] of the data file);
    [maxResults] is the bound as [slice(0, maxResults)] reads it. *)
Definition retrieveRelevantContent (articles : list Article) (query : string)
    (maxResults : Z) (filter : list string) : Js.outcome (list Article) :=
  Js.bind (expandedTerms query) (fun terms =>
  Js.bind (Js.mapM (scoreArticle terms filter) articles) (fun scoredArticles =>
    Js.Returns
      (Js.slice0
         (Sorting.sort_desc relevance_leb
            (List.filter (fun a => Nat.ltb 0 (relevance a)) scoredArticles))
         maxResults))).
End WithEngine.

(** A term without a blank, as every piece of a split on white space is. *)
Definition no_blank : string -> bool :=
  RegExp.all_chars (fun c => negb (Ascii.eqb c " ")).

Definition blank_free (t : string) : Prop := no_blank t = true /\ t <> "".

(** [getAllArticles()] over the corpus [articles] *)
Definition getAllArticles (articles : list Article) : list Article := articles.

(** [getArticlesByCompany(ticker)]:
    [articles.filter(article => article.companies.includes(ticker.toUpperCase()))] *)
Definition getArticlesByCompany (articles : list Article) (ticker : string)
  : list Article :=
  List.filter
    (fun article =>
       existsb (String.eqb (JsString.toUpperCase ticker)) (companies article))
    articles.

End RetrievalService.

(** ** Relevance guardrail *)

Module RelevanceService.

Definition KNOWN_ENTITIES : list (string * list string) :=
  [ ("apple", ["apple"; "aapl"; "iphone"; "ipad"; "mac"; "tim cook"; "cupertino"; "vision pro"]);
    ("microsoft", ["microsoft"; "msft"; "azure"; "windows"; "satya nadella"; "copilot"; "xbox"]);
    ("tesla", ["tesla"; "tsla"; "elon musk"; "cybertruck"; "fsd"; "gigafactory"; "supercharger"]);
    ("nvidia", ["nvidia"; "nvda"; "jensen huang"; "gpu"; "cuda"; "h100"; "h200"; "geforce"]);
    ("google", ["google"; "googl"; "alphabet"; "sundar pichai"; "android"; "chrome"]);
    ("amazon", ["amazon"; "amzn"; "aws"; "bezos"; "prime"]);
    ("meta", ["meta"; "facebook"; "zuckerberg"; "instagram"; "whatsapp"]);
    ("reliance", ["reliance"; "jio"; "mukesh ambani"; "ril"]);
    ("tata", ["tata"; "tata motors"; "tata group"; "ratan tata"; "tcs"; "tata power"]);
    ("infosys", ["infosys"; "infy"; "salil parekh"; "infosys technologies"]);
    ("tcs", ["tcs"; "tata consultancy"; "tata consulting"]);
    ("hdfc", ["hdfc"; "hdfc bank"; "housing development finance"]);
    ("icici", ["icici"; "icici bank"]);
    ("byd", ["byd"; "build your dreams"]);
    ("nio", ["nio"; "nio inc"]);
    ("rivian", ["rivian"; "rivn"]);
    ("ola", ["ola"; "ola electric"; "bhavish aggarwal"]);
    ("ather", ["ather"; "ather energy"]);
    ("bitcoin", ["bitcoin"; "btc"; "satoshi"; "btc etf"; "spot etf"]);
    ("ethereum", ["ethereum"; "eth"; "ether"; "vitalik"; "eth2"]);
    ("crypto", ["crypto"; "cryptocurrency"; "blockchain"; "defi"; "web3"]);
    ("banking", ["bank"; "banking"; "rbi"; "interest rate"; "repo rate"; "monetary policy"; "npa"; "credit growth"]);
    ("rbi", ["rbi"; "reserve bank"; "repo"; "monetary"]);
    ("sbi", ["sbi"; "state bank"]);
    ("fed", ["fed"; "federal reserve"; "fomc"; "powell"]);
    ("jpmorgan", ["jpmorgan"; "jpm"; "jp morgan"; "jamie dimon"]);
    ("commodities", ["commodity"; "commodities"]);
    ("oil", ["oil"; "crude"; "brent"; "wti"; "opec"; "petroleum"]);
    ("gold", ["gold"; "bullion"; "precious metal"]);
    ("silver", ["silver"]);
    ("copper", ["copper"]);
    ("gas", ["natural gas"; "lng"; "gas prices"]);
    ("energy", ["energy"; "power"; "electricity"; "grid"; "utility"]);
    ("solar", ["solar"; "photovoltaic"; "pv"]);
    ("wind", ["wind power"; "wind energy"; "wind turbine"]);
    ("renewable", ["renewable"; "clean energy"; "green energy"]);
    ("hydrogen", ["hydrogen"; "green hydrogen"; "electrolyzer"]);
    ("adani", ["adani"; "adani green"; "adani power"]);
    ("healthcare", ["healthcare"; "health care"; "hospital"; "medical"]);
    ("pharma", ["pharma"; "pharmaceutical"; "drug"; "medicine"; "fda"]);
    ("biocon", ["biocon"]);
    ("sunpharma", ["sun pharma"; "sunpharma"; "sun pharmaceutical"]);
    ("apollo", ["apollo"; "apollo hospitals"]);
    ("drreddy", ["dr reddy"; "drreddy"; "dr. reddy"]);
    ("ev", ["ev"; "electric vehicle"; "electric car"; "electric scooter"; "battery"; "charging"]);
    ("auto", ["auto"; "automobile"; "car sales"; "vehicle"; "automotive"; "car market"]);
    ("ai", ["ai"; "artificial intelligence"; "machine learning"; "llm"; "chatgpt"; "generative"]);
    ("cloud", ["cloud"; "azure"; "aws"; "saas"; "data center"]);
    ("earnings", ["earnings"; "revenue"; "profit"; "q1"; "q2"; "q3"; "q4"; "quarterly"; "fiscal"]);
    ("stock", ["stock"; "shares"; "market cap"; "valuation"; "price target"; "ipo"]);
    ("markets", ["sensex"; "nifty"; "bse"; "nse"; "fii"; "market"; "index"]);
    ("india", ["india"; "indian"; "rupee"; "inr"; "sebi"]);
    ("finance", ["finance"; "financial"; "fintech"; "payment"]);
    ("semiconductor", ["semiconductor"; "chip"; "chips"; "tsmc"; "foundry"; "fab"]) ].

Definition OFF_TOPIC_INDICATORS : list string :=
  [ "real estate"; "property"; "mortgage"; "rent"; "retail"; "fashion";
    "luxury"; "apparel"; "clothing"; "agriculture"; "farming"; "food"; "crop";
    "movie"; "cinema"; "bollywood"; "hollywood"; "sports"; "football";
    "cricket"; "olympics"; "youtube"; "entertainment"; "travel"; "tourism";
    "hotel"; "airline"; "flight"; "weather"; "recipe"; "cooking"; "gaming";
    "video game" ].

Definition importantShortTerms : list string := [ "ev"; "ai"; "it"; "uk"; "us" ].

(** [list.includes(x)] *)
Definition mem (x : string) (l : list string) : bool := existsb (String.eqb x) l.

Definition extractQueryTerms (query : string) : list string :=
  List.filter
    (fun term => Nat.ltb 2 (String.length term) || mem term importantShortTerms)
    (JsString.split_ws (JsString.blank_punct (JsString.toLowerCase query))).

Record OffTopicCheck := { isOffTopic : bool; offTopicTerms : list string }.

(** [a.includes(b) || b.includes(a)] *)
Definition overlaps (a b : string) : bool :=
  JsString.includes a b || JsString.includes b a.

Definition detectOffTopicQuery (queryTerms : list string) (hasKnownEntity : bool)
  : OffTopicCheck :=
  if hasKnownEntity then {| isOffTopic := false; offTopicTerms := [] |}
  else
    let offTopicTerms :=
      List.filter (fun term => existsb (fun indicator => overlaps indicator term)
                                 OFF_TOPIC_INDICATORS) queryTerms in
    {| isOffTopic := Nat.ltb 0 (length offTopicTerms);
       offTopicTerms := offTopicTerms |}.

(** The three ways a variation can match, in the order the source tries them. *)

Definition exactMatch (queryTerms : list string) (variation : string) : bool :=
  mem variation queryTerms.

Definition phraseMatch (queryText variation : string) : bool :=
  JsString.includes variation " " && JsString.includes queryText variation.

(** [term.length >= variation.length * 0.8] *)
Definition covers (term variation : string) : bool :=
  Nat.leb (4 * String.length variation) (5 * String.length term).

Definition prefixMatch (term variation : string) : bool :=
  if Nat.ltb (String.length term) 4 then false
  else if JsString.startsWith variation term && covers term variation then true
  else if JsString.startsWith term variation && Nat.leb 4 (String.length variation)
  then true
  else false.

Definition variationMatches (queryTerms : list string) (queryText variation : string)
  : bool :=
  if exactMatch queryTerms variation then true
  else if phraseMatch queryText variation then true
  else existsb (fun term => prefixMatch term variation) queryTerms.

Record EntityCheck := { hasKnownEntity : bool; matchedEntities : list string }.

Definition detectKnownEntities (queryTerms : list string) : EntityCheck :=
  let queryText := JsString.join " " queryTerms in
  let matchedEntities :=
    map fst
      (List.filter
         (fun entry => existsb (variationMatches queryTerms queryText) (snd entry))
         KNOWN_ENTITIES) in
  {| hasKnownEntity := Nat.ltb 0 (length matchedEntities);
     matchedEntities := matchedEntities |}.

Record DocOverlap := { hasDocumentOverlap : bool; overlappingCompanies : list string }.

(** [set.add(x)] on a [Set] kept in insertion order *)
Definition set_add (x : string) (l : list string) : list string :=
  if mem x l then l else l ++ [x].

(** [(doc.companies || []).map(c => c.toLowerCase())] *)
Definition lowerCompanies (doc : Article) : list string :=
  map JsString.toLowerCase (companies doc).

(** [(doc.sector || '').toLowerCase()] *)
Definition lowerSector (doc : Article) : string :=
  JsString.toLowerCase (match sector doc with Some s => s | None => "" end).

Definition nonempty (s : string) : bool := negb (String.eqb s "").

Definition overlapStep (queryTerms : list string) (acc : list string) (doc : Article)
  : list string :=
  let acc :=
    fold_left
      (fun acc company =>
         if existsb (fun term => overlaps company term) queryTerms
         then set_add (JsString.toUpperCase company) acc else acc)
      (lowerCompanies doc) acc in
  let sector := lowerSector doc in
  if nonempty sector && existsb (fun term => overlaps sector term) queryTerms
  then set_add (JsString.toUpperCase sector) acc else acc.

Definition checkDocumentOverlap (queryTerms : list string) (documents : list Article)
  : DocOverlap :=
  let overlapping := fold_left (overlapStep queryTerms) documents [] in
  {| hasDocumentOverlap := Nat.ltb 0 (length overlapping);
     overlappingCompanies := overlapping |}.

Definition sum_Q (l : list Q) : Q := foldr Qplus 0%Q l.

(** What one query term adds to the score of a document. *)
Definition termRelevance (document : Article) (term : string) : Q :=
  let docText :=
    JsString.toLowerCase (headline document +:+ " " +:+ content document) in
  let companies := lowerCompanies document in
  let sector := lowerSector document in
  ((if JsString.includes docText term then 0.3 else 0)
   + (if existsb (fun c => overlaps c term) companies then 0.4 else 0)
   + (if nonempty sector && overlaps sector term then 0.3 else 0)
   + sum_Q
       (map
          (fun entry =>
             if existsb (fun v => overlaps v term) (snd entry)
                && (JsString.includes docText (fst entry)
                    || existsb (fun c => JsString.includes c (fst entry)) companies)
             then 0.2 else 0)
          KNOWN_ENTITIES))%Q.

Definition calculateDocumentRelevance (queryTerms : list string) (document : Article) : Q :=
  let score := sum_Q (map (termRelevance document) queryTerms) in
  match queryTerms with
  | [] => 0%Q
  | _ => Qmin 1 (score / inject_Z (Z.of_nat (length queryTerms)))%Q
  end.

Definition Qlt_bool (x y : Q) : bool := negb (Qle_bool y x).

Record DocScore := { docId : string; docScore : Q }.

Record RelevanceResult := {
  isRelevant : bool;
  relevantDocCount : nat;
  totalDocCount : option nat;
  averageRelevance : Q;
  reason : string;
  queryTerms : list string;
  offTopicCheck : OffTopicCheck;
  entityCheck : EntityCheck;
  docOverlap : option DocOverlap;
  docScores : option (list DocScore)     (* absent when no document was scored *)
}.

Definition evaluateRelevance (query : string) (documents : list Article)
  : RelevanceResult :=
  let queryTerms := extractQueryTerms query in
  let entityCheck := detectKnownEntities queryTerms in
  let offTopicCheck := detectOffTopicQuery queryTerms (hasKnownEntity entityCheck) in
  match documents with
  | [] =>
      {| isRelevant := false; relevantDocCount := 0; totalDocCount := None;
         averageRelevance := 0%Q; reason := "No documents retrieved";
         queryTerms := queryTerms; offTopicCheck := offTopicCheck;
         entityCheck := entityCheck; docOverlap := None; docScores := None |}
  | _ =>
      let docOverlap := checkDocumentOverlap queryTerms documents in
      let docScores :=
        map (fun doc => {| docId := id doc;
                           docScore := calculateDocumentRelevance queryTerms doc |})
            documents in
      let relevantDocs := List.filter (fun d => Qlt_bool 0.3 (docScore d)) docScores in
      let averageScore :=
        (sum_Q (map docScore docScores)
         / inject_Z (Z.of_nat (length docScores)))%Q in
      let decision :=
        if hasKnownEntity entityCheck then
          (true, "Query matches known entities: "
                 +:+ JsString.join ", " (matchedEntities entityCheck))
        else if hasDocumentOverlap docOverlap then
          (true, "Query matches document topics: "
                 +:+ JsString.join ", " (overlappingCompanies docOverlap))
        else if isOffTopic offTopicCheck then
          (false, "Query topic (" +:+ JsString.join ", " (offTopicTerms offTopicCheck)
                  +:+ ") not covered by our dataset")
        else if Qlt_bool averageScore 0.15 then
          (false, "Query does not match any known entities or topics in our dataset")
        else if Nat.ltb (length relevantDocs) 1 && Qlt_bool averageScore 0.1 then
          (false, "Insufficient relevant documents found")
        else (true, "Documents are relevant to query") in
      {| isRelevant := fst decision; relevantDocCount := length relevantDocs;
         totalDocCount := Some (length documents);
         averageRelevance := averageScore; reason := snd decision;
         queryTerms := queryTerms; offTopicCheck := offTopicCheck;
         entityCheck := entityCheck; docOverlap := Some docOverlap;
         docScores := Some docScores |}
  end.

(** A character of an extracted term: a word character that is not an
    upper-case letter. *)
Definition term_char (c : ascii) : bool :=
  JsString.is_word c && negb (JsString.is_upper c).

(** The lower-cased company and sector tags of a document that the overlap
    check looks at. *)
Definition tags (doc : Article) : list string :=
  lowerCompanies doc ++ (if nonempty (lowerSector doc) then [lowerSector doc] else []).

(** The companies loop of one document. *)
Definition companiesStep (queryTerms : list string) (acc : list string)
    (company : string) : list string :=
  if existsb (fun term => overlaps company term) queryTerms
  then set_add (JsString.toUpperCase company) acc else acc.

(** A tag that contains a query term or is contained in one. *)
Definition tag_overlaps (queryTerms : list string) (tag : string) : bool :=
  existsb (fun term => overlaps tag term) queryTerms.

End RelevanceService.

(** ** Structured analysis results *)

Record Analysis := {
  narrative : string;
  sentiment : string;
  sentimentScore : Q;
  confidence : string;
  confidenceExplanation : string;
  keyInsights : list string;
  sourcesUsed : option (list string);
  dataLimitations : option string
}.

Record Metadata := {
  model : string;
  metaRelevanceFiltered : option bool;
  isMock : option bool;
  documentsAnalyzed : option nat;
  metaTimestamp : string
}.

(** What [generateNotRelevantResponse], [generateMockAnalysis] and
    [analyzeWithLLM] return. *)
Record ServiceResult := {
  resultSuccess : bool;
  resultAnalysis : option Analysis;
  resultError : option string;
  resultMetadata : option Metadata
}.

Definition generateNotRelevantResponse (now : string) (query : string)
    (relevanceResult : RelevanceService.RelevanceResult) : ServiceResult :=
  {| resultSuccess := true;
     resultAnalysis := Some
       {| narrative :=
            "Insufficient relevant data to generate a reliable market insight for "
            +:+ String (ascii_of_nat 34) query +:+ String (ascii_of_nat 34)
            ". Our dataset covers Technology, EVs, Indian markets, Crypto, and Finance. This query falls outside the current coverage.";
          sentiment := "NEUTRAL";
          sentimentScore := 0;
          confidence := "RUMOR";
          confidenceExplanation := RelevanceService.reason relevanceResult;
          keyInsights :=
            [ "Query topic not well-covered by available data sources";
              "Our dataset covers: Tech (Apple, Microsoft, Tesla, NVIDIA), Indian markets (Tata, Reliance, Infosys), Crypto (Bitcoin, Ethereum), and EV sector";
              "Consider refining your query to match these focus areas" ];
          sourcesUsed := Some [];
          dataLimitations :=
            Some "Query does not match the focus areas of our curated financial dataset." |};
     resultError := None;
     resultMetadata := Some
       {| model := "RELEVANCE_GUARDRAIL"; metaRelevanceFiltered := Some true;
          isMock := None; documentsAnalyzed := None; metaTimestamp := now |} |}.

Definition generateMockAnalysis (now : string) (query : string)
    (documents : list Article) : ServiceResult :=
  {| resultSuccess := true;
     resultAnalysis := Some
       {| narrative :=
            "Based on available sources, the market shows mixed but cautiously optimistic signals.";
          sentiment := "POSITIVE";
          sentimentScore := 0.7;
          confidence := "EMERGING";
          confidenceExplanation :=
            "The analysis is based on multiple credible sources, but long-term impacts remain uncertain.";
          keyInsights :=
            [ "AI-related demand continues to drive market momentum";
              "Earnings performance remains strong across major players";
              "Regulatory risks exist but are currently manageable" ];
          sourcesUsed := None;
          dataLimitations := None |};
     resultError := None;
     resultMetadata := Some
       {| model := "MOCK"; metaRelevanceFiltered := None; isMock := Some true;
          documentsAnalyzed := Some (length documents); metaTimestamp := now |} |}.

(** ** Pipeline orchestrator: [POST /api/analyze] *)

Module AnalyzeRoute.

(** The request body.  [None] stands for a missing field, and for the query
    also for a value that is not a string.  [maxSources] is the number the
    parsed body holds, which the handler never validates: it may be negative
    or have a fraction. *)
Record Request := {
  query : option string;
  maxSources : option Q;
  minCredibility : option Q;
  companiesFilter : option (list string);
  useMock : option bool
}.

(** The readings of the clock: [Date.now()] on entry, [Date.now()] when the
    response is built, and [new Date().toISOString()]. *)
Record Clock := { startTime : Z; nowMs : Z; nowIso : string }.

Record SourceSummary := {
  srcId : string;
  srcHeadline : string;
  srcSource : string;
  srcSourceType : string;
  srcCredibility : option Credibility;
  srcTimestamp : string;
  srcCompanies : list string
}.

Record Breakdown := {
  averageScore : Q;
  highCredibilityCount : nat;
  mediumCredibilityCount : nat;
  lowCredibilityCount : nat;
  unverifiedCount : nat;
  totalSources : nat
}.

Record Telemetry := {
  retrieved : nat;
  filtered : option nat;
  filteredOutReason : option (nat * Q);   (* the count and threshold the text cites *)
  deduplicated : option nat;
  afterCredibilityFilter : option nat;
  afterDeduplication : option nat;
  duplicatesRemoved : option nat;
  finalSourcesUsed : option nat;
  relevanceFiltered : option bool;
  relevanceReason : option string;
  averageRelevanceScore : option Q;
  processingTimeMs : Z;
  usedMockResponse : option bool
}.

Record Response := {
  status : nat;
  success : bool;
  echoedQuery : option string;
  analysis : option Analysis;
  message : option string;
  error : option string;
  sources : option (list SourceSummary);
  credibilityBreakdown : option Breakdown;
  pipeline : option Telemetry;
  metadata : option Metadata;
  responseTimestamp : option string
}.

(** What the handler does: answer at once, or call the summarizer
    collaborator ([generateMockAnalysis] when [mock], else [analyzeWithLLM])
    on the final documents and answer from what it returns or throws. *)
Inductive Handler :=
| Respond (r : Response)
| Summarize (mock : bool) (q : string) (documents : list Article)
            (k : Js.outcome ServiceResult -> Response).

Definition tierCount (t : Tier) (articles : list Article) : nat :=
  length (List.filter
            (fun a => match credibility a with
                      | Some c => match tier c, t with
                                  | HIGH, HIGH | MEDIUM, MEDIUM | LOW, LOW
                                  | UNVERIFIED, UNVERIFIED => true
                                  | _, _ => false
                                  end
                      | None => false
                      end) articles).

Definition getCredibilityBreakdown (articles : list Article) : Breakdown :=
  {| averageScore :=
       match articles with
       | [] => 0%Q
       | _ => (RelevanceService.sum_Q (map credScore articles)
               / inject_Z (Z.of_nat (length articles)))%Q
       end;
     highCredibilityCount := tierCount HIGH articles;
     mediumCredibilityCount := tierCount MEDIUM articles;
     lowCredibilityCount := tierCount LOW articles;
     unverifiedCount := tierCount UNVERIFIED articles;
     totalSources := length articles |}.

Definition summary (a : Article) : SourceSummary :=
  {| srcId := id a; srcHeadline := headline a; srcSource := source a;
     srcSourceType := sourceType a; srcCredibility := credibility a;
     srcTimestamp := timestamp a; srcCompanies := companies a |}.

Definition invalidQuery (q : option string) : bool :=
  match q with
  | None => true
  | Some s => JsString.all_space s       (* also covers the empty string *)
  end.

Definition badRequest : Response :=
  {| status := 400; success := false; echoedQuery := None; analysis := None;
     message := None;
     error := Some "Query is required and must be a non-empty string";
     sources := None; credibilityBreakdown := None; pipeline := None;
     metadata := None; responseTimestamp := None |}.

(** The answer of the [catch]: [message] is the [error.message] of what was
    thrown. *)
Definition serverError (clock : Clock) (e : Js.error) : Response :=
  {| status := 500; success := false; echoedQuery := None; analysis := None;
     message := Some (Js.message e); error := Some "Analysis failed";
     sources := None; credibilityBreakdown := None; pipeline := None;
     metadata := None; responseTimestamp := Some (nowIso clock) |}.

Definition elapsed (clock : Clock) : Z := (nowMs clock - startTime clock)%Z.

Definition noContent (clock : Clock) (q : string) : Response :=
  {| status := 200; success := true; echoedQuery := Some q; analysis := None;
     message := Some "No relevant content found for this query. Try different keywords or company names.";
     error := None; sources := Some []; credibilityBreakdown := None;
     pipeline := Some
       {| retrieved := 0; filtered := Some 0; filteredOutReason := None;
          deduplicated := Some 0; afterCredibilityFilter := None;
          afterDeduplication := None; duplicatesRemoved := None;
          finalSourcesUsed := None; relevanceFiltered := None;
          relevanceReason := None; averageRelevanceScore := None;
          processingTimeMs := elapsed clock; usedMockResponse := None |};
     metadata := None; responseTimestamp := Some (nowIso clock) |}.

Definition belowThreshold (clock : Clock) (q : string) (nRetrieved : nat)
    (minCredibility : Q) : Response :=
  {| status := 200; success := true; echoedQuery := Some q; analysis := None;
     message := Some "Found content but all sources below credibility threshold. Try lowering minCredibility.";
     error := None; sources := Some []; credibilityBreakdown := None;
     pipeline := Some
       {| retrieved := nRetrieved; filtered := Some 0;
          filteredOutReason := Some (nRetrieved, minCredibility);
          deduplicated := Some 0; afterCredibilityFilter := None;
          afterDeduplication := None; duplicatesRemoved := None;
          finalSourcesUsed := None; relevanceFiltered := None;
          relevanceReason := None; averageRelevanceScore := None;
          processingTimeMs := elapsed clock; usedMockResponse := None |};
     metadata := None; responseTimestamp := Some (nowIso clock) |}.

Definition rejected (clock : Clock) (q : string)
    (relevanceResult : RelevanceService.RelevanceResult)
    (nRetrieved nCredible nDeduped nDuplicates : nat) : Response :=
  let safeResponse := generateNotRelevantResponse (nowIso clock) q relevanceResult in
  {| status := 200; success := resultSuccess safeResponse;
     echoedQuery := Some q; analysis := resultAnalysis safeResponse;
     message := None; error := None; sources := Some [];
     credibilityBreakdown := None;
     pipeline := Some
       {| retrieved := nRetrieved; filtered := None; filteredOutReason := None;
          deduplicated := None; afterCredibilityFilter := Some nCredible;
          afterDeduplication := Some nDeduped;
          duplicatesRemoved := Some nDuplicates; finalSourcesUsed := Some 0;
          relevanceFiltered := Some true;
          relevanceReason := Some (RelevanceService.reason relevanceResult);
          averageRelevanceScore :=
            Some (RelevanceService.averageRelevance relevanceResult);
          processingTimeMs := elapsed clock; usedMockResponse := Some false |};
     metadata := resultMetadata safeResponse;
     responseTimestamp := Some (nowIso clock) |}.

Definition analysed (clock : Clock) (q : string) (shouldUseMock : bool)
    (relevanceResult : RelevanceService.RelevanceResult)
    (finalSources : list Article)
    (nRetrieved nCredible nDeduped nDuplicates : nat)
    (result : ServiceResult) : Response :=
  {| status := 200; success := resultSuccess result; echoedQuery := Some q;
     analysis := resultAnalysis result; message := None;
     error := resultError result;
     sources := Some (map summary finalSources);
     credibilityBreakdown := Some (getCredibilityBreakdown finalSources);
     pipeline := Some
       {| retrieved := nRetrieved; filtered := None; filteredOutReason := None;
          deduplicated := None; afterCredibilityFilter := Some nCredible;
          afterDeduplication := Some nDeduped;
          duplicatesRemoved := Some nDuplicates;
          finalSourcesUsed := Some (length finalSources);
          relevanceFiltered := Some false; relevanceReason := None;
          averageRelevanceScore :=
            Some (RelevanceService.averageRelevance relevanceResult);
          processingTimeMs := elapsed clock;
          usedMockResponse := Some shouldUseMock |};
     metadata := resultMetadata result;
     responseTimestamp := Some (nowIso clock) |}.

Definition default {A} (d : A) (o : option A) : A :=
  match o with Some x => x | None => d end.

(** [sortByCredibility(dedupedSources).slice(0, maxSources)] *)
Definition finalSources (dedupedSources : list Article) (maxSources : Z) : list Article :=
  Js.slice0 (Sorting.sortByCredibility dedupedSources) maxSources.

(** An article carries a credibility score of at least [minScore]. *)
Definition credible (minScore : Q) (a : Article) : Prop :=
  exists c q, credibility a = Some c /\ score c = Js.Num q /\ (minScore <= q)%Q.

(** The request after validation, with the defaults filled in. *)
Record Options := {
  optQuery : string;
  optMaxSources : Q;
  optMinCredibility : Q;
  optCompanies : list string;
  optUseMock : bool
}.

Definition options (req : Request) : Options :=
  {| optQuery := default "" (query req);
     optMaxSources := default 8%Q (maxSources req);
     optMinCredibility := default 0.4%Q (minCredibility req);
     optCompanies := default [] (companiesFilter req);
     optUseMock := default false (useMock req) |}.

(** [maxResults: maxSources * 2], as the [slice(0, maxResults)] of the
    retriever reads it. *)
Definition maxResults (o : Options) : Z := Js.toInteger (optMaxSources o * 2).

(** [maxSources], as the [slice(0, maxSources)] of step 4 reads it. *)
Definition sourceCap (o : Options) : Z := Js.toInteger (optMaxSources o).

(** What steps 2 to 5 of the handler have computed when the guardrail has
    given its verdict. *)
Record Stages := {
  retrievedDocs : list Article;
  credibleSources : list Article;
  dedupedSources : list Article;
  duplicateDocs : list Article;
  finalDocs : list Article;
  relevanceResult : RelevanceService.RelevanceResult
}.

(** How far steps 1 to 5 get. *)
Inductive Progress :=
| Invalid                                  (* step 1 rejects the body *)
| Failed (e : Js.error)                    (* an exception reached the catch *)
| NothingRetrieved
| NothingCredible (retrievedDocs : list Article)
| Judged (st : Stages).

Section Handler.
Variable host : RegExp.Host.
Variable corpus : list Article.          (* the articles of the data file *)

Definition stages (req : Request) : Progress :=
  if invalidQuery (query req) then Invalid
  else
    let o := options req in
    match RetrievalService.retrieveRelevantContent host corpus (optQuery o)
            (maxResults o) (optCompanies o) with
    | Js.Throws e => Failed e
    | Js.Returns [] => NothingRetrieved
    | Js.Returns retrieved =>
        match CredibilityService.filterByCredibility retrieved
                (optMinCredibility o) with
        | [] => NothingCredible retrieved
        | credible =>
            let dedup :=
              DeduplicationService.deduplicateArticles credible
                DeduplicationService.default_threshold in
            let final :=
              finalSources (DeduplicationService.unique dedup) (sourceCap o) in
            Judged
              {| retrievedDocs := retrieved;
                 credibleSources := credible;
                 dedupedSources := DeduplicationService.unique dedup;
                 duplicateDocs := DeduplicationService.duplicates dedup;
                 finalDocs := final;
                 relevanceResult :=
                   RelevanceService.evaluateRelevance (optQuery o) final |}
        end
    end.

Definition analyze (clock : Clock) (req : Request) : Handler :=
  let o := options req in
  let q := optQuery o in
  match stages req with
  | Invalid => Respond badRequest
  | Failed e => Respond (serverError clock e)
  | NothingRetrieved => Respond (noContent clock q)
  | NothingCredible retrieved =>
      Respond (belowThreshold clock q (length retrieved) (optMinCredibility o))
  | Judged st =>
      let nRetrieved := length (retrievedDocs st) in
      let nCredible := length (credibleSources st) in
      let nDeduped := length (dedupedSources st) in
      let nDuplicates := length (duplicateDocs st) in
      if negb (RelevanceService.isRelevant (relevanceResult st)) then
        Respond (rejected clock q (relevanceResult st)
                   nRetrieved nCredible nDeduped nDuplicates)
      else
        Summarize (optUseMock o) q (finalDocs st)
          (fun answer =>
             match answer with
             | Js.Throws e => serverError clock e
             | Js.Returns result =>
                 analysed clock q (optUseMock o) (relevanceResult st)
                   (finalDocs st) nRetrieved nCredible nDeduped nDuplicates
                   result
             end)
  end.
End Handler.

(** Running the handler against a summarizer. *)
Definition run (summarizer : bool -> string -> list Article -> Js.outcome ServiceResult)
    (h : Handler) : Response :=
  match h with
  | Respond r => r
  | Summarize mock q documents k => k (summarizer mock q documents)
  end.

(** The summarizer behind the switch: the canned analysis in mock mode, the
    collaborator [llm] otherwise. *)
Definition summarizer (llm : string -> list Article -> Js.outcome ServiceResult)
    (now : string) (mock : bool) (q : string) (documents : list Article)
  : Js.outcome ServiceResult :=
  if mock then Js.Returns (generateMockAnalysis now q documents)
  else llm q documents.

(** The documents handed to the summarizer, if it is called at all. *)
Definition handedOver (h : Handler) : option (list Article) :=
  match h with
  | Respond _ => None
  | Summarize _ _ documents _ => Some documents
  end.

End AnalyzeRoute.

Definition mkArticle (i h c src ty : string) (cs : list string) : Article :=
  {| id := i; headline := h; content := c; source := src; sourceType := ty;
     companies := cs; sector := None; timestamp := "2024-01-01T00:00:00Z";
     relevanceScore := None; credibility := None; deduplication := None |}.

(** ** Dashboard: the sentiment trend kept by the page ([App], [handleAnalyze]) *)

Module Dashboard.

Record TrendPoint := {
  trendQuery : string;
  trendScore : Q;
  trendTimestamp : string
}.

(** [query.length > 15 ? query.substring(0, 15) + '...' : query] *)
Definition trendLabel (q : string) : string :=
  if Nat.ltb 15 (String.length q) then String.substring 0 15 q +:+ "..." else q.

(** [l.slice(-n)]: the last [n] elements, all of them when there are fewer. *)
Definition lastN {A} (n : nat) (l : list A) : list A := skipn (length l - n) l.

(** [[...prev.slice(-9), { query, score, timestamp }]] *)
Definition addTrendPoint (prev : list TrendPoint) (q : string) (score : Q)
    (now : string) : list TrendPoint :=
  lastN 9 prev
  ++ [ {| trendQuery := trendLabel q; trendScore := score; trendTimestamp := now |} ].

(** [response.ok]: a status in the range 200 to 299. *)
Definition ok (r : AnalyzeRoute.Response) : bool :=
  Nat.leb 200 (AnalyzeRoute.status r) && Nat.leb (AnalyzeRoute.status r) 299.

(** A string that is truthy: present and not empty. *)
Definition truthy (s : option string) : bool :=
  match s with
  | Some t => negb (String.eqb t "")
  | None => false
  end.

(** The history after [handleAnalyze] has received the response to [q]: a
    response that is not ok, or that reports a failure with an error text,
    ends in the catch and leaves the history alone; otherwise a response with
    an analysis appends its sentiment score. *)
Definition recordSentiment (prev : list TrendPoint) (q : string)
    (r : AnalyzeRoute.Response) (now : string) : list TrendPoint :=
  if negb (ok r) then prev
  else if negb (AnalyzeRoute.success r) && truthy (AnalyzeRoute.error r) then prev
  else
    match AnalyzeRoute.analysis r with
    | Some a => addTrendPoint prev q (sentimentScore a) now
    | None => prev
    end.

(** One answered query: the query, the response, the time of recording. *)
Definition Answered : Type := string * AnalyzeRoute.Response * string.

Definition recordAll (events : list Answered) : list TrendPoint :=
  fold_left (fun history e => recordSentiment history (fst (fst e)) (snd (fst e)) (snd e))
            events [].

End Dashboard.

(** ** The statements of the specification that the code is compared with *)

Module SpecWords.

(** The prefix condition in the words of the specification: the term has at
    least four characters, and the shorter of term and variation is a prefix
    of the longer one covering at least 80% of its length. *)
Definition spec_prefix_condition (term variation : string) : Prop :=
  4 <= String.length term /\
  if Nat.leb (String.length term) (String.length variation)
  then JsString.startsWith variation term = true /\
       4 * String.length variation <= 5 * String.length term
  else JsString.startsWith term variation = true /\
       4 * String.length term <= 5 * String.length variation.

(** The retrieval score of one article in the words of the specification:
    every occurrence of a term in headline + body counts 1, and every
    occurrence in the headline counts 1 more. *)
Definition spec_score (article : Article) (terms : list string) : nat :=
  RetrievalService.sum_nat
    (map (fun term =>
            RegExp.occurrences term (RetrievalService.searchText article) * 1
            + RegExp.occurrences term (JsString.toLowerCase (headline article)) * 1)
         terms).

End SpecWords.

(** ** Sample data for the worked instances *)

Module Sample.

Definition apple_results : Article :=
  mkArticle "art-1" "Apple rises on iPhone sales" "Apple reported strong revenue"
    "Bloomberg" "major_publication" ["AAPL"].

Definition apple_supplier : Article :=
  mkArticle "art-2" "Apple supplier gains" "Supplier of Apple rallies today"
    "Reuters" "major_publication" ["AAPL"].

Definition apple_fashion : Article :=
  mkArticle "art-3" "Apple watch fashion" "Luxury apple band"
    "@stylewatch" "social_media" ["AAPL"].

Definition apple_pay : Article :=
  mkArticle "art-4" "Apple pay grows" "Payments with apple grow"
    "Apple Investor Relations" "official" ["AAPL"].

Definition corpus : list Article :=
  [apple_results; apple_supplier; apple_fashion; apple_pay].

Definition request (q : string) (maxSources : option Q) : AnalyzeRoute.Request :=
  {| AnalyzeRoute.query := Some q; AnalyzeRoute.maxSources := maxSources;
     AnalyzeRoute.minCredibility := None; AnalyzeRoute.companiesFilter := None;
     AnalyzeRoute.useMock := None |}.

Definition clock : AnalyzeRoute.Clock :=
  {| AnalyzeRoute.startTime := 1000; AnalyzeRoute.nowMs := 1007;
     AnalyzeRoute.nowIso := "2024-01-01T00:00:00.007Z" |}.

Definition headline_only : Article :=
  mkArticle "art-5" "Tariff" "Markets were calm" "Reuters" "major_publication" [].

Definition body_only : Article :=
  mkArticle "art-6" "Markets were calm" "Tariff" "Reuters" "major_publication" [].

(** A small engine for the worked instances: it compiles the patterns made
    of plain characters and dots, where the dot matches every character but
    a line terminator. *)
Definition dot_pattern : string -> bool :=
  RegExp.all_chars (fun c => negb (RegExp.is_syntax_char c) || Ascii.eqb c ".").

Definition line_terminator (c : ascii) : bool :=
  (JsString.code c =? 10)%N || (JsString.code c =? 13)%N.

Fixpoint dot_matches_at (p text : string) : bool :=
  match p, text with
  | EmptyString, _ => true
  | String _ _, EmptyString => false
  | String a p', String b t' =>
      (if Ascii.eqb a "." then negb (line_terminator b) else RegExp.char_eq_ci a b)
      && dot_matches_at p' t'
  end.

Fixpoint dot_occurrences_from (p : string) (skip : nat) (text : string) : nat :=
  match text with
  | EmptyString => 0
  | String _ r =>
      match skip with
      | S k => dot_occurrences_from p k r
      | O =>
          if dot_matches_at p text
          then S (dot_occurrences_from p (String.length p - 1) r)
          else dot_occurrences_from p 0 r
      end
  end.

Definition dot_host : RegExp.Host :=
  {| RegExp.compiled := string;
     RegExp.compile := fun pattern =>
       if dot_pattern pattern then Js.Returns pattern
       else Js.Throws (Js.SyntaxError
                         ("Invalid regular expression: /" +:+ pattern +:+ "/gi"));
     RegExp.match_count := fun p text => dot_occurrences_from p 0 text |}.

End Sample.

(** * Properties *)

(** ** Credibility scorer *)

Module CredibilityFacts.
Import CredibilityService.

Lemma clamp_sum_range a b :
  exists q, clamp_sum (VNum a) (VNum b) = Js.Num q /\ (0.1 <= q)%Q /\ (q <= 1.0)%Q.
Proof.
  eexists; split; [reflexivity|]. split.
  - apply Q.min_glb; [discriminate | apply Q.le_max_l].
  - apply Q.le_min_l.
Qed.

Lemma get_or_own_only table key dflt :
  Js.inherited key = false -> exists q, get_or table key dflt = VNum q.
Proof.
  intros Hk. unfold get_or, Js.get.
  destruct (Js.own table key) as [q|].
  - destruct (Qeq_bool q 0); eauto.
  - rewrite Hk. eauto.
Qed.

(** A source type that is neither a key of the table nor an inherited name
    gets the [unknown] base score. *)
Lemma baseScore_unknown_fallback (a : Article) :
  Js.own CREDIBILITY_SCORES (sourceType a) = None ->
  Js.inherited (sourceType a) = false ->
  baseScore a = VNum 0.30.
Proof.
  intros Hown Hinh. unfold baseScore, get_or, Js.get. now rewrite Hown, Hinh.
Qed.

Lemma Qle_bool_false_lt x y : Qle_bool x y = false -> (y < x)%Q.
Proof.
  intros H. apply Qnot_le_lt. intros Hle.
  apply Qle_bool_iff in Hle. congruence.
Qed.

(** The tier is read off the score by the fixed thresholds. *)
Lemma tier_of_thresholds q :
  match tier_of (Js.Num q) with
  | HIGH => (0.90 <= q)%Q
  | MEDIUM => (0.70 <= q)%Q /\ (q < 0.90)%Q
  | LOW => (0.50 <= q)%Q /\ (q < 0.70)%Q
  | UNVERIFIED => (q < 0.50)%Q
  end.
Proof.
  unfold tier_of, Js.ge.
  destruct (Qle_bool 0.90 q) eqn:H1; [now apply Qle_bool_iff|].
  destruct (Qle_bool 0.70 q) eqn:H2;
    [split; [now apply Qle_bool_iff | now apply Qle_bool_false_lt]|].
  destruct (Qle_bool 0.50 q) eqn:H3;
    [split; [now apply Qle_bool_iff | now apply Qle_bool_false_lt]|].
  now apply Qle_bool_false_lt.
Qed.

(** Away from the inherited property names the scorer keeps its contract:
    a score in [0.1, 1.0] and the tier of that score. *)
Lemma assignCredibility_own_names (a : Article) :
  Js.inherited (sourceType a) = false ->
  Js.inherited (source a) = false ->
  exists c q,
    credibility (assignCredibility a) = Some c /\ score c = Js.Num q /\
    (0.1 <= q)%Q /\ (q <= 1.0)%Q /\ tier c = tier_of (Js.Num q).
Proof.
  intros Ht Hs.
  destruct (get_or_own_only CREDIBILITY_SCORES _ unknown_score Ht) as [b Hb].
  destruct (get_or_own_only SOURCE_ADJUSTMENTS _ 0%Q Hs) as [d Hd].
  destruct (clamp_sum_range b d) as (q & Hq & Hlo & Hhi).
  eexists; exists q. split; [reflexivity|]. cbn [score tier].
  unfold finalScore, baseScore, adjustment. rewrite Hb, Hd, Hq. auto.
Qed.

(** C5: the scorer on an article whose source type is the name of a member
    every object inherits, ["constructor"]: the table lookup finds that
    member instead of falling back to the unknown base score 0.30, the sum is
    no number, and the assigned score is NaN (tier UNVERIFIED), outside
    [0.1, 1.0]. *)
Theorem assignCredibility_inherited_source_type :
  let a := mkArticle "a1" "Quarterly results" "Revenue grew" "Bloomberg" "constructor" [] in
  Js.own CREDIBILITY_SCORES (sourceType a) = None /\
  baseScore a = VObject /\
  option_map score (credibility (assignCredibility a)) = Some Js.NaN /\
  option_map tier (credibility (assignCredibility a)) = Some UNVERIFIED /\
  (forall q, option_map score (credibility (assignCredibility a)) <> Some (Js.Num q)).
Proof.
  cbv zeta. repeat split; try reflexivity.
  intros q. vm_compute. discriminate.
Qed.

End CredibilityFacts.

(** ** Relevance guardrail *)

Module RelevanceFacts.
Import RelevanceService.

(** C9, as stated, fails: the term "applesauce" matches the variation
    "apple" (and so the entity apple) although "apple" covers only half of
    it. *)
Lemma prefixMatch_without_coverage :
  prefixMatch "applesauce" "apple" = true /\
  exactMatch ["applesauce"] "apple" = false /\
  phraseMatch "applesauce" "apple" = false /\
  matchedEntities (detectKnownEntities (extractQueryTerms "applesauce")) = ["apple"] /\
  ~ SpecWords.spec_prefix_condition "applesauce" "apple".
Proof.
  repeat split; try reflexivity.
  unfold SpecWords.spec_prefix_condition. cbn. lia.
Qed.

Lemma prefixMatch_iff (term variation : string) :
  prefixMatch term variation = true <->
  4 <= String.length term /\
  ((JsString.startsWith variation term = true /\
    4 * String.length variation <= 5 * String.length term) \/
   (JsString.startsWith term variation = true /\
    4 <= String.length variation)).
Proof.
  unfold prefixMatch, covers.
  destruct (Nat.ltb_spec (String.length term) 4) as [Hlt|Hge].
  - split; [discriminate | lia].
  - destruct (JsString.startsWith variation term) eqn:H1;
    destruct (Nat.leb_spec (4 * String.length variation) (5 * String.length term));
    destruct (JsString.startsWith term variation) eqn:H2;
    destruct (Nat.leb_spec 4 (String.length variation));
    cbn; split; intros; try discriminate; try tauto; try (split; [lia|]);
    try (intuition (congruence || lia)).
Qed.

(** C9, amended: a match of a variation that is neither the exact match nor
    the phrase match comes from a query term of at least four characters
    such that either the term is a prefix of the variation covering at least
    80% of the variation, or the variation has at least four characters and
    is a prefix of the term (with no coverage requirement); these two cases
    are all of the prefix match, and a term shorter than four characters
    never matches by prefix. *)
Theorem prefix_match_condition (queryTerms : list string) (queryText variation : string) :
  (variationMatches queryTerms queryText variation = true ->
   exactMatch queryTerms variation = false ->
   phraseMatch queryText variation = false ->
   exists term,
     In term queryTerms /\ 4 <= String.length term /\
     ((JsString.startsWith variation term = true /\
       4 * String.length variation <= 5 * String.length term) \/
      (JsString.startsWith term variation = true /\
       4 <= String.length variation))) /\
  (forall term,
     prefixMatch term variation = true <->
     4 <= String.length term /\
     ((JsString.startsWith variation term = true /\
       4 * String.length variation <= 5 * String.length term) \/
      (JsString.startsWith term variation = true /\
       4 <= String.length variation))) /\
  (forall term, String.length term < 4 -> prefixMatch term variation = false).
Proof.
  split; [|split].
  - unfold variationMatches. intros H Hexact Hphrase.
    rewrite Hexact, Hphrase in H. apply existsb_exists in H as (term & Hin & Hm).
    exists term. split; [exact Hin|]. now apply prefixMatch_iff.
  - intros term. apply prefixMatch_iff.
  - intros term Hlen. unfold prefixMatch.
    destruct (Nat.ltb_spec (String.length term) 4); [reflexivity | lia].
Qed.

Lemma prefix_match_condition_witness :
  exists term,
    In term ["applesauce"] /\ 4 <= String.length term /\
    ((JsString.startsWith "apple" term = true /\
      4 * String.length "apple" <= 5 * String.length term) \/
     (JsString.startsWith term "apple" = true /\ 4 <= String.length "apple")).
Proof.
  apply (proj1 (prefix_match_condition ["applesauce"] "applesauce" "apple"));
    reflexivity.
Defined.

(** C3: with no documents the guardrail answers "not relevant" with the
    reason "No documents retrieved" (the specification's "no documents
    retrieved" up to letter case) and scores no document; and when retrieval
    returns no document the handler answers with the no-content result, the
    summarizer not being called. *)
Theorem no_documents_short_circuit :
  (forall query : string,
     let r := evaluateRelevance query [] in
     isRelevant r = false /\
     reason r = "No documents retrieved" /\
     JsString.toLowerCase (reason r) = "no documents retrieved" /\
     docScores r = None /\ relevantDocCount r = 0) /\
  (forall host corpus clock req,
     AnalyzeRoute.invalidQuery (AnalyzeRoute.query req) = false ->
     (let o := AnalyzeRoute.options req in
      RetrievalService.retrieveRelevantContent host corpus
        (AnalyzeRoute.optQuery o) (AnalyzeRoute.maxResults o)
        (AnalyzeRoute.optCompanies o)) = Js.Returns [] ->
     let h := AnalyzeRoute.analyze host corpus clock req in
     h = AnalyzeRoute.Respond
           (AnalyzeRoute.noContent clock (AnalyzeRoute.optQuery (AnalyzeRoute.options req))) /\
     AnalyzeRoute.handedOver h = None /\
     (forall summarizer,
        AnalyzeRoute.analysis (AnalyzeRoute.run summarizer h) = None /\
        AnalyzeRoute.sources (AnalyzeRoute.run summarizer h) = Some [])).
Proof.
  split.
  - intros query. cbn. repeat split; reflexivity.
  - intros host corpus clock req Hvalid Hret h.
    assert (Hh : h = AnalyzeRoute.Respond
              (AnalyzeRoute.noContent clock
                 (AnalyzeRoute.optQuery (AnalyzeRoute.options req)))).
    { subst h. unfold AnalyzeRoute.analyze, AnalyzeRoute.stages.
      rewrite Hvalid. cbv zeta in Hret. now rewrite Hret. }
    rewrite Hh. repeat split; reflexivity.
Qed.

Lemma no_documents_short_circuit_witness :
  AnalyzeRoute.analyze RegExp.no_host Sample.corpus Sample.clock
    (Sample.request "zinc futures" None)
  = AnalyzeRoute.Respond (AnalyzeRoute.noContent Sample.clock "zinc futures").
Proof.
  apply (proj2 no_documents_short_circuit RegExp.no_host Sample.corpus
           Sample.clock (Sample.request "zinc futures" None));
    vm_compute; reflexivity.
Defined.

(** C2, as stated, fails: the query "apple fashion" names the known entity
    apple, and over the empty document set it is still "not relevant". *)
Lemma entity_match_with_no_documents :
  hasKnownEntity (detectKnownEntities (extractQueryTerms "apple fashion")) = true /\
  isRelevant (evaluateRelevance "apple fashion" []) = false.
Proof. split; reflexivity. Qed.

(** C2, amended: over a non-empty document set, a query whose terms match a
    known entity is relevant, whatever off-topic indicator words it also
    contains; the off-topic check is skipped (it reports no term) and the
    reason cites the matched entities. *)
Theorem entity_match_wins (query : string) (documents : list Article) :
  documents <> [] ->
  hasKnownEntity (detectKnownEntities (extractQueryTerms query)) = true ->
  let r := evaluateRelevance query documents in
  isRelevant r = true /\
  offTopicCheck r = {| isOffTopic := false; offTopicTerms := [] |} /\
  reason r = "Query matches known entities: "
             +:+ JsString.join ", " (matchedEntities (entityCheck r)).
Proof.
  intros Hdocs Hent. unfold evaluateRelevance.
  destruct documents as [|d ds]; [congruence|].
  cbv zeta. cbn [isRelevant offTopicCheck reason entityCheck].
  unfold detectOffTopicQuery. rewrite Hent. cbn [fst snd]. auto.
Qed.

Lemma entity_match_wins_witness :
  isRelevant (evaluateRelevance "apple fashion luxury" [Sample.apple_fashion]) = true /\
  isOffTopic
    (detectOffTopicQuery (extractQueryTerms "apple fashion luxury") false) = true.
Proof.
  split; [|reflexivity].
  apply (entity_match_wins "apple fashion luxury" [Sample.apple_fashion]);
    [discriminate | reflexivity].
Defined.

(** C4: when the guardrail's verdict on the final documents is "not
    relevant", the handler answers at once, without calling the summarizer:
    no sources, and the canned analysis of [generateNotRelevantResponse],
    with sentiment NEUTRAL, confidence RUMOR and the guardrail's reason as
    the explanation. *)
Theorem guardrail_rejection_response host corpus clock req st :
  AnalyzeRoute.stages host corpus req = AnalyzeRoute.Judged st ->
  isRelevant (AnalyzeRoute.relevanceResult st) = false ->
  exists r a,
    AnalyzeRoute.analyze host corpus clock req = AnalyzeRoute.Respond r /\
    (forall summarizer,
       AnalyzeRoute.run summarizer (AnalyzeRoute.analyze host corpus clock req) = r) /\
    AnalyzeRoute.handedOver (AnalyzeRoute.analyze host corpus clock req) = None /\
    AnalyzeRoute.sources r = Some [] /\
    AnalyzeRoute.analysis r = Some a /\
    Some a = resultAnalysis
               (generateNotRelevantResponse (AnalyzeRoute.nowIso clock)
                  (AnalyzeRoute.optQuery (AnalyzeRoute.options req))
                  (AnalyzeRoute.relevanceResult st)) /\
    sentiment a = "NEUTRAL" /\ sentimentScore a = 0%Q /\
    confidence a = "RUMOR" /\
    confidenceExplanation a = reason (AnalyzeRoute.relevanceResult st).
Proof.
  intros Hst Hrel. unfold AnalyzeRoute.analyze. rewrite Hst, Hrel. cbn.
  eexists. eexists.
  split; [reflexivity|]. split; [reflexivity|]. split; [reflexivity|].
  split; [reflexivity|]. split; [reflexivity|]. split; [reflexivity|].
  cbn. auto.
Qed.

Lemma guardrail_rejection_response_witness :
  exists st r,
    AnalyzeRoute.stages RegExp.no_host Sample.corpus
      (Sample.request "fashion luxury" None) = AnalyzeRoute.Judged st /\
    isRelevant (AnalyzeRoute.relevanceResult st) = false /\
    AnalyzeRoute.analyze RegExp.no_host Sample.corpus Sample.clock
      (Sample.request "fashion luxury" None) = AnalyzeRoute.Respond r /\
    AnalyzeRoute.sources r = Some [].
Proof.
  eexists.
  edestruct (guardrail_rejection_response RegExp.no_host Sample.corpus Sample.clock
               (Sample.request "fashion luxury" None))
    as (r & a & H & _ & _ & Hs & _);
    [vm_compute; reflexivity | reflexivity |].
  exists r. split; [vm_compute; reflexivity|].
  split; [reflexivity|]. split; [exact H | exact Hs].
Defined.

End RelevanceFacts.

(** ** Retriever *)

Module RetrievalFacts.
Import RetrievalService.

Lemma create_plain host (p : string) :
  RegExp.plain p = true -> RegExp.create host p = Js.Returns (RegExp.Literal p).
Proof. intros H. unfold RegExp.create. now rewrite H. Qed.

(** ["c++"]: the second [+] has nothing to repeat, whatever the engine. *)
Lemma create_nothing_to_repeat host :
  RegExp.create host "c++"
  = Js.Throws (Js.SyntaxError "Invalid regular expression: /c++/gi: Nothing to repeat").
Proof. reflexivity. Qed.

(** C10: on a non-empty corpus the query "c++ stocks", whose token "c++" is
    longer than two characters and holds the metacharacter [+], makes
    [retrieveRelevantContent] throw at the construction of the term's regular
    expression instead of returning a list. *)
Theorem retrieve_throws_on_metacharacter host (corpus : list Article)
    (maxResults : Z) (filter : list string) :
  corpus <> [] ->
  let query := "c++ stocks" in
  In "c++" (JsString.split_ws query) /\
  2 < String.length "c++" /\
  RegExp.is_syntax_char "+" = true /\
  expandedTerms query = Js.Returns ["c++"; "stocks"] /\
  retrieveRelevantContent host corpus query maxResults filter
  = Js.Throws (Js.SyntaxError "Invalid regular expression: /c++/gi: Nothing to repeat").
Proof.
  intros Hne query.
  assert (Hterms : expandedTerms query = Js.Returns ["c++"; "stocks"])
    by reflexivity.
  split; [left; reflexivity|]. split; [cbn; lia|]. split; [reflexivity|].
  split; [exact Hterms|].
  unfold retrieveRelevantContent. rewrite Hterms. cbn [Js.bind].
  destruct corpus as [|a rest]; [congruence|].
  cbn [Js.mapM]. unfold scoreArticle at 1, termsScore.
  cbn [Js.mapM]. unfold termScore at 1.
  rewrite create_nothing_to_repeat. reflexivity.
Qed.

Lemma retrieve_throws_on_metacharacter_witness :
  retrieveRelevantContent RegExp.no_host Sample.corpus "c++ stocks" 16 []
  = Js.Throws (Js.SyntaxError "Invalid regular expression: /c++/gi: Nothing to repeat").
Proof.
  apply (retrieve_throws_on_metacharacter RegExp.no_host Sample.corpus 16 []).
  discriminate.
Defined.

(** *** Terms that are literal patterns *)

Lemma append_nil (b : string) : "" +:+ b = b.
Proof. reflexivity. Qed.

Lemma append_cons (c : ascii) (a b : string) : String c a +:+ b = String c (a +:+ b).
Proof. reflexivity. Qed.

Lemma toLowerCase_app (a b : string) :
  JsString.toLowerCase (a +:+ b) = JsString.toLowerCase a +:+ JsString.toLowerCase b.
Proof.
  unfold JsString.toLowerCase.
  induction a as [|c a IH]; [reflexivity|].
  rewrite append_cons. cbn [JsString.map_chars]. now rewrite IH, append_cons.
Qed.

Lemma searchText_split (article : Article) :
  searchText article
  = JsString.toLowerCase (headline article) +:+ " "
    +:+ JsString.toLowerCase (content article).
Proof. unfold searchText. now rewrite !toLowerCase_app. Qed.

Lemma not_blank_ci (c : ascii) :
  Ascii.eqb c " " = false -> RegExp.char_eq_ci c " " = false.
Proof.
  destruct c as [[] [] [] [] [] [] [] []]; intros H;
    solve [reflexivity | discriminate H].
Qed.

Lemma matches_at_length (p text : string) :
  RegExp.matches_at p text = true -> String.length p <= String.length text.
Proof.
  revert text. induction p as [|a p IH]; intros [|b t]; cbn; try lia; try discriminate.
  intros H. apply andb_true_iff in H as [_ H]. apply IH in H. lia.
Qed.

(** A pattern without a blank cannot match across the blank that separates
    headline and body. *)
Lemma matches_at_before_blank (p h c : string) :
  no_blank p = true ->
  RegExp.matches_at p (h +:+ " " +:+ c) = RegExp.matches_at p h.
Proof.
  revert h. induction p as [|a p IH]; intros h Hp; [now destruct h|].
  cbn in Hp. apply andb_true_iff in Hp as [Ha Hp].
  apply negb_true_iff in Ha.
  destruct h as [|b h].
  - rewrite append_nil, append_cons. cbn. now rewrite (not_blank_ci a Ha).
  - rewrite append_cons. cbn. now rewrite (IH h Hp).
Qed.

Lemma occurrences_from_split (p : string) :
  p <> "" -> no_blank p = true ->
  forall (h c : string) (skip : nat),
    skip <= String.length h ->
    RegExp.occurrences_from p skip (h +:+ " " +:+ c)
    = RegExp.occurrences_from p skip h + RegExp.occurrences_from p 0 c.
Proof.
  intros Hne Hp h c. induction h as [|b h IH]; intros skip Hskip.
  - cbn in Hskip. replace skip with 0 by lia.
    rewrite append_nil, append_cons.
    destruct p as [|a p]; [congruence|].
    cbn in Hp. apply andb_true_iff in Hp as [Ha _]. apply negb_true_iff in Ha.
    cbn. now rewrite (not_blank_ci a Ha).
  - rewrite append_cons. destruct skip as [|k].
    + cbn [RegExp.occurrences_from].
      rewrite <- append_cons.
      rewrite (matches_at_before_blank p (String b h) c Hp).
      destruct (RegExp.matches_at p (String b h)) eqn:Hm.
      * apply matches_at_length in Hm. cbn in Hm.
        rewrite IH by lia. reflexivity.
      * apply IH. lia.
    + cbn in Hskip. cbn [RegExp.occurrences_from]. apply IH. lia.
Qed.

(** For a literal term, the matches in headline + " " + body are those in
    the headline plus those in the body. *)
Lemma occurrences_searchText (article : Article) (t : string) :
  t <> "" -> no_blank t = true ->
  RegExp.occurrences t (searchText article)
  = RegExp.occurrences t (JsString.toLowerCase (headline article))
    + RegExp.occurrences t (JsString.toLowerCase (content article)).
Proof.
  intros Hne Hb. rewrite searchText_split.
  destruct t as [|a t]; [congruence|].
  unfold RegExp.occurrences. apply occurrences_from_split; [exact Hne | exact Hb | lia].
Qed.

Lemma split_ws_pieces (s : string) :
  Forall (fun w => RegExp.all_chars (fun c => negb (JsString.is_space c)) w = true)
         (JsString.split_ws s).
Proof.
  induction s as [|c s IH]; cbn.
  - repeat constructor.
  - destruct (JsString.is_space c) eqn:Hc.
    + destruct (JsString.starts_with_space s); [exact IH | now constructor].
    + destruct (JsString.split_ws s) as [|w ws].
      * repeat constructor. cbn. now rewrite Hc.
      * inversion IH as [|? ? Hw Hws]; subst. constructor; [|exact Hws].
        cbn. now rewrite Hc, Hw.
Qed.

Lemma no_space_no_blank (w : string) :
  RegExp.all_chars (fun c => negb (JsString.is_space c)) w = true -> no_blank w = true.
Proof.
  unfold no_blank. induction w as [|c w IH]; cbn; [reflexivity|].
  intros H. apply andb_true_iff in H as [Hc Hw]. rewrite (IH Hw), andb_true_r.
  destruct (Ascii.eqb_spec c " ") as [->|]; [discriminate Hc | reflexivity].
Qed.

Lemma queryTerms_blank_free (query : string) :
  Forall blank_free (queryTerms query).
Proof.
  unfold queryTerms.
  pose proof (split_ws_pieces (JsString.toLowerCase query)) as H.
  induction H as [|w ws Hw _ IH]; cbn [List.filter]; [constructor|].
  destruct (Nat.ltb_spec 2 (String.length w)) as [Hlen|]; [|exact IH].
  constructor; [|exact IH]. split; [now apply no_space_no_blank|].
  intros ->. cbn in Hlen. lia.
Qed.

(** Every ticker of the alias table is, lower-cased, free of blanks. *)
Lemma tickers_blank_free :
  forallb (fun entry => no_blank (JsString.toLowerCase (snd entry))
                        && negb (String.eqb (JsString.toLowerCase (snd entry)) ""))
          companyAliases = true.
Proof. vm_compute. reflexivity. Qed.

Lemma own_in {V} (obj : list (string * V)) key v :
  Js.own obj key = Some v -> In (key, v) obj.
Proof.
  induction obj as [|[k w] obj IH]; cbn; [discriminate|].
  destruct (String.eqb_spec k key) as [->|].
  - intros [= ->]. now left.
  - intros H. right. auto.
Qed.

Lemma ticker_blank_free (term ticker : string) :
  Js.own companyAliases term = Some ticker ->
  blank_free (JsString.toLowerCase ticker).
Proof.
  intros Hown. pose proof tickers_blank_free as Hall.
  rewrite forallb_forall in Hall.
  specialize (Hall _ (own_in _ _ _ Hown)). cbn [snd] in Hall.
  apply andb_true_iff in Hall as [Hb Hne]. split; [exact Hb|].
  apply negb_true_iff in Hne. now apply String.eqb_neq in Hne.
Qed.

Lemma expandTerm_blank_free (term : string) (ts : list string) :
  blank_free term -> expandTerm term = Js.Returns ts -> Forall blank_free ts.
Proof.
  intros Hterm. unfold expandTerm, Js.get.
  destruct (Js.own companyAliases term) as [ticker|] eqn:Hown.
  - destruct (String.eqb ticker ""); intros [= <-].
    + constructor; [exact Hterm | constructor].
    + constructor; [exact Hterm|].
      constructor; [exact (ticker_blank_free term ticker Hown) | constructor].
  - destruct (Js.inherited term); [discriminate|].
    intros [= <-]. constructor; [exact Hterm | constructor].
Qed.

Lemma expandedTerms_blank_free (query : string) (terms : list string) :
  expandedTerms query = Js.Returns terms -> Forall blank_free terms.
Proof.
  unfold expandedTerms. pose proof (queryTerms_blank_free query) as H.
  revert terms. induction H as [|t ts Ht _ IH]; cbn; intros terms.
  - intros [= <-]. constructor.
  - destruct (expandTerm t) as [l|] eqn:Hl; cbn; [|discriminate].
    destruct (Js.mapM expandTerm ts) as [ls|]; cbn; [|discriminate].
    intros [= <-]. cbn. apply Forall_app. split.
    + exact (expandTerm_blank_free t l Ht Hl).
    + apply IH. reflexivity.
Qed.

(** What one literal term adds: every headline match three times, every body
    match once. *)
Lemma termScore_literal host (article : Article) (t : string) :
  RegExp.plain t = true -> blank_free t ->
  termScore host article t
  = Js.Returns
      (3 * RegExp.occurrences t (JsString.toLowerCase (headline article))
       + RegExp.occurrences t (JsString.toLowerCase (content article))).
Proof.
  intros Hplain [Hb Hne]. unfold termScore.
  rewrite (create_plain host t Hplain). cbn [Js.bind RegExp.count].
  rewrite (occurrences_searchText article t Hne Hb).
  destruct (Nat.eqb_spec
              (RegExp.occurrences t (JsString.toLowerCase (headline article))
               + RegExp.occurrences t (JsString.toLowerCase (content article))) 0)
    as [H0|_]; f_equal; lia.
Qed.

(** C8, as stated, fails: for the term "tariff" an article with the one
    occurrence in its headline scores 3 and an article with the one
    occurrence in its body scores 1, where the specification's count gives 2
    and 1. *)
Lemma headline_weight_is_three :
  (fun r => match r with
            | Js.Returns l => Some (map relevance l)
            | Js.Throws _ => None
            end)
    (retrieveRelevantContent RegExp.no_host [Sample.headline_only; Sample.body_only]
       "tariff" 16 []) = Some [3; 1]
  /\ SpecWords.spec_score Sample.headline_only ["tariff"] = 2
  /\ SpecWords.spec_score Sample.body_only ["tariff"] = 1
  /\ termsScore RegExp.no_host Sample.headline_only ["tariff"]
     <> Js.Returns (SpecWords.spec_score Sample.headline_only ["tariff"]).
Proof.
  split; [vm_compute; reflexivity|]. split; [vm_compute; reflexivity|].
  split; [vm_compute; reflexivity|]. vm_compute. discriminate.
Qed.

(** Summing the scores of all terms is summing the known scores of the
    terms picked out by [p] and what [f] gives for the others; it fails where
    [f] first fails on one of the others. *)
Lemma mapM_sum_split {A} (f : A -> Js.outcome nat) (p : A -> bool) (w : A -> nat)
    (l : list A) :
  (forall x, In x l -> p x = true -> f x = Js.Returns (w x)) ->
  Js.bind (Js.mapM f l) (fun scores => Js.Returns (sum_nat scores))
  = Js.bind (Js.mapM f (List.filter (fun x => negb (p x)) l))
      (fun others =>
         Js.Returns (sum_nat (map w (List.filter p l)) + sum_nat others)).
Proof.
  induction l as [|x l IH]; intros Hp; [reflexivity|].
  assert (IH' := IH (fun y Hy => Hp y (or_intror Hy))). clear IH.
  cbn [List.filter Js.mapM]. destruct (p x) eqn:Hx; cbn [negb].
  - rewrite (Hp x (or_introl eq_refl) Hx). cbn [Js.bind map].
    destruct (Js.mapM f l) as [ys|e], (Js.mapM f (List.filter _ l)) as [os|e'];
      cbn [Js.bind] in IH' |- *; try congruence.
    injection IH' as IH'. unfold sum_nat in *. cbn [foldr]. f_equal. lia.
  - cbn [Js.mapM]. destruct (f x) as [y|e]; cbn [Js.bind]; [|reflexivity].
    destruct (Js.mapM f l) as [ys|e], (Js.mapM f (List.filter _ l)) as [os|e'];
      cbn [Js.bind] in IH' |- *; try congruence.
    injection IH' as IH'. unfold sum_nat in *. cbn [foldr]. f_equal. lia.
Qed.

(** C8, amended: for every article, engine and query (whose terms expand:
    the expansion throws only for a token that names an inherited member,
    and then nothing is scored), a term whose pattern compiles adds to the
    article's score, before the company filter, the matches of the pattern
    in headline + body with weight 1 and its matches in the headline with
    the additional weight 2 (nothing when headline + body has no match).
    For an expanded term that is a literal pattern (no regular-expression
    syntax character) this is three times its occurrences in the headline
    plus once its occurrences in the body: a headline occurrence weighs three
    times a body occurrence.  The score of the article is the sum of these
    weights over the literal terms plus what the other terms add, and scoring
    throws exactly where one of the other terms does; with literal terms only
    it is the sum of the weights. *)
Theorem termsScore_literal_terms host (article : Article) (query : string)
    (terms : list string) :
  expandedTerms query = Js.Returns terms ->
  let weight t :=
    3 * RegExp.occurrences t (JsString.toLowerCase (headline article))
    + RegExp.occurrences t (JsString.toLowerCase (content article)) in
  let literal := List.filter RegExp.plain terms in
  let others := List.filter (fun t => negb (RegExp.plain t)) terms in
  (forall t regex,
     RegExp.create host t = Js.Returns regex ->
     termScore host article t
     = Js.Returns
         (let matches := RegExp.count regex (searchText article) in
          let headlineMatches :=
            RegExp.count regex (JsString.toLowerCase (headline article)) in
          if Nat.eqb matches 0 then 0 else matches * 1 + headlineMatches * 2)) /\
  (forall t, In t literal -> termScore host article t = Js.Returns (weight t)) /\
  termsScore host article terms
  = Js.bind (Js.mapM (termScore host article) others) (fun scores =>
      Js.Returns (sum_nat (map weight literal) + sum_nat scores)) /\
  (others = [] ->
   termsScore host article terms = Js.Returns (sum_nat (map weight terms))).
Proof.
  intros Hterms weight literal others.
  apply expandedTerms_blank_free in Hterms.
  rewrite List.Forall_forall in Hterms.
  assert (Hlit : forall t, In t terms -> RegExp.plain t = true ->
                   termScore host article t = Js.Returns (weight t)).
  { intros t Hin Hp. exact (termScore_literal host article t Hp (Hterms t Hin)). }
  assert (Hsplit : termsScore host article terms
                   = Js.bind (Js.mapM (termScore host article) others) (fun scores =>
                       Js.Returns (sum_nat (map weight literal) + sum_nat scores))).
  { unfold termsScore. exact (mapM_sum_split _ RegExp.plain weight terms Hlit). }
  split; [|split; [|split]].
  - intros t regex Hre. unfold termScore. rewrite Hre. cbn [Js.bind].
    now destruct (Nat.eqb _ 0).
  - intros t Ht. apply filter_In in Ht as [Hin Hp]. exact (Hlit t Hin Hp).
  - exact Hsplit.
  - intros Hnone. rewrite Hsplit, Hnone. cbn [Js.mapM Js.bind]. f_equal.
    unfold sum_nat at 2. cbn [foldr]. rewrite Nat.add_0_r. f_equal. f_equal.
    subst literal others. clear -Hnone.
    induction terms as [|t ts IH]; [reflexivity|].
    cbn [List.filter] in Hnone |- *. destruct (RegExp.plain t); cbn [negb] in Hnone.
    + f_equal. exact (IH Hnone).
    + discriminate Hnone.
Qed.

(** The query "Tariff ma.kets" against the article with "Tariff" as headline
    and "Markets were calm" as body: the literal term adds 3 for its headline
    occurrence, the pattern with the dot adds 1 for its match in the body. *)
Lemma termsScore_literal_terms_witness :
  expandedTerms "Tariff ma.kets" = Js.Returns ["tariff"; "ma.kets"] /\
  termsScore Sample.dot_host Sample.headline_only ["tariff"; "ma.kets"]
  = Js.Returns (3 * 1 + 0 + 1).
Proof.
  split; [reflexivity|].
  exact (proj1 (proj2 (proj2
           (termsScore_literal_terms Sample.dot_host Sample.headline_only
              "Tariff ma.kets" ["tariff"; "ma.kets"] eq_refl)))).
Defined.

End RetrievalFacts.

(** ** Stable sorting *)

Module SortingFacts.
Import Sorting.

Section Stable.
Context {A : Type} (leb : A -> A -> bool).

Local Abbreviation before := (Sorting.before leb).

Lemma insert_desc_Forall (P : A -> Prop) x l :
  P x -> Forall P l -> Forall P (insert_desc leb x l).
Proof.
  intros Hx Hl. induction Hl as [|y r Hy Hr IH]; cbn.
  - repeat constructor. exact Hx.
  - destruct (leb y x); repeat constructor; assumption.
Qed.

Lemma sort_desc_Forall (P : A -> Prop) l :
  Forall P l -> Forall P (sort_desc leb l).
Proof.
  induction 1 as [|x l Hx Hl IH]; cbn; [constructor|].
  now apply insert_desc_Forall.
Qed.

Lemma insert_desc_length x l : length (insert_desc leb x l) = S (length l).
Proof.
  induction l as [|y r IH]; cbn; [reflexivity|].
  destruct (leb y x); cbn; [reflexivity | now rewrite IH].
Qed.

Lemma sort_desc_cons x l :
  sort_desc leb (x :: l) = insert_desc leb x (sort_desc leb l).
Proof. reflexivity. Qed.

Lemma sort_desc_length l : length (sort_desc leb l) = length l.
Proof.
  induction l as [|x l IH]; [reflexivity|].
  now rewrite sort_desc_cons, insert_desc_length, IH.
Qed.

(** A symmetric relation that holds between any two positions still does
    after sorting. *)
Lemma insert_desc_pairs (R : A -> A -> Prop) x l :
  (forall a b, R a b -> R b a) ->
  Forall (R x) l -> ForallOrdPairs R l -> ForallOrdPairs R (insert_desc leb x l).
Proof.
  intros Hsym Hx Hl. induction Hl as [|y r Hy Hr IH]; cbn.
  - repeat constructor.
  - inversion Hx as [|? ? Hxy Hxr]; subst.
    destruct (leb y x).
    + constructor; [assumption | now constructor].
    + constructor; [|now apply IH].
      apply insert_desc_Forall; [now apply Hsym | assumption].
Qed.

Lemma sort_desc_pairs (R : A -> A -> Prop) l :
  (forall a b, R a b -> R b a) ->
  ForallOrdPairs R l -> ForallOrdPairs R (sort_desc leb l).
Proof.
  intros Hsym. induction 1 as [|x l Hx Hl IH]; cbn; [constructor|].
  apply insert_desc_pairs; [assumption | now apply sort_desc_Forall | assumption].
Qed.

Hypothesis leb_total : forall x y, leb x y = false -> leb y x = true.
Hypothesis leb_trans : forall x y z, leb x y = true -> leb y z = true -> leb x z = true.

Lemma insert_desc_sorted x l :
  StronglySorted before l -> StronglySorted before (insert_desc leb x l).
Proof.
  induction 1 as [|y r Hr IH Hy]; cbn.
  - repeat constructor.
  - destruct (leb y x) eqn:Hyx.
    + constructor; [now constructor|].
      constructor; [exact Hyx|].
      eapply List.Forall_impl; [|exact Hy]. intros z Hz. unfold Sorting.before in *.
      eapply leb_trans; eassumption.
    + constructor; [exact IH|].
      apply insert_desc_Forall; [|exact Hy].
      unfold Sorting.before. now apply leb_total.
Qed.

Lemma sort_desc_sorted l : StronglySorted before (sort_desc leb l).
Proof.
  induction l as [|x l IH]; cbn; [constructor | now apply insert_desc_sorted].
Qed.

(** Sorting a list that is already in descending order changes nothing. *)
Lemma sort_desc_sorted_id l : StronglySorted before l -> sort_desc leb l = l.
Proof.
  induction 1 as [|x l Hl IH Hx]; [reflexivity|].
  rewrite sort_desc_cons, IH. destruct Hx as [|y r Hy _]; cbn; [reflexivity|].
  unfold Sorting.before in Hy. now rewrite Hy.
Qed.

(** A sorted concatenation, taken apart. *)
Lemma sorted_app_iff l1 l2 :
  StronglySorted before (l1 ++ l2) <->
  StronglySorted before l1 /\ StronglySorted before l2 /\
  Forall (fun x => Forall (before x) l2) l1.
Proof.
  induction l1 as [|x l1 IH]; cbn.
  - split; [intros H; repeat split; [constructor | exact H | constructor] | tauto].
  - split.
    + intros H. inversion H as [|? ? Hs Hx]; subst.
      apply IH in Hs as (H1 & H2 & H12).
      apply Forall_app in Hx as [Hx1 Hx2].
      repeat split; [now constructor | exact H2 | now constructor].
    + intros (H1 & H2 & H12).
      inversion H1 as [|? ? Hs Hx]; subst.
      inversion H12 as [|? ? Hx2 H12']; subst.
      constructor; [apply IH; tauto | apply Forall_app; tauto].
Qed.

End Stable.

End SortingFacts.

(** ** Deduplicator *)

Module DeduplicationFacts.
Import DeduplicationService.

Lemma jaccardSimilarity_comm (a b : string) :
  jaccardSimilarity a b = jaccardSimilarity b a.
Proof.
  unfold jaccardSimilarity. cbv zeta.
  now rewrite (comm_L (∩) (words a) (words b)), (comm_L (∪) (words a) (words b)).
Qed.

Lemma ratio_self (n : nat) : (ratio n n == if Nat.eqb n 0 then 0 else 1)%Q.
Proof.
  unfold ratio. destruct n as [|n]; cbn [Nat.eqb]; [reflexivity|].
  unfold Qeq. cbn [Qnum Qden]. lia.
Qed.

Lemma jaccardSimilarity_self (a : string) :
  (jaccardSimilarity a a == if Nat.eqb (size (words a)) 0 then 0 else 1)%Q.
Proof.
  unfold jaccardSimilarity. cbv zeta.
  rewrite (idemp_L (∩) (words a)), (idemp_L (∪) (words a)). apply ratio_self.
Qed.

(** C6, as stated, fails: a text without a word longer than two characters
    has similarity 0 with itself. *)
Lemma jaccardSimilarity_self_zero :
  words "It is so" = ∅ /\
  jaccardSimilarity "It is so" "It is so" = 0%Q /\
  ~ (jaccardSimilarity "It is so" "It is so" == 1)%Q.
Proof.
  split; [vm_compute; reflexivity|].
  split; [vm_compute; reflexivity|].
  vm_compute. discriminate.
Qed.

(** C6, amended: the similarity is symmetric, and the similarity of a text
    with itself is 1.0 when the text has at least one word longer than two
    characters and 0 when it has none. *)
Theorem jaccardSimilarity_symmetric_self (a b : string) :
  jaccardSimilarity a b = jaccardSimilarity b a /\
  (jaccardSimilarity a a == if decide (words a = ∅) then 0 else 1)%Q.
Proof.
  split; [apply jaccardSimilarity_comm|].
  rewrite jaccardSimilarity_self.
  destruct (decide (words a = ∅)) as [->|Hne]; [reflexivity|].
  destruct (Nat.eqb_spec (size (words a)) 0) as [H0|_]; [|reflexivity].
  apply size_empty_inv in H0. apply leibniz_equiv in H0. contradiction.
Qed.

(** *** The loop over the sorted articles *)

Lemma mark_id (x : Article) :
  deduplication x = Some StatusUnique -> with_deduplication x StatusUnique = x.
Proof. destruct x; cbn; intros ->; reflexivity. Qed.

Lemma fold_fresh (t : Q) (l u d : list Article) :
  fresh t u l ->
  fold_left (step t) l {| unique := u; duplicates := d |}
  = {| unique := u ++ l; duplicates := d |}.
Proof.
  revert u. induction l as [|x l IH]; intros u; cbn [fresh fold_left].
  - now rewrite app_nil_r.
  - intros (Hx & Hmark & Hrest). unfold step at 2. cbn [unique duplicates].
    rewrite Hx, (mark_id x Hmark), (IH _ Hrest), <- app_assoc. reflexivity.
Qed.

Lemma fresh_snoc (t : Q) (l p : list Article) (x : Article) :
  fresh t p l -> existsb (similar t x) (p ++ l) = false ->
  deduplication x = Some StatusUnique -> fresh t p (l ++ [x]).
Proof.
  revert p. induction l as [|y l IH]; intros p; cbn [fresh app].
  - rewrite app_nil_r. auto.
  - intros (Hy & Hmark & Hrest) Hx Hd. repeat split; [assumption..|].
    apply IH; [assumption | | assumption].
    now rewrite <- app_assoc.
Qed.

Lemma fold_step_fresh (t : Q) (l : list Article) (acc : Outcome) :
  fresh t [] (unique acc) -> fresh t [] (unique (fold_left (step t) l acc)).
Proof.
  revert acc. induction l as [|x l IH]; intros acc Hacc; [exact Hacc|].
  cbn [fold_left]. apply IH. unfold step.
  destruct (existsb (similar t x) (unique acc)) eqn:Hx; cbn [unique]; [exact Hacc|].
  apply fresh_snoc; [exact Hacc | exact Hx | reflexivity].
Qed.

Lemma fresh_not_similar_to_kept (t : Q) (l p : list Article) :
  fresh t p l -> Forall (fun b => existsb (similar t b) p = false) l.
Proof.
  revert p. induction l as [|x l IH]; intros p; cbn [fresh]; [constructor|].
  intros (Hx & _ & Hrest). constructor; [exact Hx|].
  eapply List.Forall_impl; [|exact (IH _ Hrest)].
  cbn beta. intros b Hb. rewrite existsb_app in Hb.
  now apply orb_false_iff in Hb as [Hb _].
Qed.

Lemma similar_comm (t : Q) (a b : Article) : similar t a b = similar t b a.
Proof. unfold similar. now rewrite jaccardSimilarity_comm. Qed.

Lemma not_similar_distinct (t : Q) (a b : Article) :
  similar t a b = false -> distinct t a b.
Proof.
  unfold similar, distinct. intros H. apply Qnot_le_lt. intros Hle.
  apply Qle_bool_iff in Hle. congruence.
Qed.

Lemma distinct_sym (t : Q) (a b : Article) : distinct t a b -> distinct t b a.
Proof. unfold distinct. now rewrite jaccardSimilarity_comm. Qed.

(** No two members of a fresh list are near-duplicates. *)
Lemma fresh_pairwise_distinct (t : Q) (l p : list Article) :
  fresh t p l -> ForallOrdPairs (distinct t) l.
Proof.
  revert p. induction l as [|x l IH]; intros p; cbn [fresh]; [constructor|].
  intros (_ & _ & Hrest). constructor; [|exact (IH _ Hrest)].
  eapply List.Forall_impl; [|exact (fresh_not_similar_to_kept _ _ _ Hrest)].
  cbn beta. intros b Hb. rewrite existsb_app in Hb.
  apply orb_false_iff in Hb as [_ Hb]. cbn in Hb. rewrite orb_false_r in Hb.
  apply distinct_sym. now apply not_similar_distinct.
Qed.

(** A property of articles that the deduplication mark does not touch is
    passed on from the input to the kept articles. *)
Lemma fold_step_Forall (P : Article -> Prop) (t : Q) (l : list Article) (acc : Outcome) :
  (forall a d, P a -> P (with_deduplication a d)) ->
  Forall P (unique acc) -> Forall P l ->
  Forall P (unique (fold_left (step t) l acc)).
Proof.
  intros Hmark. revert acc. induction l as [|x l IH]; intros acc Hacc Hl; [exact Hacc|].
  inversion Hl as [|? ? Hx Hl']; subst.
  cbn [fold_left]. apply IH; [|exact Hl']. unfold step.
  destruct (existsb (similar t x) (unique acc)); cbn [unique]; [exact Hacc|].
  apply Forall_app. split; [exact Hacc|]. repeat constructor. now apply Hmark.
Qed.

Lemma cred_leb_total (a b : Article) :
  Sorting.cred_leb a b = false -> Sorting.cred_leb b a = true.
Proof.
  unfold Sorting.cred_leb. intros H. apply Qle_bool_iff, Qlt_le_weak, Qnot_le_lt.
  intros Hle. apply Qle_bool_iff in Hle. congruence.
Qed.

Lemma cred_leb_trans (a b c : Article) :
  Sorting.cred_leb a b = true -> Sorting.cred_leb b c = true ->
  Sorting.cred_leb a c = true.
Proof.
  unfold Sorting.cred_leb. rewrite !Qle_bool_iff. apply Qle_trans.
Qed.

Abbreviation by_credibility := (Sorting.before Sorting.cred_leb).

(** The kept articles stay in descending order of credibility. *)
Lemma fold_step_sorted (t : Q) (l : list Article) (acc : Outcome) :
  StronglySorted by_credibility (unique acc ++ l) ->
  StronglySorted by_credibility (unique (fold_left (step t) l acc)).
Proof.
  revert acc. induction l as [|x l IH]; intros acc H.
  - now rewrite app_nil_r in H.
  - cbn [fold_left]. apply IH.
    apply SortingFacts.sorted_app_iff in H as (Hu & Hxl & Hcross).
    inversion Hxl as [|? ? Hl Hx]; subst.
    unfold step. destruct (existsb (similar t x) (unique acc)); cbn [unique].
    + apply SortingFacts.sorted_app_iff. repeat split; [exact Hu | exact Hl |].
      eapply List.Forall_impl; [|exact Hcross].
      cbn beta. intros y Hy. now inversion Hy.
    + apply SortingFacts.sorted_app_iff. repeat split; [|exact Hl|].
      * apply SortingFacts.sorted_app_iff. repeat split; [exact Hu | repeat constructor |].
        eapply List.Forall_impl; [|exact Hcross].
        cbn beta. intros y Hy. inversion Hy as [|? ? Hyx _]; subst.
        repeat constructor. exact Hyx.
      * apply Forall_app. split.
        -- eapply List.Forall_impl; [|exact Hcross].
           cbn beta. intros y Hy. now inversion Hy.
        -- repeat constructor. exact Hx.
Qed.

Lemma deduplicateArticles_unique_fresh (articles : list Article) (t : Q) :
  fresh t [] (unique (deduplicateArticles articles t)).
Proof.
  unfold deduplicateArticles. destruct articles as [|a l]; [exact I|].
  apply fold_step_fresh. exact I.
Qed.

Lemma deduplicateArticles_unique_sorted (articles : list Article) (t : Q) :
  StronglySorted by_credibility (unique (deduplicateArticles articles t)).
Proof.
  unfold deduplicateArticles. destruct articles as [|a l]; [constructor|].
  apply fold_step_sorted. cbn [unique app].
  apply SortingFacts.sort_desc_sorted; [exact cred_leb_total | exact cred_leb_trans].
Qed.

Lemma deduplicateArticles_unique_Forall (P : Article -> Prop)
    (articles : list Article) (t : Q) :
  (forall a d, P a -> P (with_deduplication a d)) ->
  Forall P articles -> Forall P (unique (deduplicateArticles articles t)).
Proof.
  intros Hmark Hall. unfold deduplicateArticles.
  destruct articles as [|a l]; [constructor|].
  apply fold_step_Forall; [exact Hmark | constructor |].
  now apply SortingFacts.sort_desc_Forall.
Qed.

(** C7: running the deduplicator on the [unique] output of a run returns
    that list unchanged and no duplicate, for every input and threshold. *)
Theorem deduplicateArticles_idempotent (articles : list Article) (threshold : Q) :
  deduplicateArticles (unique (deduplicateArticles articles threshold)) threshold
  = {| unique := unique (deduplicateArticles articles threshold);
       duplicates := [] |}.
Proof.
  pose proof (deduplicateArticles_unique_fresh articles threshold) as Hfresh.
  pose proof (deduplicateArticles_unique_sorted articles threshold) as Hsorted.
  destruct (unique (deduplicateArticles articles threshold)) as [|u us] eqn:Hu;
    [reflexivity|].
  unfold deduplicateArticles at 1. rewrite <- Hu in *.
  destruct (unique (deduplicateArticles articles threshold)) as [|v vs] eqn:Hv;
    [discriminate Hu|].
  unfold Sorting.sortByCredibility.
  rewrite (SortingFacts.sort_desc_sorted_id _ _ Hsorted).
  now rewrite (fold_fresh threshold _ [] [] Hfresh).
Qed.

End DeduplicationFacts.

(** ** Pipeline orchestrator *)

Module PipelineFacts.
Import AnalyzeRoute.

(** Dropping the fraction of a number that is not negative rounds down. *)
Lemma toInteger_nonneg (x : Q) :
  (0 <= x)%Q -> (0 <= Js.toInteger x)%Z /\ (inject_Z (Js.toInteger x) <= x)%Q.
Proof.
  destruct x as [a b]. unfold Qle, Js.toInteger. cbn [Qnum Qden inject_Z].
  intros Ha. assert (Ha' : (0 <= a)%Z) by lia. split.
  - apply Z.quot_pos; lia.
  - assert (Hb : Z.pos b <> 0%Z) by lia.
    pose proof (Z.mul_quot_le a (Z.pos b) Ha' Hb). lia.
Qed.

Lemma toInteger_lower (x : Q) (n : Z) :
  (0 <= n)%Z -> (inject_Z n <= x)%Q -> (n <= Js.toInteger x)%Z.
Proof.
  destruct x as [a b]. unfold Qle, Js.toInteger. cbn [Qnum Qden inject_Z].
  intros Hn Hx. rewrite Z.quot_div_nonneg by lia.
  apply Z.div_le_lower_bound; lia.
Qed.

Lemma toInteger_below_one (x : Q) :
  (0 <= x)%Q -> (x < 1)%Q -> Js.toInteger x = 0%Z.
Proof.
  destruct x as [a b]. unfold Qle, Qlt, Js.toInteger. cbn [Qnum Qden].
  intros Ha Hb. apply Z.quot_small. lia.
Qed.

Lemma slice0_nonneg {A} (l : list A) (n : Z) :
  (0 <= n)%Z -> Js.slice0 l n = firstn (Z.to_nat n) l.
Proof.
  intros Hn. unfold Js.slice0.
  destruct (Z.ltb_spec n 0) as [Hlt|_]; [lia | reflexivity].
Qed.

Lemma firstn_Forall {A} (P : A -> Prop) (k : nat) (l : list A) :
  Forall P l -> Forall P (firstn k l).
Proof.
  intros H. revert k. induction H as [|x l Hx Hl IH]; intros [|k]; cbn;
    constructor; auto.
Qed.

Lemma firstn_pairs {A} (R : A -> A -> Prop) (k : nat) (l : list A) :
  ForallOrdPairs R l -> ForallOrdPairs R (firstn k l).
Proof.
  intros H. revert k. induction H as [|x l Hx Hl IH]; intros [|k]; cbn;
    try constructor; auto using firstn_Forall.
Qed.

(** A prefix or a cut-off tail: whatever [slice(0, n)] takes, it takes from
    the front. *)
Lemma slice0_Forall {A} (P : A -> Prop) (l : list A) (n : Z) :
  Forall P l -> Forall P (Js.slice0 l n).
Proof. intros H. unfold Js.slice0. destruct (n <? 0)%Z; now apply firstn_Forall. Qed.

Lemma slice0_pairs {A} (R : A -> A -> Prop) (l : list A) (n : Z) :
  ForallOrdPairs R l -> ForallOrdPairs R (Js.slice0 l n).
Proof. intros H. unfold Js.slice0. destruct (n <? 0)%Z; now apply firstn_pairs. Qed.

Lemma passes_credible (minScore : Q) (a : Article) :
  CredibilityService.passes minScore a = true -> credible minScore a.
Proof.
  unfold CredibilityService.passes, credible, Js.ge.
  destruct (credibility a) as [c|]; [|discriminate].
  destruct (score c) as [|q] eqn:Hq; [discriminate|].
  intros H. exists c, q. repeat split; [exact Hq | now apply Qle_bool_iff].
Qed.

Lemma filterByCredibility_credible (articles : list Article) (minScore : Q) :
  Forall (credible minScore) (CredibilityService.filterByCredibility articles minScore).
Proof.
  unfold CredibilityService.filterByCredibility. apply List.Forall_forall.
  intros a Ha. apply filter_In in Ha as [_ Ha]. now apply passes_credible.
Qed.

(** What the final documents of a judged request are made of. *)
Lemma stages_final host corpus req st :
  stages host corpus req = Judged st ->
  exists retrieved,
    finalDocs st
    = finalSources
        (DeduplicationService.unique
           (DeduplicationService.deduplicateArticles
              (CredibilityService.filterByCredibility retrieved
                 (optMinCredibility (options req)))
              DeduplicationService.default_threshold))
        (sourceCap (options req)).
Proof.
  unfold stages. destruct (invalidQuery (query req)); [discriminate|].
  cbv zeta.
  destruct (RetrievalService.retrieveRelevantContent _ _ _ _ _) as [[|r rs]|];
    try discriminate.
  destruct (CredibilityService.filterByCredibility (r :: rs) _) as [|c cs] eqn:Hc;
    [discriminate|].
  intros [= <-]. exists (r :: rs). cbn [finalDocs]. now rewrite Hc.
Qed.

Lemma finalSources_invariant (retrieved : list Article) (minScore : Q) (maxSources : Z) :
  let final :=
    finalSources
      (DeduplicationService.unique
         (DeduplicationService.deduplicateArticles
            (CredibilityService.filterByCredibility retrieved minScore)
            DeduplicationService.default_threshold))
      maxSources in
  ((0 <= maxSources)%Z -> (Z.of_nat (length final) <= maxSources)%Z) /\
  Forall (credible minScore) final /\
  ForallOrdPairs (DeduplicationService.distinct DeduplicationService.default_threshold) final.
Proof.
  cbv zeta. unfold finalSources. split; [|split].
  - intros Hn. rewrite (slice0_nonneg _ _ Hn), length_firstn. lia.
  - apply slice0_Forall. apply SortingFacts.sort_desc_Forall.
    apply DeduplicationFacts.deduplicateArticles_unique_Forall.
    + intros a d (c & q & H). now exists c, q.
    + apply filterByCredibility_credible.
  - apply slice0_pairs. apply SortingFacts.sort_desc_pairs.
    + apply DeduplicationFacts.distinct_sym.
    + eapply DeduplicationFacts.fresh_pairwise_distinct.
      apply DeduplicationFacts.deduplicateArticles_unique_fresh.
Qed.

(** C1, as stated, fails: with [maxSources = -1] the slices cut from the end
    instead of capping, and one document is handed to the summarizer. *)
Lemma negative_cap_hands_over_documents :
  let req := Sample.request "apple" (Some (-1 # 1)%Q) in
  exists docs,
    handedOver (analyze RegExp.no_host Sample.corpus Sample.clock req) = Some docs /\
    map id docs = ["art-1"] /\
    ~ (inject_Z (Z.of_nat (length docs)) <= optMaxSources (options req))%Q.
Proof.
  cbv zeta. eexists. split; [vm_compute; reflexivity|].
  split; [reflexivity|]. cbn. unfold Qle. cbn. lia.
Qed.

(** C1, amended: for every query and options bundle whose [maxSources] is
    not negative, the documents handed to the summarizer are at most
    [maxSources] many, each has a credibility score of at least
    [minCredibility], no two of them have a Jaccard similarity of 0.6 or
    more, and the sources the response reports are the summaries of exactly
    these documents. *)
Theorem final_documents_invariant host corpus clock req docs :
  (0 <= optMaxSources (options req))%Q ->
  handedOver (analyze host corpus clock req) = Some docs ->
  (inject_Z (Z.of_nat (length docs)) <= optMaxSources (options req))%Q /\
  Forall (credible (optMinCredibility (options req))) docs /\
  ForallOrdPairs
    (fun a b =>
       (DeduplicationService.jaccardSimilarity
          (DeduplicationService.articleText a) (DeduplicationService.articleText b)
        < 0.6)%Q) docs /\
  (forall summarizer srcs,
     sources (run summarizer (analyze host corpus clock req)) = Some srcs ->
     srcs = map summary docs).
Proof.
  intros Hcap. unfold analyze.
  destruct (stages host corpus req) as [| | | |st] eqn:Hst; try discriminate.
  destruct (negb (RelevanceService.isRelevant (relevanceResult st)));
    [discriminate|].
  cbn [handedOver]. intros [= <-].
  destruct (stages_final host corpus req st Hst) as (retrieved & ->).
  destruct (finalSources_invariant retrieved (optMinCredibility (options req))
              (sourceCap (options req))) as (Hlen & Hcred & Hpairs).
  destruct (toInteger_nonneg _ Hcap) as [Hcap0 Hfloor].
  split.
  { eapply Qle_trans; [|exact Hfloor]. rewrite <- Zle_Qle. exact (Hlen Hcap0). }
  split; [exact Hcred|]. split; [exact Hpairs|].
  intros summarizer srcs. cbn [run].
  destruct (summarizer _ _ _) as [result|msg]; cbn [sources analysed serverError];
    [now intros [= <-] | discriminate].
Qed.

Lemma final_documents_invariant_witness :
  exists docs,
    handedOver (analyze RegExp.no_host Sample.corpus Sample.clock
                  (Sample.request "apple" None)) = Some docs /\
    (inject_Z (Z.of_nat (length docs)) <= 8)%Q.
Proof.
  eexists. split; [vm_compute; reflexivity|].
  refine (proj1 (final_documents_invariant RegExp.no_host Sample.corpus Sample.clock
                   (Sample.request "apple" None) _ _ _)).
  - cbn. unfold Qle. cbn. lia.
  - vm_compute. reflexivity.
Defined.

End PipelineFacts.

(** * Further properties of the services *)

(** ** Deduplicator: similarity, partition, similarity matrix *)

Module DeduplicationMore.
Import DeduplicationService.

Lemma ratio_range (i u : nat) : i <= u -> (0 <= ratio i u)%Q /\ (ratio i u <= 1)%Q.
Proof.
  intros Hle. unfold ratio. destruct u as [|u]; cbn [Nat.eqb];
    unfold Qle; cbn [Qnum Qden]; split; lia.
Qed.

Lemma ratio_zero (i u : nat) : i <= u -> ((ratio i u == 0)%Q <-> i = 0).
Proof.
  intros Hle. unfold ratio. destruct u as [|u]; cbn [Nat.eqb].
  - split; [lia | reflexivity].
  - unfold Qeq. cbn [Qnum Qden]. lia.
Qed.

Lemma ratio_one (i u : nat) : i <= u -> ((ratio i u == 1)%Q <-> i = u /\ u <> 0).
Proof.
  intros Hle. unfold ratio. destruct u as [|u]; cbn [Nat.eqb].
  - split; [discriminate | lia].
  - unfold Qeq. cbn [Qnum Qden]. lia.
Qed.

Lemma inter_size_le_union (A B : gset string) : size (A ∩ B) <= size (A ∪ B).
Proof. apply subseteq_size. set_solver. Qed.

(** X1: the similarity is a number between 0 and 1; it is 0 exactly when the two
    texts share no word, and 1 exactly when they have the same, non-empty,
    word set. *)
Theorem jaccardSimilarity_range (text1 text2 : string) :
  (0 <= jaccardSimilarity text1 text2)%Q /\
  (jaccardSimilarity text1 text2 <= 1)%Q /\
  ((jaccardSimilarity text1 text2 == 0)%Q <-> words text1 ∩ words text2 = ∅) /\
  ((jaccardSimilarity text1 text2 == 1)%Q <->
     words text1 = words text2 /\ words text1 <> ∅).
Proof.
  unfold jaccardSimilarity. cbv zeta.
  pose proof (inter_size_le_union (words text1) (words text2)) as Hle.
  destruct (ratio_range _ _ Hle) as [H0 H1].
  split; [exact H0|]. split; [exact H1|]. split.
  - rewrite (ratio_zero _ _ Hle). split.
    + intros H. apply size_empty_inv in H. now apply leibniz_equiv in H.
    + intros ->. apply size_empty.
  - rewrite (ratio_one _ _ Hle). split.
    + intros [Heq Hne].
      assert (Hsets : words text1 ∩ words text2 ≡ words text1 ∪ words text2).
      { apply set_subseteq_size_equiv; [set_solver | lia]. }
      split.
      * apply leibniz_equiv. set_solver.
      * intros Hempty. apply Hne. apply size_empty_iff. set_solver.
    + intros [Heq Hne]. rewrite <- Heq.
      rewrite (idemp_L (∩) (words text1)), (idemp_L (∪) (words text1)).
      split; [reflexivity|]. intros H. apply Hne.
      apply size_empty_inv in H. now apply leibniz_equiv in H.
Qed.

(** *** Sorting rearranges, it neither drops nor adds *)

Lemma insert_desc_perm {A} (leb : A -> A -> bool) (x : A) (l : list A) :
  Permutation (Sorting.insert_desc leb x l) (x :: l).
Proof.
  induction l as [|y r IH]; cbn; [reflexivity|].
  destruct (leb y x); [reflexivity|].
  rewrite IH. apply perm_swap.
Qed.

Lemma sort_desc_perm {A} (leb : A -> A -> bool) (l : list A) :
  Permutation (Sorting.sort_desc leb l) l.
Proof.
  induction l as [|x l IH]; [reflexivity|].
  rewrite SortingFacts.sort_desc_cons, insert_desc_perm. now constructor.
Qed.

Lemma unmarked_mark (a : Article) (d : DedupStatus) :
  unmarked (with_deduplication a d) = unmarked a.
Proof. reflexivity. Qed.

Lemma fold_step_perm (t : Q) (l : list Article) (acc : Outcome) :
  Permutation
    (map unmarked (unique (fold_left (step t) l acc)
                   ++ duplicates (fold_left (step t) l acc)))
    (map unmarked (unique acc ++ duplicates acc) ++ map unmarked l).
Proof.
  revert acc. induction l as [|x l IH]; intros acc; cbn [fold_left map].
  - now rewrite app_nil_r.
  - rewrite IH. unfold step.
    destruct (existsb (similar t x) (unique acc)); cbn [unique duplicates];
      rewrite !map_app; cbn [map]; rewrite unmarked_mark.
    + rewrite <- !app_assoc. cbn [app]. reflexivity.
    + rewrite <- !app_assoc. cbn [app].
      apply Permutation_app_head. apply Permutation_middle.
Qed.

(** X2: the deduplicator partitions its input: apart from the mark it sets, the
    kept and the dropped articles together are the input articles, each
    once, so their two counts add up to the input's. *)
Theorem deduplicateArticles_partition (articles : list Article) (threshold : Q) :
  let o := deduplicateArticles articles threshold in
  Permutation (map unmarked (unique o ++ duplicates o)) (map unmarked articles) /\
  length (unique o) + length (duplicates o) = length articles.
Proof.
  cbv zeta.
  assert (Hperm : Permutation
            (map unmarked (unique (deduplicateArticles articles threshold)
                           ++ duplicates (deduplicateArticles articles threshold)))
            (map unmarked articles)).
  { unfold deduplicateArticles. destruct articles as [|a l]; [reflexivity|].
    rewrite fold_step_perm. cbn [unique duplicates app].
    change (map unmarked []) with (@nil Article). cbn [app].
    apply Permutation_map. apply sort_desc_perm. }
  split; [exact Hperm|].
  apply Permutation_length in Hperm.
  now rewrite !length_map, length_app in Hperm.
Qed.

(** *** Why an article is dropped *)

Lemma dropped_for_more (t : Q) (kept more : list Article) (d : Article) :
  dropped_for t kept d -> dropped_for t (kept ++ more) d.
Proof.
  intros (Hmark & k & Hin & Hsim & Hcred). split; [exact Hmark|].
  exists k. split; [apply in_or_app; now left | now split].
Qed.

Lemma fold_step_dropped (t : Q) (l : list Article) (acc : Outcome) :
  StronglySorted (Sorting.before Sorting.cred_leb) (unique acc ++ l) ->
  Forall (dropped_for t (unique acc)) (duplicates acc) ->
  Forall (dropped_for t (unique (fold_left (step t) l acc)))
         (duplicates (fold_left (step t) l acc)).
Proof.
  revert acc. induction l as [|x l IH]; intros acc Hsorted Hacc; [exact Hacc|].
  cbn [fold_left].
  pose proof Hsorted as Hparts.
  apply SortingFacts.sorted_app_iff in Hparts as (Hu & Hxl & Hcross).
  inversion Hxl as [|? ? Hl Hx]; subst.
  apply IH; unfold step;
    destruct (existsb (similar t x) (unique acc)) eqn:Hsim; cbn [unique duplicates].
  - apply SortingFacts.sorted_app_iff. repeat split; [exact Hu | exact Hl |].
    eapply List.Forall_impl; [|exact Hcross]. cbn beta. intros y Hy. now inversion Hy.
  - apply SortingFacts.sorted_app_iff. repeat split; [|exact Hl|].
    + apply SortingFacts.sorted_app_iff. repeat split; [exact Hu | repeat constructor |].
      eapply List.Forall_impl; [|exact Hcross].
      cbn beta. intros y Hy. inversion Hy as [|? ? Hyx _]; subst.
      repeat constructor. exact Hyx.
    + apply Forall_app. split.
      * eapply List.Forall_impl; [|exact Hcross].
        cbn beta. intros y Hy. now inversion Hy.
      * repeat constructor. exact Hx.
  - apply Forall_app. split; [exact Hacc|]. repeat constructor.
    apply existsb_exists in Hsim as (k & Hin & Hk).
    exists k. split; [exact Hin|]. split; [exact Hk|].
    rewrite List.Forall_forall in Hcross. specialize (Hcross k Hin).
    inversion Hcross as [|? ? Hkx _]; subst.
    unfold Sorting.before, Sorting.cred_leb in Hkx. now apply Qle_bool_iff in Hkx.
  - eapply List.Forall_impl; [|exact Hacc].
    intros d Hd. now apply dropped_for_more.
Qed.

(** X3: every dropped article carries the duplicate mark and is similar, at the
    threshold, to a kept article at least as credible as itself; every kept
    article carries the unique mark. *)
Theorem deduplicateArticles_drops_for_better (articles : list Article) (threshold : Q) :
  let o := deduplicateArticles articles threshold in
  Forall (dropped_for threshold (unique o)) (duplicates o) /\
  Forall (fun a => deduplication a = Some StatusUnique) (unique o).
Proof.
  cbv zeta. split.
  - unfold deduplicateArticles. destruct articles as [|a l]; [constructor|].
    apply fold_step_dropped; [|constructor]. cbn [unique app].
    apply SortingFacts.sort_desc_sorted;
      [exact DeduplicationFacts.cred_leb_total | exact DeduplicationFacts.cred_leb_trans].
  - pose proof (DeduplicationFacts.deduplicateArticles_unique_fresh articles threshold) as H.
    revert H. generalize (@nil Article).
    induction (unique (deduplicateArticles articles threshold)) as [|x l IH];
      intros p; cbn [fresh]; [constructor|].
    intros (_ & Hmark & Hrest). constructor; [exact Hmark | exact (IH _ Hrest)].
Qed.

(** *** The most credible article survives *)

Lemma fold_step_prefix (t : Q) (l : list Article) (acc : Outcome) :
  exists more, unique (fold_left (step t) l acc) = unique acc ++ more.
Proof.
  revert acc. induction l as [|x l IH]; intros acc; cbn [fold_left].
  - exists []. now rewrite app_nil_r.
  - destruct (IH (step t acc x)) as (more & ->). unfold step.
    destruct (existsb (similar t x) (unique acc)); cbn [unique].
    + now exists more.
    + exists (with_deduplication x StatusUnique :: more). now rewrite <- app_assoc.
Qed.

(** X4: a non-empty input never deduplicates to nothing: the first kept article
    is the first of the sorted input, and no input article is more credible
    than it. *)
Theorem deduplicateArticles_keeps_top (articles : list Article) (threshold : Q) :
  articles <> [] ->
  exists top rest kept,
    Sorting.sortByCredibility articles = top :: rest /\
    unique (deduplicateArticles articles threshold)
    = with_deduplication top StatusUnique :: kept /\
    Forall (fun a => (credScore a <= credScore top)%Q) articles.
Proof.
  intros Hne. unfold deduplicateArticles.
  destruct articles as [|a l]; [congruence|].
  pose proof (SortingFacts.sort_desc_sorted Sorting.cred_leb
                DeduplicationFacts.cred_leb_total DeduplicationFacts.cred_leb_trans
                (a :: l)) as Hsorted.
  pose proof (sort_desc_perm Sorting.cred_leb (a :: l)) as Hperm.
  fold (Sorting.sortByCredibility (a :: l)) in Hsorted, Hperm.
  destruct (Sorting.sortByCredibility (a :: l)) as [|top rest] eqn:Hs.
  { apply Permutation_length in Hperm. discriminate Hperm. }
  cbn [fold_left]. unfold step at 2. cbn [unique duplicates existsb app].
  destruct (fold_step_prefix threshold rest
              {| unique := [with_deduplication top StatusUnique]; duplicates := [] |})
    as (more & Hmore).
  exists top, rest, more. split; [reflexivity|]. split; [exact Hmore|].
  inversion Hsorted as [|? ? _ Htop]; subst.
  apply List.Forall_forall. intros b Hb.
  apply (Permutation_in _ (Permutation_sym Hperm)) in Hb.
  destruct Hb as [<-|Hb]; [apply Qle_refl|].
  rewrite List.Forall_forall in Htop. specialize (Htop b Hb).
  unfold Sorting.before, Sorting.cred_leb in Htop. now apply Qle_bool_iff in Htop.
Qed.

Lemma deduplicateArticles_keeps_top_witness :
  exists top rest kept,
    Sorting.sortByCredibility
      (map CredibilityService.assignCredibility Sample.corpus) = top :: rest /\
    unique (deduplicateArticles
              (map CredibilityService.assignCredibility Sample.corpus) 0.6%Q)
    = with_deduplication top StatusUnique :: kept /\
    Forall (fun a => (credScore a <= credScore top)%Q)
           (map CredibilityService.assignCredibility Sample.corpus).
Proof.
  apply (deduplicateArticles_keeps_top
           (map CredibilityService.assignCredibility Sample.corpus) 0.6%Q).
  discriminate.
Defined.

(** *** The similarity matrix *)

Lemma entry_matrix (articles : list Article) (i j : nat) :
  entry (calculateSimilarityMatrix articles) i j
  = match articles !! i, articles !! j with
    | Some a, Some b =>
        Some (if Nat.eqb i j then 1.0%Q
              else jaccardSimilarity (articleText a) (articleText b))
    | _, _ => None
    end.
Proof.
  unfold entry, calculateSimilarityMatrix. rewrite list_lookup_imap.
  destruct (articles !! i) as [a|]; cbn; [|reflexivity].
  rewrite list_lookup_imap. now destruct (articles !! j).
Qed.

(** X6: the similarity matrix is square of the size of the input, symmetric, and
    has 1.0 on its diagonal, also for a text without a word (where
    [jaccardSimilarity] of the text with itself is 0). *)
Theorem calculateSimilarityMatrix_shape (articles : list Article) :
  let m := calculateSimilarityMatrix articles in
  length m = length articles /\
  Forall (fun row => length row = length articles) m /\
  (forall i j, entry m i j = entry m j i) /\
  (forall i, i < length articles -> entry m i i = Some 1.0%Q) /\
  (forall i j, length articles <= i \/ length articles <= j -> entry m i j = None).
Proof.
  cbv zeta. split; [|split; [|split; [|split]]].
  - unfold calculateSimilarityMatrix. apply length_imap.
  - unfold calculateSimilarityMatrix. apply List.Forall_forall. intros row Hrow.
    apply list_elem_of_In, list_elem_of_lookup in Hrow as (i & Hi).
    rewrite list_lookup_imap in Hi.
    destruct (articles !! i); [|discriminate]. injection Hi as <-. apply length_imap.
  - intros i j. rewrite !entry_matrix.
    destruct (articles !! i) as [a|], (articles !! j) as [b|]; try reflexivity.
    rewrite (Nat.eqb_sym j i). destruct (Nat.eqb i j); [reflexivity|].
    now rewrite DeduplicationFacts.jaccardSimilarity_comm.
  - intros i Hi. rewrite entry_matrix.
    destruct (lookup_lt_is_Some_2 articles i Hi) as [a ->].
    now rewrite Nat.eqb_refl.
  - intros i j Hout. rewrite entry_matrix.
    destruct Hout as [Hi|Hj].
    + now rewrite (lookup_ge_None_2 articles i Hi).
    + rewrite (lookup_ge_None_2 articles j Hj). now destruct (articles !! i).
Qed.

End DeduplicationMore.

(** ** Credibility scorer: filtering, sorting, breakdown *)

Module CredibilityMore.
Import CredibilityService.

Lemma sorted_by_score (l : list Article) :
  StronglySorted (Sorting.before Sorting.cred_leb) l <->
  StronglySorted (fun a b => (credScore b <= credScore a)%Q) l.
Proof.
  assert (Hrel : forall a b,
            Sorting.before Sorting.cred_leb a b <-> (credScore b <= credScore a)%Q).
  { intros a b. unfold Sorting.before, Sorting.cred_leb. apply Qle_bool_iff. }
  split; induction 1 as [|x l Hl IH Hx]; constructor; try exact IH;
    (eapply List.Forall_impl; [|exact Hx]); intros b Hb; now apply Hrel.
Qed.

(** X9: [sortByCredibility] rearranges its input into descending order of
    credibility score, and leaves a list that is already in that order as it
    is (so articles of equal score keep their order). *)
Theorem sortByCredibility_sorts (articles : list Article) :
  Permutation (Sorting.sortByCredibility articles) articles /\
  StronglySorted (fun a b => (credScore b <= credScore a)%Q)
                 (Sorting.sortByCredibility articles) /\
  (StronglySorted (fun a b => (credScore b <= credScore a)%Q) articles ->
   Sorting.sortByCredibility articles = articles) /\
  Sorting.sortByCredibility (Sorting.sortByCredibility articles)
  = Sorting.sortByCredibility articles.
Proof.
  assert (Hsorted : StronglySorted (Sorting.before Sorting.cred_leb)
                      (Sorting.sortByCredibility articles)).
  { apply SortingFacts.sort_desc_sorted;
      [exact DeduplicationFacts.cred_leb_total | exact DeduplicationFacts.cred_leb_trans]. }
  split; [apply DeduplicationMore.sort_desc_perm|].
  split; [now apply sorted_by_score|].
  split.
  - intros H. apply SortingFacts.sort_desc_sorted_id. now apply sorted_by_score.
  - now apply SortingFacts.sort_desc_sorted_id.
Qed.

Lemma passes_weaker (minA minB : Q) (a : Article) :
  (minA <= minB)%Q -> passes minB a = true -> passes minA a = true.
Proof.
  intros Hle. unfold passes, Js.ge.
  destruct (credibility a) as [c|]; [|trivial].
  destruct (score c) as [|q]; [trivial|].
  rewrite !Qle_bool_iff. intros H. eapply Qle_trans; eassumption.
Qed.

Lemma filter_sublist_weaker {A} (P Q : A -> bool) (l : list A) :
  (forall x, P x = true -> Q x = true) ->
  sublist (List.filter P l) (List.filter Q l).
Proof.
  intros Himp. induction l as [|x l IH]; cbn; [constructor|].
  destruct (P x) eqn:HP.
  - rewrite (Himp x HP). now constructor.
  - destruct (Q x); [now constructor | exact IH].
Qed.

Lemma filter_sublist_all {A} (P : A -> bool) (l : list A) :
  sublist (List.filter P l) l.
Proof.
  induction l as [|x l IH]; cbn; [constructor|].
  destruct (P x); now constructor.
Qed.

(** X8: [filterByCredibility] keeps the scored articles in their input order,
    and a higher threshold keeps a sub-list of what a lower one keeps. *)
Theorem filterByCredibility_monotone (articles : list Article) (minA minB : Q) :
  (minA <= minB)%Q ->
  sublist (filterByCredibility articles minB) (filterByCredibility articles minA) /\
  sublist (filterByCredibility articles minA) (map assignCredibility articles) /\
  length (filterByCredibility articles minB) <= length (filterByCredibility articles minA)
  /\ length (filterByCredibility articles minA) <= length articles.
Proof.
  intros Hle. unfold filterByCredibility.
  assert (H1 : sublist (List.filter (passes minB) (map assignCredibility articles))
                       (List.filter (passes minA) (map assignCredibility articles))).
  { apply filter_sublist_weaker. intros a. now apply passes_weaker. }
  pose proof (filter_sublist_all (passes minA) (map assignCredibility articles)) as H2.
  split; [exact H1|]. split; [exact H2|]. split.
  - now apply sublist_length.
  - apply sublist_length in H2. now rewrite length_map in H2.
Qed.

Lemma filterByCredibility_monotone_witness :
  length (filterByCredibility Sample.corpus 0.9) <= length (filterByCredibility Sample.corpus 0.4).
Proof.
  apply (filterByCredibility_monotone Sample.corpus 0.4 0.9). unfold Qle. cbn. lia.
Defined.

Lemma tierCount_cons (t : Tier) (a : Article) (l : list Article) :
  AnalyzeRoute.tierCount t (a :: l)
  = AnalyzeRoute.tierCount t [a] + AnalyzeRoute.tierCount t l.
Proof.
  unfold AnalyzeRoute.tierCount. cbn [List.filter].
  destruct (credibility a) as [c|]; [|reflexivity].
  destruct (tier c), t; reflexivity.
Qed.

(** X10: the credibility breakdown of articles that all carry a credibility
    assessment sorts every article into exactly one of the four tiers: the
    four counts add up to [totalSources], the number of articles. *)
Theorem getCredibilityBreakdown_counts (articles : list Article) :
  Forall (fun a => credibility a <> None) articles ->
  let b := AnalyzeRoute.getCredibilityBreakdown articles in
  AnalyzeRoute.highCredibilityCount b + AnalyzeRoute.mediumCredibilityCount b
  + AnalyzeRoute.lowCredibilityCount b + AnalyzeRoute.unverifiedCount b
  = AnalyzeRoute.totalSources b /\
  AnalyzeRoute.totalSources b = length articles.
Proof.
  intros Hall. cbv zeta. split; [|reflexivity].
  cbn [AnalyzeRoute.getCredibilityBreakdown AnalyzeRoute.highCredibilityCount
       AnalyzeRoute.mediumCredibilityCount AnalyzeRoute.lowCredibilityCount
       AnalyzeRoute.unverifiedCount AnalyzeRoute.totalSources].
  induction Hall as [|a l Ha _ IH]; [reflexivity|].
  rewrite (tierCount_cons HIGH), (tierCount_cons MEDIUM), (tierCount_cons LOW),
    (tierCount_cons UNVERIFIED).
  cbn [length]. rewrite <- IH.
  unfold AnalyzeRoute.tierCount at 1 3 5 7. cbn [List.filter].
  destruct (credibility a) as [c|]; [|congruence].
  destruct (tier c); cbn [length]; lia.
Qed.

Lemma getCredibilityBreakdown_counts_witness :
  let b := AnalyzeRoute.getCredibilityBreakdown
             (map assignCredibility Sample.corpus) in
  AnalyzeRoute.highCredibilityCount b + AnalyzeRoute.mediumCredibilityCount b
  + AnalyzeRoute.lowCredibilityCount b + AnalyzeRoute.unverifiedCount b
  = AnalyzeRoute.totalSources b.
Proof.
  apply (getCredibilityBreakdown_counts (map assignCredibility Sample.corpus)).
  repeat constructor; discriminate.
Defined.

End CredibilityMore.

(** ** Retriever: what a successful call returns, and when it throws *)

Module RetrievalMore.
Import RetrievalService.

Lemma mapM_returns {A B} (f : A -> Js.outcome B) (l : list A) (ys : list B) :
  Js.mapM f l = Js.Returns ys -> Forall2 (fun x y => f x = Js.Returns y) l ys.
Proof.
  revert ys. induction l as [|x l IH]; cbn; intros ys.
  - intros [= <-]. constructor.
  - destruct (f x) as [y|] eqn:Hy; cbn; [|discriminate].
    destruct (Js.mapM f l) as [ys'|]; cbn; [|discriminate].
    intros [= <-]. constructor; [exact Hy | now apply IH].
Qed.

Lemma mapM_throws {A B} (f : A -> Js.outcome B) (l : list A) (x : A) (msg : Js.error) :
  (forall y m, f y = Js.Throws m -> m = msg) ->
  In x l -> f x = Js.Throws msg -> Js.mapM f l = Js.Throws msg.
Proof.
  intros Honly Hin Hx. induction l as [|y l IH]; [destruct Hin|].
  cbn. destruct (f y) as [b|m] eqn:Hy; cbn.
  - destruct Hin as [->|Hin]; [congruence|]. now rewrite (IH Hin).
  - now rewrite (Honly y m Hy).
Qed.

Lemma scoreArticle_returns host (terms filter : list string) (a r : Article) :
  scoreArticle host terms filter a = Js.Returns r ->
  exists s, r = with_relevanceScore a s /\
            (filter <> [] -> hasCompany filter a = false -> s = 0).
Proof.
  unfold scoreArticle. destruct (termsScore host a terms) as [s|]; cbn; [|discriminate].
  intros [= <-]. eexists. split; [reflexivity|].
  intros Hf Hc. destruct filter; [congruence|]. now rewrite Hc.
Qed.

Lemma relevance_leb_total (a b : Article) :
  relevance_leb a b = false -> relevance_leb b a = true.
Proof. unfold relevance_leb. rewrite Nat.leb_le, Nat.leb_gt. lia. Qed.

Lemma relevance_leb_trans (a b c : Article) :
  relevance_leb a b = true -> relevance_leb b c = true -> relevance_leb a c = true.
Proof. unfold relevance_leb. rewrite !Nat.leb_le. lia. Qed.

Lemma firstn_sorted {A} (R : A -> A -> Prop) (k : nat) (l : list A) :
  StronglySorted R l -> StronglySorted R (firstn k l).
Proof.
  intros H. revert k. induction H as [|x l Hl IH Hx]; intros [|k]; cbn;
    constructor; auto using PipelineFacts.firstn_Forall.
Qed.

Lemma slice0_sorted {A} (R : A -> A -> Prop) (l : list A) (n : Z) :
  StronglySorted R l -> StronglySorted R (Js.slice0 l n).
Proof. intros H. unfold Js.slice0. destruct (n <? 0)%Z; now apply firstn_sorted. Qed.

Lemma slice0_sublist {A} (l : list A) (n : Z) : sublist (Js.slice0 l n) l.
Proof. unfold Js.slice0. destruct (n <? 0)%Z; apply sublist_take. Qed.

(** What a returning call is made of. *)
Lemma retrieve_returns host corpus query maxResults filter (l : list Article) :
  retrieveRelevantContent host corpus query maxResults filter = Js.Returns l ->
  exists terms scored,
    expandedTerms query = Js.Returns terms /\
    Forall2 (fun a r => scoreArticle host terms filter a = Js.Returns r) corpus scored /\
    l = Js.slice0
          (Sorting.sort_desc relevance_leb
             (List.filter (fun a => Nat.ltb 0 (relevance a)) scored))
          maxResults.
Proof.
  unfold retrieveRelevantContent.
  destruct (expandedTerms query) as [terms|]; cbn [Js.bind]; [|discriminate].
  destruct (Js.mapM (scoreArticle host terms filter) corpus) as [scored|] eqn:Hm;
    cbn [Js.bind]; [|discriminate].
  intros [= <-]. exists terms, scored. split; [reflexivity|].
  split; [now apply mapM_returns | reflexivity].
Qed.

(** X11: a returning call gives at most [maxResults] articles (when that bound is
    not negative), each with a positive relevance score, in descending order
    of that score. *)
Theorem retrieve_bounded_positive_sorted host corpus query maxResults filter
    (l : list Article) :
  retrieveRelevantContent host corpus query maxResults filter = Js.Returns l ->
  ((0 <= maxResults)%Z -> (Z.of_nat (length l) <= maxResults)%Z) /\
  Forall (fun r => exists s, relevanceScore r = Some s /\ 0 < s) l /\
  StronglySorted (fun a b => relevance b <= relevance a) l.
Proof.
  intros H. apply retrieve_returns in H as (terms & scored & _ & Hscored & ->).
  split; [|split].
  - intros Hn. rewrite (PipelineFacts.slice0_nonneg _ _ Hn), length_firstn. lia.
  - apply PipelineFacts.slice0_Forall, SortingFacts.sort_desc_Forall.
    apply List.Forall_forall. intros r Hr. apply filter_In in Hr as [_ Hr].
    apply Nat.ltb_lt in Hr. unfold relevance in Hr.
    destruct (relevanceScore r) as [s|]; [|lia]. now exists s.
  - apply slice0_sorted.
    pose proof (SortingFacts.sort_desc_sorted relevance_leb
                  relevance_leb_total relevance_leb_trans
                  (List.filter (fun a => Nat.ltb 0 (relevance a)) scored)) as Hs.
    induction Hs as [|x xs Hxs IH Hx]; constructor; [exact IH|].
    eapply List.Forall_impl; [|exact Hx].
    intros b Hb. unfold Sorting.before, relevance_leb in Hb. now apply Nat.leb_le.
Qed.

Lemma retrieve_bounded_positive_sorted_witness :
  exists l,
    retrieveRelevantContent RegExp.no_host Sample.corpus "apple pay" 2 [] = Js.Returns l /\
    (Z.of_nat (length l) <= 2)%Z.
Proof.
  eexists. split; [vm_compute; reflexivity|].
  refine (proj1 (retrieve_bounded_positive_sorted RegExp.no_host Sample.corpus
                   "apple pay" 2 [] _ _) _); [vm_compute; reflexivity | lia].
Defined.

Lemma scored_from_corpus host terms filter (corpus scored : list Article) :
  Forall2 (fun a r => scoreArticle host terms filter a = Js.Returns r) corpus scored ->
  Forall (fun r => exists a, In a corpus /\ r = with_relevanceScore a (relevance r) /\
                             (filter <> [] -> 0 < relevance r ->
                              hasCompany filter r = true)) scored.
Proof.
  induction 1 as [|a r corpus scored Har _ IH]; constructor.
  - apply scoreArticle_returns in Har as (s & -> & Hzero).
    exists a. split; [now left|]. split; [reflexivity|].
    intros Hf Hpos. cbn in Hpos.
    destruct (hasCompany filter a) eqn:Hc; [exact Hc|].
    specialize (Hzero Hf eq_refl). lia.
  - eapply List.Forall_impl; [|exact IH].
    intros r' (a' & Hin & Heq & Hc). exists a'. split; [now right | now split].
Qed.

(** X12: every article a call returns is a corpus article with its relevance
    score attached, there are no more of them than corpus articles, and under
    a company filter each of them names a company of the filter (in upper
    case). *)
Theorem retrieve_from_corpus host corpus query maxResults filter (l : list Article) :
  retrieveRelevantContent host corpus query maxResults filter = Js.Returns l ->
  Forall (fun r => exists a, In a corpus /\ r = with_relevanceScore a (relevance r)) l /\
  length l <= length corpus /\
  (filter <> [] ->
   Forall (fun r => exists c, In c (companies r) /\
                              In c (map JsString.toUpperCase filter)) l).
Proof.
  intros H. apply retrieve_returns in H as (terms & scored & _ & Hscored & ->).
  pose proof (scored_from_corpus host terms filter corpus scored Hscored) as Hall.
  assert (Hkept : Forall (fun r => (exists a, In a corpus /\
                                      r = with_relevanceScore a (relevance r)) /\
                                   (filter <> [] -> hasCompany filter r = true))
                    (List.filter (fun a => Nat.ltb 0 (relevance a)) scored)).
  { apply List.Forall_forall. intros r Hr. apply filter_In in Hr as [Hin Hpos].
    apply Nat.ltb_lt in Hpos. rewrite List.Forall_forall in Hall.
    destruct (Hall r Hin) as (a & Ha & Heq & Hc). split; [now exists a | auto]. }
  apply (SortingFacts.sort_desc_Forall relevance_leb) in Hkept.
  apply (PipelineFacts.slice0_Forall _ _ maxResults) in Hkept.
  split; [|split].
  - eapply List.Forall_impl; [|exact Hkept]. now intros r [Hr _].
  - pose proof (slice0_sublist
                  (Sorting.sort_desc relevance_leb
                     (List.filter (fun a => Nat.ltb 0 (relevance a)) scored))
                  maxResults) as Hsub.
    apply sublist_length in Hsub. rewrite SortingFacts.sort_desc_length in Hsub.
    pose proof (CredibilityMore.filter_sublist_all
                  (fun a => Nat.ltb 0 (relevance a)) scored) as Hf.
    apply sublist_length in Hf.
    apply Forall2_length in Hscored. lia.
  - intros Hf. eapply List.Forall_impl; [|exact Hkept].
    intros r [_ Hc]. specialize (Hc Hf). unfold hasCompany in Hc.
    apply existsb_exists in Hc as (c & Hin & Hc).
    apply existsb_exists in Hc as (u & Hu & Heq).
    apply String.eqb_eq in Heq as ->. now exists u.
Qed.

Lemma retrieve_from_corpus_witness :
  exists l,
    retrieveRelevantContent RegExp.no_host Sample.corpus "apple" 16 ["aapl"]
    = Js.Returns l /\ length l <= length Sample.corpus.
Proof.
  eexists. split; [vm_compute; reflexivity|].
  refine (proj1 (proj2 (retrieve_from_corpus RegExp.no_host Sample.corpus
                          "apple" 16 ["aapl"] _ _))).
  vm_compute; reflexivity.
Defined.

Lemma scoreArticle_no_terms host (filter : list string) (a : Article) :
  scoreArticle host [] filter a = Js.Returns (with_relevanceScore a 0).
Proof.
  unfold scoreArticle, termsScore. cbn.
  destruct filter; [reflexivity|]. now destruct (hasCompany _ a).
Qed.

(** X13: a query without a token longer than two characters (the empty query, or
    one of short words only, such as "ev ai") retrieves nothing and does not
    throw, whatever the corpus, the bound and the filter. *)
Theorem retrieve_short_query host corpus query maxResults filter :
  queryTerms query = [] ->
  retrieveRelevantContent host corpus query maxResults filter = Js.Returns [].
Proof.
  intros Hq. unfold retrieveRelevantContent, expandedTerms. rewrite Hq.
  cbn [Js.mapM Js.bind concat].
  assert (Hm : Js.mapM (scoreArticle host [] filter) corpus
               = Js.Returns (map (fun a => with_relevanceScore a 0) corpus)).
  { induction corpus as [|a l IH]; [reflexivity|].
    cbn [Js.mapM map]. now rewrite scoreArticle_no_terms, IH. }
  rewrite Hm. cbn [Js.bind]. clear Hm.
  assert (Hf : List.filter (fun a => Nat.ltb 0 (relevance a))
                 (map (fun a => with_relevanceScore a 0) corpus) = []).
  { induction corpus as [|a l IH]; [reflexivity | exact IH]. }
  rewrite Hf. unfold Js.slice0, Sorting.sort_desc. cbn [foldr].
  destruct (maxResults <? 0)%Z; now rewrite firstn_nil.
Qed.

Lemma retrieve_short_query_witness :
  retrieveRelevantContent RegExp.no_host Sample.corpus "ev ai" 16 [] = Js.Returns [].
Proof.
  apply (retrieve_short_query RegExp.no_host Sample.corpus "ev ai" 16 []).
  reflexivity.
Defined.

Lemma inherited_not_alias (t : string) :
  Js.inherited t = true -> Js.own companyAliases t = None.
Proof.
  intros H. unfold Js.inherited in H. apply existsb_exists in H as (n & Hin & Heq).
  apply String.eqb_eq in Heq as ->.
  assert (Hall : forallb (fun n => match Js.own companyAliases n with
                                   | None => true | Some _ => false end)
                   Js.object_prototype = true) by (vm_compute; reflexivity).
  rewrite forallb_forall in Hall. specialize (Hall n Hin).
  now destruct (Js.own companyAliases n).
Qed.

(** X14: a query with a token that names a member every object inherits
    ("constructor", "__proto__") makes the call throw a TypeError at the
    alias lookup, before any article is scored: also on an empty corpus. *)
Theorem retrieve_throws_on_inherited_name host corpus query maxResults filter
    (t : string) :
  In t (queryTerms query) -> Js.inherited t = true ->
  retrieveRelevantContent host corpus query maxResults filter
  = Js.Throws (Js.TypeError "ticker.toLowerCase is not a function").
Proof.
  intros Hin Hinh. unfold retrieveRelevantContent, expandedTerms.
  rewrite (mapM_throws expandTerm (queryTerms query) t
             (Js.TypeError "ticker.toLowerCase is not a function"));
    [reflexivity| |exact Hin|].
  - intros y m. unfold expandTerm.
    destruct (Js.get companyAliases y) as [ticker| |];
      [destruct (String.eqb ticker "")| |]; congruence.
  - unfold expandTerm, Js.get. now rewrite (inherited_not_alias t Hinh), Hinh.
Qed.

Lemma retrieve_throws_on_inherited_name_witness :
  retrieveRelevantContent RegExp.no_host [] "Apple constructor news" 16 []
  = Js.Throws (Js.TypeError "ticker.toLowerCase is not a function").
Proof.
  apply (retrieve_throws_on_inherited_name RegExp.no_host [] "Apple constructor news"
           16 [] "constructor"); [right; left; reflexivity | reflexivity].
Defined.

Lemma upper_lower_char (c : ascii) :
  JsString.upper_char (JsString.lower_char c) = JsString.upper_char c.
Proof. destruct c as [[] [] [] [] [] [] [] []]; reflexivity. Qed.

Lemma toUpperCase_toLowerCase (s : string) :
  JsString.toUpperCase (JsString.toLowerCase s) = JsString.toUpperCase s.
Proof.
  unfold JsString.toUpperCase, JsString.toLowerCase.
  induction s as [|c s IH]; cbn; [reflexivity|]. now rewrite upper_lower_char, IH.
Qed.

(** X15: [getArticlesByCompany] ignores the case of the ticker it is given, and
    returns, in corpus order, exactly the corpus articles that list the
    upper-cased ticker among their companies. *)
Theorem getArticlesByCompany_case_insensitive (articles : list Article) (ticker : string) :
  getArticlesByCompany articles (JsString.toLowerCase ticker)
  = getArticlesByCompany articles ticker /\
  sublist (getArticlesByCompany articles ticker) (getAllArticles articles) /\
  (forall a, In a (getArticlesByCompany articles ticker) <->
             In a articles /\ In (JsString.toUpperCase ticker) (companies a)).
Proof.
  split; [|split].
  - unfold getArticlesByCompany. now rewrite toUpperCase_toLowerCase.
  - apply CredibilityMore.filter_sublist_all.
  - intros a. unfold getArticlesByCompany. rewrite filter_In, existsb_exists.
    split; intros [Ha Hc]; (split; [exact Ha|]).
    + destruct Hc as (c & Hin & Heq). apply String.eqb_eq in Heq. now subst.
    + exists (JsString.toUpperCase ticker). split; [exact Hc | apply String.eqb_refl].
Qed.

End RetrievalMore.

(** ** Relevance guardrail: terms, entities, overlap, scores, decision *)

Module RelevanceMore.
Import RelevanceService.

Lemma normalized_char (c : ascii) :
  let c' := (fun c => if JsString.is_word c || JsString.is_space c then c else " "%char)
              (JsString.lower_char c) in
  term_char c' || JsString.is_space c' = true.
Proof. destruct c as [[] [] [] [] [] [] [] []]; reflexivity. Qed.

Lemma normalized_query (query : string) :
  RegExp.all_chars (fun c => term_char c || JsString.is_space c)
    (JsString.blank_punct (JsString.toLowerCase query)) = true.
Proof.
  unfold JsString.blank_punct, JsString.toLowerCase.
  induction query as [|c s IH]; cbn; [reflexivity|].
  rewrite IH, andb_true_r. apply normalized_char.
Qed.

Lemma split_ws_chars (P : ascii -> bool) (s : string) :
  RegExp.all_chars (fun c => P c || JsString.is_space c) s = true ->
  Forall (fun w => RegExp.all_chars P w = true) (JsString.split_ws s).
Proof.
  induction s as [|c s IH]; cbn; [repeat constructor|].
  intros H. apply andb_true_iff in H as [Hc Hs]. specialize (IH Hs).
  destruct (JsString.is_space c) eqn:Hsp.
  - destruct (JsString.starts_with_space s); [exact IH | now constructor].
  - rewrite orb_false_r in Hc.
    destruct (JsString.split_ws s) as [|w ws].
    + repeat constructor. cbn. now rewrite Hc.
    + inversion IH as [|? ? Hw Hws]; subst. constructor; [|exact Hws].
      cbn. now rewrite Hc, Hw.
Qed.

(** X16: every extracted query term is non-empty, consists of lower-case letters,
    digits and underscores only, and is longer than two characters or one of
    the five kept short terms. *)
Theorem extractQueryTerms_shape (query : string) :
  Forall (fun term =>
            term <> "" /\
            RegExp.all_chars term_char term = true /\
            (2 < String.length term \/ In term importantShortTerms))
         (extractQueryTerms query).
Proof.
  unfold extractQueryTerms.
  pose proof (split_ws_chars term_char _ (normalized_query query)) as H.
  induction H as [|w ws Hw _ IH]; cbn [List.filter]; [constructor|].
  destruct (Nat.ltb_spec 2 (String.length w)) as [Hlen|Hlen]; cbn [orb].
  - constructor; [|exact IH]. split; [|split; [exact Hw | now left]].
    intros ->. cbn in Hlen. lia.
  - destruct (mem w importantShortTerms) eqn:Hm; [|exact IH].
    constructor; [|exact IH].
    apply existsb_exists in Hm as (t & Hin & Heq). apply String.eqb_eq in Heq as <-.
    split; [|split; [exact Hw | now right]].
    intros ->. cbn in Hin. intuition discriminate.
Qed.

Lemma map_sublist {A B} (f : A -> B) (l1 l2 : list A) :
  sublist l1 l2 -> sublist (map f l1) (map f l2).
Proof. induction 1; cbn; now constructor. Qed.

(** X17: a query term that is literally one of an entity's variations always
    matches that entity; the matched entities are keys of the table, in table
    order, and [hasKnownEntity] says whether there is one. *)
Theorem detectKnownEntities_exact (queryTerms : list string) :
  (forall entity variations variation,
     In (entity, variations) KNOWN_ENTITIES -> In variation variations ->
     In variation queryTerms ->
     In entity (matchedEntities (detectKnownEntities queryTerms)) /\
     hasKnownEntity (detectKnownEntities queryTerms) = true) /\
  sublist (matchedEntities (detectKnownEntities queryTerms)) (map fst KNOWN_ENTITIES) /\
  (hasKnownEntity (detectKnownEntities queryTerms) = true <->
   matchedEntities (detectKnownEntities queryTerms) <> []).
Proof.
  unfold detectKnownEntities. cbv zeta. cbn [matchedEntities hasKnownEntity].
  split; [|split].
  - intros entity variations variation He Hv Hq.
    assert (Hin : In entity
              (map fst (List.filter
                 (fun entry => existsb
                    (variationMatches queryTerms (JsString.join " " queryTerms))
                    (snd entry)) KNOWN_ENTITIES))).
    { apply in_map_iff. exists (entity, variations). split; [reflexivity|].
      apply filter_In. split; [exact He|]. cbn [snd].
      apply existsb_exists. exists variation. split; [exact Hv|].
      unfold variationMatches, exactMatch, mem.
      assert (Hm : existsb (String.eqb variation) queryTerms = true).
      { apply existsb_exists. exists variation. split; [exact Hq | apply String.eqb_refl]. }
      now rewrite Hm. }
    split; [exact Hin|].
    destruct (map fst _) as [|e es]; [destruct Hin | reflexivity].
  - apply map_sublist. apply CredibilityMore.filter_sublist_all.
  - destruct (map fst _) as [|e es]; cbn; split; congruence.
Qed.

Lemma detectKnownEntities_exact_witness :
  In "tesla" (matchedEntities (detectKnownEntities ["should"; "buy"; "tsla"])).
Proof.
  refine (proj1 (proj1 (detectKnownEntities_exact ["should"; "buy"; "tsla"])
                   "tesla" _ "tsla" _ _ _));
    [right; right; left; reflexivity | right; left; reflexivity
     | right; right; left; reflexivity].
Defined.

(** *** Document overlap *)

Lemma mem_In (x : string) (l : list string) : mem x l = true <-> In x l.
Proof.
  unfold mem. rewrite existsb_exists. split.
  - intros (y & Hy & Heq). apply String.eqb_eq in Heq. now subst.
  - intros H. exists x. split; [exact H | apply String.eqb_refl].
Qed.

Lemma set_add_In (x y : string) (l : list string) :
  In y (set_add x l) <-> y = x \/ In y l.
Proof.
  unfold set_add. destruct (mem x l) eqn:Hm.
  - apply mem_In in Hm. split; [auto | intros [->|]; auto].
  - rewrite List.in_app_iff. cbn. intuition.
Qed.

Lemma set_add_NoDup (x : string) (l : list string) : NoDup l -> NoDup (set_add x l).
Proof.
  intros Hl. unfold set_add. destruct (mem x l) eqn:Hm; [exact Hl|].
  apply NoDup_app. split; [exact Hl|]. split; [|apply NoDup_singleton].
  intros y Hy Hx. apply list_elem_of_In in Hy, Hx.
  destruct Hx as [<-|[]]. apply mem_In in Hy. congruence.
Qed.

Lemma companies_fold_In (queryTerms cs : list string) (acc : list string) (x : string) :
  In x (fold_left (companiesStep queryTerms) cs acc) <->
  In x acc \/ exists tag, In tag cs /\ tag_overlaps queryTerms tag = true /\
                          x = JsString.toUpperCase tag.
Proof.
  revert acc. induction cs as [|c cs IH]; intros acc; cbn [fold_left].
  - split; [auto | intros [H|(t & [] & _)]; exact H].
  - rewrite IH. unfold companiesStep, tag_overlaps.
    destruct (existsb (fun term => overlaps c term) queryTerms) eqn:Hc.
    + rewrite set_add_In. split.
      * intros [[->|H]|(t & Ht & Ho & ->)]; [right; exists c; cbn; auto | auto |].
        right. exists t. cbn. auto.
      * intros [H|(t & [<-|Ht] & Ho & ->)]; [auto | auto |].
        right. exists t. auto.
    + split.
      * intros [H|(t & Ht & Ho & ->)]; [auto|]. right. exists t. cbn. auto.
      * intros [H|(t & [<-|Ht] & Ho & ->)]; [auto | congruence |].
        right. exists t. auto.
Qed.

Lemma companies_fold_NoDup (queryTerms cs : list string) (acc : list string) :
  NoDup acc -> NoDup (fold_left (companiesStep queryTerms) cs acc).
Proof.
  revert acc. induction cs as [|c cs IH]; intros acc Hacc; [exact Hacc|].
  cbn [fold_left]. apply IH. unfold companiesStep.
  destruct (existsb _ queryTerms); [now apply set_add_NoDup | exact Hacc].
Qed.

Lemma overlapStep_In (queryTerms : list string) (acc : list string) (doc : Article)
    (x : string) :
  In x (overlapStep queryTerms acc doc) <->
  In x acc \/ exists tag, In tag (tags doc) /\ tag_overlaps queryTerms tag = true /\
                          x = JsString.toUpperCase tag.
Proof.
  unfold overlapStep, tags. cbv zeta.
  change (fun acc0 company =>
            if existsb (fun term => overlaps company term) queryTerms
            then set_add (JsString.toUpperCase company) acc0 else acc0)
    with (companiesStep queryTerms).
  destruct (nonempty (lowerSector doc)) eqn:Hs; cbn [andb].
  - fold (tag_overlaps queryTerms (lowerSector doc)).
    destruct (tag_overlaps queryTerms (lowerSector doc)) eqn:Ho.
    + rewrite set_add_In, companies_fold_In. split.
      * intros [->|[H|(t & Ht & Hot & ->)]]; [|auto|].
        -- right. exists (lowerSector doc). rewrite List.in_app_iff. cbn. auto.
        -- right. exists t. rewrite List.in_app_iff. auto.
      * intros [H|(t & Ht & Hot & ->)]; [auto|].
        apply List.in_app_iff in Ht as [Ht|[<-|[]]]; [|auto].
        right. right. exists t. auto.
    + rewrite companies_fold_In. split.
      * intros [H|(t & Ht & Hot & ->)]; [auto|].
        right. exists t. rewrite List.in_app_iff. auto.
      * intros [H|(t & Ht & Hot & ->)]; [auto|].
        apply List.in_app_iff in Ht as [Ht|[<-|[]]]; [|congruence].
        right. exists t. auto.
  - rewrite companies_fold_In, app_nil_r. reflexivity.
Qed.

Lemma overlapStep_NoDup (queryTerms : list string) (acc : list string) (doc : Article) :
  NoDup acc -> NoDup (overlapStep queryTerms acc doc).
Proof.
  intros Hacc. unfold overlapStep. cbv zeta.
  change (fun acc0 company =>
            if existsb (fun term => overlaps company term) queryTerms
            then set_add (JsString.toUpperCase company) acc0 else acc0)
    with (companiesStep queryTerms).
  destruct (_ && _); [apply set_add_NoDup|]; now apply companies_fold_NoDup.
Qed.

Lemma overlap_fold_In (queryTerms : list string) (docs : list Article)
    (acc : list string) (x : string) :
  In x (fold_left (overlapStep queryTerms) docs acc) <->
  In x acc \/ exists doc tag, In doc docs /\ In tag (tags doc) /\
                              tag_overlaps queryTerms tag = true /\
                              x = JsString.toUpperCase tag.
Proof.
  revert acc. induction docs as [|d docs IH]; intros acc; cbn [fold_left].
  - split; [auto | intros [H|(doc & t & [] & _)]; exact H].
  - rewrite IH, overlapStep_In. split.
    + intros [[H|(t & Ht & Ho & ->)]|(doc & t & Hd & Ht & Ho & ->)]; [auto| |].
      * right. exists d, t. cbn. auto.
      * right. exists doc, t. cbn. auto.
    + intros [H|(doc & t & [<-|Hd] & Ht & Ho & ->)]; [auto| |].
      * left. right. exists t. auto.
      * right. exists doc, t. auto.
Qed.

(** X18: the overlap check reports exactly the upper-cased company and sector
    tags of the documents that contain a query term or are contained in one,
    each once; it reports an overlap exactly when there is such a tag, and
    none for an empty document set. *)
Theorem checkDocumentOverlap_tags (queryTerms : list string) (documents : list Article) :
  let r := checkDocumentOverlap queryTerms documents in
  NoDup (overlappingCompanies r) /\
  (forall x, In x (overlappingCompanies r) <->
             exists doc tag, In doc documents /\ In tag (tags doc) /\
                             tag_overlaps queryTerms tag = true /\
                             x = JsString.toUpperCase tag) /\
  (hasDocumentOverlap r = true <->
   exists doc tag, In doc documents /\ In tag (tags doc) /\
                   tag_overlaps queryTerms tag = true) /\
  hasDocumentOverlap (checkDocumentOverlap queryTerms []) = false.
Proof.
  cbv zeta. unfold checkDocumentOverlap.
  cbn [overlappingCompanies hasDocumentOverlap].
  assert (Hin : forall x,
            In x (fold_left (overlapStep queryTerms) documents []) <->
            exists doc tag, In doc documents /\ In tag (tags doc) /\
                            tag_overlaps queryTerms tag = true /\
                            x = JsString.toUpperCase tag).
  { intros x. rewrite overlap_fold_In. split; [intros [[]|H]; exact H | auto]. }
  split; [|split; [exact Hin|split; [|reflexivity]]].
  - clear Hin. generalize (@NoDup_nil_2 string). generalize (@nil string).
    induction documents as [|d docs IH]; intros acc Hacc; [exact Hacc|].
    cbn [fold_left]. apply IH. now apply overlapStep_NoDup.
  - split.
    + intros H. apply Nat.ltb_lt in H.
      destruct (fold_left (overlapStep queryTerms) documents []) as [|x xs] eqn:Hl;
        [cbn in H; lia|].
      destruct (proj1 (Hin x) (or_introl eq_refl)) as (doc & tag & Hd & Ht & Ho & _).
      now exists doc, tag.
    + intros (doc & tag & Hd & Ht & Ho). apply Nat.ltb_lt.
      assert (Hx : In (JsString.toUpperCase tag)
                     (fold_left (overlapStep queryTerms) documents [])).
      { apply Hin. now exists doc, tag. }
      destruct (fold_left (overlapStep queryTerms) documents []); [destruct Hx|].
      cbn. lia.
Qed.

(** *** Scores and the decision *)

Lemma Qplus_nonneg (a b : Q) : (0 <= a)%Q -> (0 <= b)%Q -> (0 <= a + b)%Q.
Proof. intros Ha Hb. apply (Qplus_le_compat 0 a 0 b Ha Hb). Qed.

Lemma sum_Q_nonneg (l : list Q) : Forall (fun q => (0 <= q)%Q) l -> (0 <= sum_Q l)%Q.
Proof.
  induction 1 as [|q l Hq _ IH]; [apply Qle_refl|].
  change (sum_Q (q :: l)) with (q + sum_Q l)%Q. now apply Qplus_nonneg.
Qed.

Lemma pick_nonneg (b : bool) (q : Q) : (0 <= q)%Q -> (0 <= if b then q else 0)%Q.
Proof. destruct b; [trivial | intros _; apply Qle_refl]. Qed.

Lemma termRelevance_nonneg (document : Article) (term : string) :
  (0 <= termRelevance document term)%Q.
Proof.
  unfold termRelevance. cbv zeta.
  apply Qplus_nonneg; [apply Qplus_nonneg; [apply Qplus_nonneg|]|];
    try (apply pick_nonneg; discriminate).
  apply sum_Q_nonneg. apply List.Forall_forall. intros q Hq.
  apply in_map_iff in Hq as (entry & <- & _). apply pick_nonneg. discriminate.
Qed.

Lemma Qdiv_count_nonneg (q : Q) (n : nat) :
  (0 <= q)%Q -> n <> 0 -> (0 <= q / inject_Z (Z.of_nat n))%Q.
Proof.
  intros Hq Hn. apply Qle_shift_div_l.
  - unfold Qlt. cbn. lia.
  - now rewrite Qmult_0_l.
Qed.

Lemma relevance_bounds (queryTerms : list string) (document : Article) :
  (0 <= calculateDocumentRelevance queryTerms document)%Q /\
  (calculateDocumentRelevance queryTerms document <= 1)%Q.
Proof.
  unfold calculateDocumentRelevance; cbv zeta.
  destruct queryTerms as [|t ts]; [split; discriminate|]. split.
  - apply Q.min_glb; [discriminate|].
    apply Qdiv_count_nonneg; [|discriminate].
    apply sum_Q_nonneg. apply List.Forall_forall. intros q Hq.
    apply in_map_iff in Hq as (term & <- & _). apply termRelevance_nonneg.
  - apply Q.le_min_l.
Qed.

(** X19: the relevance score of a document lies between 0 and 1, and is 0 for a
    query without terms. *)
Theorem calculateDocumentRelevance_range (queryTerms : list string) (document : Article) :
  (0 <= calculateDocumentRelevance queryTerms document)%Q /\
  (calculateDocumentRelevance queryTerms document <= 1)%Q /\
  calculateDocumentRelevance [] document = 0%Q.
Proof.
  destruct (relevance_bounds queryTerms document) as [H0 H1].
  split; [exact H0|]. split; [exact H1 | reflexivity].
Qed.

Lemma Qlt_bool_weaken (x : Q) : Qlt_bool x 0.15 = false -> Qlt_bool x 0.1 = false.
Proof.
  unfold Qlt_bool. rewrite !negb_false_iff, !Qle_bool_iff.
  intros H. eapply Qle_trans; [|exact H]. discriminate.
Qed.

(** X20: over a non-empty document set the verdict is "relevant" exactly when a
    known entity matched, or a document tag overlaps the query, or the query
    has no off-topic term and the mean document score is at least 0.15; the
    fifth branch of the decision is never taken, so the reason is never
    "Insufficient relevant documents found".  The mean score lies between 0
    and 1 and the count of relevant documents is at most the number of
    documents. *)
Theorem evaluateRelevance_decision (query : string) (documents : list Article) :
  documents <> [] ->
  let r := evaluateRelevance query documents in
  let terms := extractQueryTerms query in
  isRelevant r
  = hasKnownEntity (detectKnownEntities terms)
    || hasDocumentOverlap (checkDocumentOverlap terms documents)
    || (negb (isOffTopic (detectOffTopicQuery terms false))
        && negb (Qlt_bool (averageRelevance r) 0.15)) /\
  reason r <> "Insufficient relevant documents found" /\
  reason r <> "No documents retrieved" /\
  (0 <= averageRelevance r)%Q /\ (averageRelevance r <= 1)%Q /\
  relevantDocCount r <= length documents /\
  totalDocCount r = Some (length documents).
Proof.
  intros Hne. destruct documents as [|d ds]; [congruence|].
  cbv zeta. unfold evaluateRelevance. cbv zeta.
  cbn [isRelevant reason averageRelevance relevantDocCount totalDocCount].
  set (terms := extractQueryTerms query).
  set (scores := map docScore
                   (map (fun doc => {| docId := id doc;
                                       docScore := calculateDocumentRelevance terms doc |})
                        (d :: ds))).
  set (avg := (sum_Q scores / inject_Z (Z.of_nat (length
                 (map (fun doc => {| docId := id doc;
                                     docScore := calculateDocumentRelevance terms doc |})
                      (d :: ds)))))%Q).
  assert (Hscores : Forall (fun q => (0 <= q)%Q /\ (q <= 1)%Q) scores).
  { subst scores. rewrite map_map. apply List.Forall_forall. intros q Hq.
    apply in_map_iff in Hq as (doc & <- & _). cbn [docScore].
    apply relevance_bounds. }
  assert (Hlen : length (map (fun doc => {| docId := id doc;
                                            docScore := calculateDocumentRelevance terms doc |})
                             (d :: ds)) = length scores).
  { subst scores. now rewrite !length_map. }
  assert (Hpos : length scores <> 0) by (subst scores; cbn; lia).
  assert (Hsum : (0 <= sum_Q scores)%Q /\
                 (sum_Q scores <= inject_Z (Z.of_nat (length scores)))%Q).
  { clear -Hscores. induction Hscores as [|q l [H0 H1] _ [IH0 IH1]].
    - split; apply Qle_refl.
    - change (sum_Q (q :: l)) with (q + sum_Q l)%Q. cbn [length]. split.
      + now apply Qplus_nonneg.
      + rewrite Nat2Z.inj_succ. unfold Z.succ. rewrite inject_Z_plus.
        rewrite (Qplus_comm (inject_Z (Z.of_nat (length l)))).
        now apply Qplus_le_compat. }
  assert (Havg : (0 <= avg)%Q /\ (avg <= 1)%Q).
  { subst avg. rewrite Hlen. destruct Hsum as [Hs0 Hs1]. split.
    - now apply Qdiv_count_nonneg.
    - apply Qle_shift_div_r; [unfold Qlt; cbn; lia | now rewrite Qmult_1_l]. }
  split; [|split; [|split; [|split; [exact (proj1 Havg)|split; [exact (proj2 Havg)|split]]]]].
  - destruct (hasKnownEntity (detectKnownEntities terms)); [reflexivity|].
    destruct (hasDocumentOverlap (checkDocumentOverlap terms (d :: ds))); [reflexivity|].
    destruct (isOffTopic (detectOffTopicQuery terms false)); [reflexivity|].
    cbn [orb negb andb fst].
    destruct (Qlt_bool avg 0.15) eqn:Hq; [reflexivity|].
    rewrite (Qlt_bool_weaken avg Hq), andb_false_r. reflexivity.
  - destruct (hasKnownEntity (detectKnownEntities terms)); [discriminate|].
    destruct (hasDocumentOverlap (checkDocumentOverlap terms (d :: ds))); [discriminate|].
    destruct (isOffTopic (detectOffTopicQuery terms false)); [discriminate|].
    destruct (Qlt_bool avg 0.15) eqn:Hq; [discriminate|].
    rewrite (Qlt_bool_weaken avg Hq), andb_false_r. discriminate.
  - destruct (hasKnownEntity (detectKnownEntities terms)); [discriminate|].
    destruct (hasDocumentOverlap (checkDocumentOverlap terms (d :: ds))); [discriminate|].
    destruct (isOffTopic (detectOffTopicQuery terms false)); [discriminate|].
    destruct (Qlt_bool avg 0.15); [discriminate|].
    destruct (_ && _); discriminate.
  - etransitivity; [apply sublist_length, CredibilityMore.filter_sublist_all|].
    now rewrite length_map.
  - reflexivity.
Qed.

Lemma evaluateRelevance_decision_witness :
  isRelevant (evaluateRelevance "zinc futures" [Sample.apple_pay]) = false.
Proof.
  rewrite (proj1 (evaluateRelevance_decision "zinc futures" [Sample.apple_pay]
                    ltac:(discriminate))).
  vm_compute. reflexivity.
Defined.

End RelevanceMore.

(** ** Orchestrator: telemetry, the summarizer switch, responses *)

Module PipelineMore.
Import AnalyzeRoute.

(** What a judged request has computed, stage by stage. *)
Lemma stages_components host corpus req st :
  stages host corpus req = Judged st ->
  exists retrieved,
    RetrievalService.retrieveRelevantContent host corpus (optQuery (options req))
      (maxResults (options req)) (optCompanies (options req))
    = Js.Returns retrieved /\
    retrieved <> [] /\
    retrievedDocs st = retrieved /\
    credibleSources st
    = CredibilityService.filterByCredibility retrieved (optMinCredibility (options req)) /\
    credibleSources st <> [] /\
    dedupedSources st
    = DeduplicationService.unique
        (DeduplicationService.deduplicateArticles (credibleSources st)
           DeduplicationService.default_threshold) /\
    duplicateDocs st
    = DeduplicationService.duplicates
        (DeduplicationService.deduplicateArticles (credibleSources st)
           DeduplicationService.default_threshold) /\
    finalDocs st = finalSources (dedupedSources st) (sourceCap (options req)) /\
    relevanceResult st
    = RelevanceService.evaluateRelevance (optQuery (options req)) (finalDocs st).
Proof.
  unfold stages. destruct (invalidQuery (query req)); [discriminate|].
  cbv zeta.
  destruct (RetrievalService.retrieveRelevantContent _ _ _ _ _) as [[|r rs]|] eqn:Hr;
    try discriminate.
  destruct (CredibilityService.filterByCredibility (r :: rs) _) as [|c cs] eqn:Hc;
    [discriminate|].
  intros [= <-]. exists (r :: rs).
  cbn [retrievedDocs credibleSources dedupedSources duplicateDocs finalDocs relevanceResult].
  rewrite Hc. repeat split; discriminate.
Qed.

Lemma retrieve_length host corpus query maxResults filter (l : list Article) :
  RetrievalService.retrieveRelevantContent host corpus query maxResults filter
  = Js.Returns l ->
  (0 <= maxResults)%Z -> (Z.of_nat (length l) <= maxResults)%Z.
Proof.
  intros H Hn. apply RetrievalMore.retrieve_returns in H as (terms & scored & _ & _ & ->).
  rewrite (PipelineFacts.slice0_nonneg _ _ Hn), length_firstn. lia.
Qed.

Lemma filterByCredibility_length (articles : list Article) (minScore : Q) :
  length (CredibilityService.filterByCredibility articles minScore) <= length articles.
Proof.
  unfold CredibilityService.filterByCredibility.
  etransitivity; [apply sublist_length, CredibilityMore.filter_sublist_all|].
  now rewrite length_map.
Qed.

Lemma dedup_lengths (articles : list Article) (t : Q) :
  length (DeduplicationService.unique (DeduplicationService.deduplicateArticles articles t))
  + length (DeduplicationService.duplicates
              (DeduplicationService.deduplicateArticles articles t))
  = length articles.
Proof.
  assert (H : Permutation
            (map DeduplicationService.unmarked
               (DeduplicationService.unique
                  (DeduplicationService.deduplicateArticles articles t)
                ++ DeduplicationService.duplicates
                     (DeduplicationService.deduplicateArticles articles t)))
            (map DeduplicationService.unmarked articles)).
  { unfold DeduplicationService.deduplicateArticles.
    destruct articles as [|a l]; [reflexivity|].
    rewrite DeduplicationMore.fold_step_perm.
    cbn [DeduplicationService.unique DeduplicationService.duplicates app].
    change (map DeduplicationService.unmarked []) with (@nil Article). cbn [app].
    apply Permutation_map, DeduplicationMore.sort_desc_perm. }
  apply Permutation_length in H. now rewrite !length_map, length_app in H.
Qed.

Lemma finalSources_length (deduped : list Article) (maxSources : Z) :
  length (finalSources deduped maxSources) <= length deduped.
Proof.
  unfold finalSources.
  etransitivity; [apply sublist_length, RetrievalMore.slice0_sublist|].
  unfold Sorting.sortByCredibility. now rewrite SortingFacts.sort_desc_length.
Qed.

(** With a cap that is not negative, the retriever is asked for at most
    twice the cap. *)
Lemma retrieved_within_cap host corpus (o : Options) (l : list Article) :
  RetrievalService.retrieveRelevantContent host corpus (optQuery o) (maxResults o)
    (optCompanies o) = Js.Returns l ->
  (0 <= optMaxSources o)%Q ->
  (inject_Z (Z.of_nat (length l)) <= 2 * optMaxSources o)%Q.
Proof.
  intros Hret Hcap.
  assert (Hcap2 : (0 <= optMaxSources o * 2)%Q) by lra.
  destruct (PipelineFacts.toInteger_nonneg _ Hcap2) as [H0 Hfloor].
  apply retrieve_length in Hret; [|exact H0].
  rewrite Zle_Qle in Hret. unfold maxResults in Hret. lra.
Qed.

Ltac proj :=
  cbn [retrieved afterCredibilityFilter afterDeduplication duplicatesRemoved
       finalSourcesUsed].

(** X21: the stage counts a response reports are consistent: credibility
    filtering never adds to the retrieved documents, the deduplicated and the
    removed duplicates add up to the credible ones, no more final sources are
    used than deduplicated ones exist, and for a cap that is not negative at
    most twice the cap were retrieved. *)
Theorem telemetry_consistent host corpus clock req summarizer (t : Telemetry) :
  pipeline (run summarizer (analyze host corpus clock req)) = Some t ->
  (forall c, afterCredibilityFilter t = Some c -> c <= retrieved t) /\
  (forall c d x, afterCredibilityFilter t = Some c -> afterDeduplication t = Some d ->
                 duplicatesRemoved t = Some x -> d + x = c) /\
  (forall d f, afterDeduplication t = Some d -> finalSourcesUsed t = Some f -> f <= d) /\
  ((0 <= optMaxSources (options req))%Q ->
   (inject_Z (Z.of_nat (retrieved t)) <= 2 * optMaxSources (options req))%Q).
Proof.
  unfold analyze. destruct (stages host corpus req) as [| | | |st] eqn:Hst.
  - discriminate.
  - discriminate.
  - cbn [run noContent pipeline]. intros [= <-]. proj.
    repeat split; intros; try congruence.
    change (inject_Z (Z.of_nat 0)) with 0%Q. lra.
  - cbn [run belowThreshold pipeline]. intros [= <-]. proj.
    repeat split; try (intros; congruence).
    intros Hcap. revert Hst. unfold stages.
    destruct (invalidQuery (query req)); [discriminate|]. cbv zeta.
    destruct (RetrievalService.retrieveRelevantContent _ _ _ _ _) as [[|r rs]|] eqn:Hr;
      try discriminate.
    destruct (CredibilityService.filterByCredibility (r :: rs) _); [|discriminate].
    intros [= <-]. exact (retrieved_within_cap host corpus (options req) _ Hr Hcap).
  - destruct (stages_components host corpus req st Hst)
      as (rt & Hret & _ & Hr & Hc & _ & Hd & Hx & Hf & _).
    assert (H1 : length (credibleSources st) <= length (retrievedDocs st)).
    { rewrite Hc, Hr. apply filterByCredibility_length. }
    assert (H2 : length (dedupedSources st) + length (duplicateDocs st)
                 = length (credibleSources st)).
    { rewrite Hd, Hx. apply dedup_lengths. }
    assert (H3 : length (finalDocs st) <= length (dedupedSources st)).
    { rewrite Hf. apply finalSources_length. }
    assert (H4 : (0 <= optMaxSources (options req))%Q ->
                 (inject_Z (Z.of_nat (length (retrievedDocs st)))
                  <= 2 * optMaxSources (options req))%Q).
    { intros Hcap. rewrite Hr.
      exact (retrieved_within_cap host corpus (options req) _ Hret Hcap). }
    destruct (negb (RelevanceService.isRelevant (relevanceResult st))).
    + cbn [run rejected pipeline]. intros [= <-]. proj.
      repeat split; try exact H4; intros; simplify_eq; lia.
    + cbn [run]. destruct (summarizer _ _ _) as [result|msg]; [|discriminate].
      cbn [analysed pipeline]. intros [= <-]. proj.
      repeat split; try exact H4; intros; simplify_eq; lia.
Qed.

Lemma telemetry_consistent_witness :
  exists t,
    pipeline (run (fun _ q docs => Js.Returns (generateMockAnalysis "now" q docs))
                (analyze RegExp.no_host Sample.corpus Sample.clock
                   (Sample.request "apple" None))) = Some t /\
    (forall c, afterCredibilityFilter t = Some c -> c <= retrieved t).
Proof.
  eexists. split; [vm_compute; reflexivity|].
  refine (proj1 (telemetry_consistent RegExp.no_host Sample.corpus Sample.clock
                   (Sample.request "apple" None)
                   (fun _ q docs => Js.Returns (generateMockAnalysis "now" q docs))
                   _ _)).
  vm_compute; reflexivity.
Defined.

Lemma dedup_unique_nonempty (articles : list Article) (t : Q) :
  articles <> [] ->
  DeduplicationService.unique (DeduplicationService.deduplicateArticles articles t) <> [].
Proof.
  intros Hne. unfold DeduplicationService.deduplicateArticles.
  destruct articles as [|a l]; [congruence|].
  pose proof (SortingFacts.sort_desc_length Sorting.cred_leb (a :: l)) as Hlen.
  fold (Sorting.sortByCredibility (a :: l)) in Hlen.
  destruct (Sorting.sortByCredibility (a :: l)) as [|top rest]; [discriminate Hlen|].
  cbn [fold_left]. unfold DeduplicationService.step at 2.
  cbn [DeduplicationService.unique DeduplicationService.duplicates existsb app].
  destruct (DeduplicationMore.fold_step_prefix t rest
              {| DeduplicationService.unique := [with_deduplication top StatusUnique];
                 DeduplicationService.duplicates := [] |}) as (more & ->).
  discriminate.
Qed.

(** X22: what the guardrail is handed.  A request that reaches the guardrail
    has at least one deduplicated document; the final documents are empty
    exactly when the cap, read as an integer, is 0 or cuts as many documents
    from the end as there are.  So with a cap of at least 1 the guardrail
    scores every final document, while a cap from 0.5 up to, but not
    including, 1 (no smaller cap that is not negative gets this far) hands it
    no document, and the handler answers with the guardrail's "No documents
    retrieved". *)
Theorem guardrail_sees_documents host corpus req st :
  stages host corpus req = Judged st ->
  let cap := optMaxSources (options req) in
  dedupedSources st <> [] /\
  (finalDocs st = [] <->
   (Js.toInteger cap = 0
    \/ Z.of_nat (length (dedupedSources st)) + Js.toInteger cap <= 0)%Z) /\
  ((0 <= cap)%Q -> (1 # 2 <= cap)%Q) /\
  ((1 <= cap)%Q ->
   finalDocs st <> [] /\
   RelevanceService.totalDocCount (relevanceResult st) = Some (length (finalDocs st)) /\
   option_map (length (A:=RelevanceService.DocScore))
     (RelevanceService.docScores (relevanceResult st))
   = Some (length (finalDocs st))) /\
  ((0 <= cap)%Q -> (cap < 1)%Q ->
   finalDocs st = [] /\
   RelevanceService.isRelevant (relevanceResult st) = false /\
   RelevanceService.reason (relevanceResult st) = "No documents retrieved" /\
   RelevanceService.docScores (relevanceResult st) = None).
Proof.
  intros Hst cap.
  destruct (stages_components host corpus req st Hst)
    as (rt & Hret & Hrt & _ & _ & Hcne & Hd & _ & Hf & Hrel).
  assert (Hu : dedupedSources st <> []).
  { rewrite Hd. now apply dedup_unique_nonempty. }
  assert (Hlen : length (Sorting.sortByCredibility (dedupedSources st))
                 = length (dedupedSources st))
    by apply SortingFacts.sort_desc_length.
  assert (Hpos : 0 < length (dedupedSources st)).
  { destruct (dedupedSources st); [congruence | cbn; lia]. }
  assert (Hempty : finalDocs st = [] <->
            (Js.toInteger cap = 0
             \/ Z.of_nat (length (dedupedSources st)) + Js.toInteger cap <= 0)%Z).
  { rewrite Hf. unfold finalSources, sourceCap, Js.slice0. fold cap.
    destruct (Z.ltb_spec (Js.toInteger cap) 0) as [Hneg|Hnn].
    - rewrite Hlen. split.
      + intros Hnil. apply (f_equal (@length Article)) in Hnil.
        rewrite length_firstn, Hlen in Hnil. cbn [length] in Hnil. lia.
      + intros Hcut.
        replace (Z.to_nat (Z.of_nat (length (dedupedSources st)) + Js.toInteger cap))
          with 0 by lia.
        reflexivity.
    - split.
      + intros Hnil. apply (f_equal (@length Article)) in Hnil.
        rewrite length_firstn, Hlen in Hnil. cbn [length] in Hnil. lia.
      + intros Hcut. replace (Z.to_nat (Js.toInteger cap)) with 0 by lia.
        reflexivity. }
  split; [exact Hu|]. split; [exact Hempty|]. split; [|split].
  - intros Hcap.
    pose proof (retrieved_within_cap host corpus (options req) rt Hret Hcap) as Hle.
    fold cap in Hle.
    assert (H1 : (inject_Z 1 <= inject_Z (Z.of_nat (length rt)))%Q).
    { rewrite <- Zle_Qle. destruct rt; [congruence | cbn [length]; lia]. }
    change (inject_Z 1) with 1%Q in H1. lra.
  - intros Hone.
    assert (Hint : (1 <= Js.toInteger cap)%Z)
      by (apply PipelineFacts.toInteger_lower; [lia | exact Hone]).
    assert (Hfinal : finalDocs st <> []).
    { intros Hnil. apply Hempty in Hnil. lia. }
    split; [exact Hfinal|].
    rewrite Hrel. unfold RelevanceService.evaluateRelevance.
    destruct (finalDocs st) as [|d ds]; [congruence|].
    cbv zeta. cbn [RelevanceService.totalDocCount RelevanceService.docScores option_map].
    split; [reflexivity|]. now rewrite length_map.
  - intros Hcap Hlt.
    assert (Hnil : finalDocs st = []).
    { apply Hempty. left. now apply PipelineFacts.toInteger_below_one. }
    split; [exact Hnil|]. rewrite Hrel, Hnil. repeat split.
Qed.

(** A cap of one half: one article is retrieved, none is left for the
    guardrail. *)
Lemma guardrail_sees_documents_witness :
  exists st,
    stages RegExp.no_host Sample.corpus (Sample.request "apple" (Some (1 # 2)%Q))
    = Judged st /\
    map id (dedupedSources st) = ["art-1"] /\
    finalDocs st = [] /\
    RelevanceService.reason (relevanceResult st) = "No documents retrieved".
Proof.
  eexists. split; [vm_compute; reflexivity|].
  split; [vm_compute; reflexivity|].
  refine ((fun H => conj (proj1 H) (proj1 (proj2 (proj2 H))))
            (proj2 (proj2 (proj2 (proj2
               (guardrail_sees_documents RegExp.no_host Sample.corpus
                  (Sample.request "apple" (Some (1 # 2)%Q)) _ _)))) _ _)).
  - vm_compute; reflexivity.
  - cbn. unfold Qle. cbn. lia.
  - cbn. unfold Qlt. cbn. lia.
Defined.

(** X23: the summarizer is called with the request's query and mock switch; when
    it fails, the response is the server error carrying its message, with no
    analysis and no sources; and in mock mode the response does not depend on
    the real collaborator at all. *)
Theorem summarizer_switch host corpus clock req :
  (forall mock q docs k,
     analyze host corpus clock req = Summarize mock q docs k ->
     mock = optUseMock (options req) /\ q = optQuery (options req) /\
     forall sm e,
       sm mock q docs = Js.Throws e ->
       run sm (analyze host corpus clock req) = serverError clock e /\
       message (run sm (analyze host corpus clock req)) = Some (Js.message e) /\
       analysis (run sm (analyze host corpus clock req)) = None /\
       sources (run sm (analyze host corpus clock req)) = None) /\
  (optUseMock (options req) = true ->
   forall llm1 llm2 now,
     run (summarizer llm1 now) (analyze host corpus clock req)
     = run (summarizer llm2 now) (analyze host corpus clock req)).
Proof.
  unfold analyze. split.
  - intros mock q docs k.
    destruct (stages host corpus req) as [| | | |st]; try discriminate.
    destruct (negb (RelevanceService.isRelevant (relevanceResult st)));
      [discriminate|].
    intros [= <- <- <- <-]. split; [reflexivity|]. split; [reflexivity|].
    intros sm e Hsm. cbn [run]. cbn in Hsm |- *. rewrite Hsm. repeat split.
  - intros Hmock llm1 llm2 now.
    destruct (stages host corpus req) as [| | | |st]; try reflexivity.
    destruct (negb (RelevanceService.isRelevant (relevanceResult st)));
      [reflexivity|].
    cbn [run]. unfold summarizer. now rewrite Hmock.
Qed.

Lemma summarizer_switch_witness :
  run (summarizer
         (fun _ _ => Js.Throws {| Js.name := "Error"; Js.message := "offline" |}) "now")
    (analyze RegExp.no_host Sample.corpus Sample.clock
       {| query := Some "apple"; maxSources := None; minCredibility := None;
          companiesFilter := None; useMock := Some true |})
  = run (summarizer (fun q docs => Js.Returns (generateMockAnalysis "later" q docs)) "now")
      (analyze RegExp.no_host Sample.corpus Sample.clock
         {| query := Some "apple"; maxSources := None; minCredibility := None;
            companiesFilter := None; useMock := Some true |}).
Proof.
  apply (proj2 (summarizer_switch RegExp.no_host Sample.corpus Sample.clock
                  {| query := Some "apple"; maxSources := None; minCredibility := None;
                     companiesFilter := None; useMock := Some true |})).
  reflexivity.
Defined.

(** X24: a response given without calling the summarizer lists no source and no
    credibility breakdown; it has status 400 exactly for a missing, non-string
    or blank query, and with status 200 it is a success with an empty source
    list. *)
Theorem direct_response_has_no_sources host corpus clock req (r : Response) :
  analyze host corpus clock req = Respond r ->
  (sources r = None \/ sources r = Some []) /\
  credibilityBreakdown r = None /\
  (status r = 400 <-> invalidQuery (query req) = true) /\
  (status r = 200 -> success r = true /\ sources r = Some []) /\
  (status r = 400 \/ status r = 500 \/ status r = 200).
Proof.
  unfold analyze.
  destruct (stages host corpus req) as [| | | |st] eqn:Hst.
  - intros [= <-]. cbn. unfold stages in Hst.
    destruct (invalidQuery (query req));
      [|cbv zeta in Hst;
        destruct (RetrievalService.retrieveRelevantContent _ _ _ _ _) as [[|? ?]|];
        [discriminate Hst | | discriminate Hst];
        destruct (CredibilityService.filterByCredibility _ _); discriminate Hst].
    repeat split; auto; discriminate.
  - intros [= <-]. cbn. unfold stages in Hst.
    destruct (invalidQuery (query req)); [discriminate Hst|].
    repeat split; auto; try discriminate; intros; discriminate.
  - intros [= <-]. cbn. unfold stages in Hst.
    destruct (invalidQuery (query req)); [discriminate Hst|].
    repeat split; auto; try discriminate; intros; discriminate.
  - intros [= <-]. cbn. unfold stages in Hst.
    destruct (invalidQuery (query req)); [discriminate Hst|].
    repeat split; auto; try discriminate; intros; discriminate.
  - destruct (negb (RelevanceService.isRelevant (relevanceResult st)));
      [|discriminate].
    intros [= <-]. cbn. unfold stages in Hst.
    destruct (invalidQuery (query req)); [discriminate Hst|].
    repeat split; auto; try discriminate; intros; discriminate.
Qed.

Lemma direct_response_has_no_sources_witness :
  sources (noContent Sample.clock "zinc futures") = None \/
  sources (noContent Sample.clock "zinc futures") = Some [].
Proof.
  refine (proj1 (direct_response_has_no_sources RegExp.no_host Sample.corpus
                   Sample.clock (Sample.request "zinc futures" None) _ _)).
  vm_compute; reflexivity.
Defined.

End PipelineMore.

(** ** Dashboard: the sentiment trend *)

Module DashboardFacts.
Import Dashboard.

Lemma lastN_length {A} (n : nat) (l : list A) : length (lastN n l) = Nat.min n (length l).
Proof. unfold lastN. rewrite length_skipn. lia. Qed.

Lemma lastN_suffix {A} (n : nat) (l : list A) :
  exists dropped, l = dropped ++ lastN n l /\ length dropped = length l - n.
Proof.
  exists (firstn (length l - n) l). unfold lastN. split.
  - symmetry. apply firstn_skipn.
  - rewrite length_firstn. lia.
Qed.

Lemma substring_length (n : nat) (s : string) :
  String.length (String.substring 0 n s) = Nat.min n (String.length s).
Proof.
  revert s. induction n as [|n IH]; intros [|c s]; cbn; try reflexivity.
  now rewrite IH.
Qed.

Lemma append_length (a b : string) :
  String.length (a +:+ b) = String.length a + String.length b.
Proof.
  induction a as [|c a IH]; [reflexivity|].
  rewrite RetrievalFacts.append_cons. cbn. now rewrite IH.
Qed.

Lemma trendLabel_length (q : string) : String.length (trendLabel q) <= 18.
Proof.
  unfold trendLabel. destruct (Nat.ltb_spec 15 (String.length q)) as [H|H]; [|lia].
  rewrite append_length, substring_length.
  change (String.length "...") with 3. lia.
Qed.

Lemma recordSentiment_cases prev q r now :
  recordSentiment prev q r now = prev \/
  exists a, AnalyzeRoute.analysis r = Some a /\
            recordSentiment prev q r now = addTrendPoint prev q (sentimentScore a) now.
Proof.
  unfold recordSentiment.
  destruct (negb (ok r)); [now left|].
  destruct (_ && _); [now left|].
  destruct (AnalyzeRoute.analysis r) as [a|]; [right; now exists a | now left].
Qed.

Lemma addTrendPoint_length prev q score now :
  length (addTrendPoint prev q score now) = Nat.min 9 (length prev) + 1.
Proof. unfold addTrendPoint. rewrite length_app, lastN_length. reflexivity. Qed.

Lemma recordAll_from (events : list Answered) (start : list TrendPoint) :
  length start <= 10 ->
  Forall (fun p => String.length (trendQuery p) <= 18) start ->
  let h := fold_left
             (fun history e =>
                recordSentiment history (fst (fst e)) (snd (fst e)) (snd e))
             events start in
  length h <= 10 /\ Forall (fun p => String.length (trendQuery p) <= 18) h.
Proof.
  revert start. induction events as [|e es IH]; intros start Hlen Hlab; cbn [fold_left].
  - now split.
  - apply IH.
    + destruct (recordSentiment_cases start (fst (fst e)) (snd (fst e)) (snd e))
        as [->|(a & _ & ->)]; [exact Hlen|].
      rewrite addTrendPoint_length. lia.
    + destruct (recordSentiment_cases start (fst (fst e)) (snd (fst e)) (snd e))
        as [->|(a & _ & ->)]; [exact Hlab|].
      unfold addTrendPoint. apply Forall_app. split.
      * destruct (lastN_suffix 9 start) as (dropped & Heq & _).
        rewrite Heq in Hlab. now apply Forall_app in Hlab as [_ Hlab].
      * constructor; [|constructor]. cbn [trendQuery]. apply trendLabel_length.
Qed.

(** X25: however many queries are answered, the sentiment trend never holds more
    than ten points and every label has at most 18 characters; a recorded
    answer keeps the last nine points in order and puts the new one last,
    and an answer that is an error or has no analysis leaves the trend as it
    is. *)
Theorem sentiment_trend_bounded (events : list Answered) :
  length (recordAll events) <= 10 /\
  Forall (fun p => String.length (trendQuery p) <= 18) (recordAll events) /\
  (forall prev q r now,
     recordSentiment prev q r now = prev \/
     exists a dropped,
       AnalyzeRoute.analysis r = Some a /\
       prev = dropped ++ lastN 9 prev /\ length dropped = length prev - 9 /\
       recordSentiment prev q r now
       = lastN 9 prev
         ++ [ {| trendQuery := trendLabel q; trendScore := sentimentScore a;
                 trendTimestamp := now |} ]) /\
  (forall prev q r now,
     AnalyzeRoute.analysis r = None \/ AnalyzeRoute.status r = 400
     \/ AnalyzeRoute.status r = 500 ->
     recordSentiment prev q r now = prev) /\
  (forall q, String.length q <= 15 -> trendLabel q = q).
Proof.
  destruct (recordAll_from events [] ltac:(cbn; lia) ltac:(constructor)) as [Hlen Hlab].
  split; [exact Hlen|]. split; [exact Hlab|]. split; [|split].
  - intros prev q r now.
    destruct (recordSentiment_cases prev q r now) as [H|(a & Ha & H)]; [now left|].
    right. destruct (lastN_suffix 9 prev) as (dropped & Heq & Hd).
    exists a, dropped. repeat split; assumption.
  - intros prev q r now H. unfold recordSentiment, ok.
    destruct H as [H|[H|H]].
    + rewrite H. destruct (negb _); [reflexivity|]. now destruct (_ && _).
    + now rewrite H.
    + now rewrite H.
  - intros q Hq. unfold trendLabel.
    destruct (Nat.ltb_spec 15 (String.length q)); [lia | reflexivity].
Qed.

End DashboardFacts.

(** ** Scorer and deduplicator at the edges of their inputs *)

Module EdgeFacts.

(** X7: for a source type and a source name that are not names of inherited
    members, the scorer assigns a score between 0.1 and 1.0 and the tier the
    fixed thresholds give that score. *)
Theorem assignCredibility_contract (a : Article) :
  Js.inherited (sourceType a) = false ->
  Js.inherited (source a) = false ->
  exists c q,
    credibility (CredibilityService.assignCredibility a) = Some c /\
    score c = Js.Num q /\ (0.1 <= q)%Q /\ (q <= 1.0)%Q /\
    (tier c = HIGH <-> (0.90 <= q)%Q) /\
    (tier c = MEDIUM <-> (0.70 <= q)%Q /\ (q < 0.90)%Q) /\
    (tier c = LOW <-> (0.50 <= q)%Q /\ (q < 0.70)%Q) /\
    (tier c = UNVERIFIED <-> (q < 0.50)%Q).
Proof.
  intros Ht Hs.
  destruct (CredibilityFacts.get_or_own_only CredibilityService.CREDIBILITY_SCORES _
              CredibilityService.unknown_score Ht) as [b Hb].
  destruct (CredibilityFacts.get_or_own_only CredibilityService.SOURCE_ADJUSTMENTS _
              0%Q Hs) as [d Hd].
  destruct (CredibilityFacts.clamp_sum_range b d) as (q & Hq & Hlo & Hhi).
  eexists; exists q. split; [reflexivity|]. cbn [score tier].
  unfold CredibilityService.finalScore, CredibilityService.baseScore,
    CredibilityService.adjustment. rewrite Hb, Hd, Hq.
  split; [reflexivity|]. split; [exact Hlo|]. split; [exact Hhi|].
  unfold CredibilityService.tier_of, Js.ge.
  destruct (Qle_bool 0.90 q) eqn:H9;
    [apply Qle_bool_iff in H9 | apply CredibilityFacts.Qle_bool_false_lt in H9];
  (destruct (Qle_bool 0.70 q) eqn:H7;
    [apply Qle_bool_iff in H7 | apply CredibilityFacts.Qle_bool_false_lt in H7]);
  (destruct (Qle_bool 0.50 q) eqn:H5;
    [apply Qle_bool_iff in H5 | apply CredibilityFacts.Qle_bool_false_lt in H5]);
  repeat split; intros; destruct_and?; try congruence; try lra; exfalso; lra.
Qed.

Lemma assignCredibility_contract_witness :
  exists c q,
    credibility (CredibilityService.assignCredibility Sample.apple_fashion) = Some c /\
    score c = Js.Num q /\ (0.1 <= q)%Q /\ (q <= 1.0)%Q.
Proof.
  destruct (assignCredibility_contract Sample.apple_fashion eq_refl eq_refl)
    as (c & q & H1 & H2 & H3 & H4 & _).
  now exists c, q.
Defined.

Import DeduplicationService.

Lemma jaccard_bounds (x y : string) :
  (0 <= jaccardSimilarity x y)%Q /\ (jaccardSimilarity x y <= 1)%Q.
Proof.
  unfold jaccardSimilarity. cbv zeta.
  apply DeduplicationMore.ratio_range, DeduplicationMore.inter_size_le_union.
Qed.

Lemma fold_step_none_similar (t : Q) (l : list Article) (acc : Outcome) :
  (forall a k, similar t a k = false) ->
  fold_left (step t) l acc
  = {| unique := unique acc ++ map (fun a => with_deduplication a StatusUnique) l;
       duplicates := duplicates acc |}.
Proof.
  intros Hnone. revert acc. induction l as [|x l IH]; intros acc; cbn [fold_left map].
  - rewrite app_nil_r. now destruct acc.
  - rewrite IH. unfold step.
    assert (Hx : existsb (similar t x) (unique acc) = false).
    { induction (unique acc) as [|k ks IHk]; [reflexivity|].
      cbn. now rewrite Hnone, IHk. }
    rewrite Hx. cbn [unique duplicates]. now rewrite <- app_assoc.
Qed.

Lemma fold_step_all_similar (t : Q) (l : list Article) (k : Article) (ks dups : list Article) :
  (forall a b, similar t a b = true) ->
  fold_left (step t) l {| unique := k :: ks; duplicates := dups |}
  = {| unique := k :: ks;
       duplicates := dups ++ map (fun a => with_deduplication a
                                             (StatusDuplicate duplicate_reason)) l |}.
Proof.
  intros Hall. revert dups. induction l as [|x l IH]; intros dups; cbn [fold_left map].
  - now rewrite app_nil_r.
  - unfold step at 2. cbn [unique duplicates existsb]. rewrite Hall. cbn [orb].
    now rewrite IH, <- app_assoc.
Qed.

(** X5: at the ends of the threshold range: a threshold above 1 drops nothing,
    the deduplicator only sorts and marks; a threshold of 0 or less keeps the
    single most credible article and drops all the others. *)
Theorem deduplicateArticles_threshold_extremes (articles : list Article) (t : Q) :
  ((1 < t)%Q ->
   deduplicateArticles articles t
   = {| unique := map (fun a => with_deduplication a StatusUnique)
                      (Sorting.sortByCredibility articles);
        duplicates := [] |}) /\
  ((t <= 0)%Q -> articles <> [] ->
   exists top rest,
     Sorting.sortByCredibility articles = top :: rest /\
     deduplicateArticles articles t
     = {| unique := [with_deduplication top StatusUnique];
          duplicates := map (fun a => with_deduplication a
                                        (StatusDuplicate duplicate_reason)) rest |}).
Proof.
  split.
  - intros Ht. unfold deduplicateArticles. destruct articles as [|a l]; [reflexivity|].
    apply fold_step_none_similar. intros x k. unfold similar.
    destruct (Qle_bool t _) eqn:H; [|reflexivity].
    apply Qle_bool_iff in H.
    destruct (jaccard_bounds (articleText x) (articleText k)) as [_ H1]. lra.
  - intros Ht Hne. unfold deduplicateArticles. destruct articles as [|a l]; [congruence|].
    pose proof (SortingFacts.sort_desc_length Sorting.cred_leb (a :: l)) as Hlen.
    fold (Sorting.sortByCredibility (a :: l)) in Hlen.
    destruct (Sorting.sortByCredibility (a :: l)) as [|top rest]; [discriminate Hlen|].
    exists top, rest. split; [reflexivity|].
    cbn [fold_left]. unfold step at 2. cbn [unique duplicates existsb app].
    rewrite fold_step_all_similar; [reflexivity|].
    intros x k. unfold similar. apply Qle_bool_iff.
    destruct (jaccard_bounds (articleText x) (articleText k)) as [H0 _]. lra.
Qed.

End EdgeFacts.
